(** * Robstride MIT-mode scripts: wire codec, feedback parser, parameter
      channel and control loop

    A shallow embedding of the Python scripts [fast.py], [mit.py],
    [findangles.py], [findmotorid.py] and [setpermzeros.py].

    - Python floats are IEEE-754 binary64 values: Rocq's primitive [float].
      Arithmetic and comparisons are the kernel's; general facts go through
      the specification [Prim2SF] of the Standard Library.
    - Python exceptions are an error monad over an explicit world state; the
      world holds the CAN bus (scripted receive and send outcomes, the log of
      sent frames), the clock, the robstride client, the console and the
      operator's interrupts (Ctrl+C during a [time.sleep], or inside the
      [try] of [read_feedback], whose bare [except] catches it).
    - Unbounded [while True] loops take a fuel argument; loops that end when
      the receive queue is empty recurse on a bound computed from the queue. *)

From Stdlib Require Import ZArith QArith Qminmax Qround Qabs List Bool String Lia.
From Stdlib Require Import Init.Byte Strings.Byte.
From Stdlib Require Import Reals Qreals Lra Psatz.
From Stdlib Require Import Floats.
Import ListNotations.

Set Warnings "-inexact-float".
Local Open Scope Z_scope.

(** ** Python run time: exceptions and the state-and-error monad *)

(** The exception classes the scripts can meet.  [KeyboardInterrupt] and
    [SystemExit] derive from [BaseException] only: [except Exception] does
    not catch them. *)
Inductive exn : Type :=
| ValueError          (* int() of a NaN *)
| OverflowError       (* int() of an infinity *)
| StructError         (* struct.error *)
| KeyError            (* missing dictionary key *)
| CanError            (* can.CanError raised by the bus *)
| ClientError         (* failure reported by the robstride client *)
| KeyboardInterrupt
| SystemExit.

Definition is_Exception (e : exn) : bool :=
  match e with
  | KeyboardInterrupt | SystemExit => false
  | _ => true
  end.

Inductive result (A : Type) : Type :=
| Ok (a : A)
| Raise (e : exn).
Arguments Ok {A} a.
Arguments Raise {A} e.

(** A computation over a state [S] that returns an [A] or raises. *)
Definition M (S A : Type) : Type := S -> result A * S.

Definition ret {S A : Type} (a : A) : M S A := fun s => (Ok a, s).

Definition raise {S A : Type} (e : exn) : M S A := fun s => (Raise e, s).

Definition bind {S A B : Type} (c : M S A) (k : A -> M S B) : M S B :=
  fun s =>
    match c s with
    | (Ok a, s') => k a s'
    | (Raise e, s') => (Raise e, s')
    end.

Definition of_result {S A : Type} (r : result A) : M S A := fun s => (r, s).

Definition modify {S : Type} (f : S -> S) : M S unit := fun s => (Ok tt, f s).

Declare Scope monad_scope.
Delimit Scope monad_scope with monad.
Notation "x <- c ;; k" := (bind c (fun x => k))
  (at level 61, c at next level, right associativity) : monad_scope.
Notation "c ;; k" := (bind c (fun _ => k))
  (at level 61, right associativity) : monad_scope.
Local Open Scope monad_scope.

(** [try: body / except <classes>: handler].  The state reached when the
    exception was raised is kept: Python rolls nothing back. *)
Definition try_except {S A : Type} (catches : exn -> bool)
  (body : M S A) (handler : exn -> M S A) : M S A :=
  fun s =>
    match body s with
    | (Ok a, s') => (Ok a, s')
    | (Raise e, s') => if catches e then handler e s' else (Raise e, s')
    end.

(** [try: body / finally: final].  An exception raised by [final] replaces
    the outcome of [body]. *)
Definition try_finally {S A : Type} (body : M S A) (final : M S unit) : M S A :=
  fun s =>
    match body s with
    | (r, s') =>
        match final s' with
        | (Ok _, s'') => (r, s'')
        | (Raise e, s'') => (Raise e, s'')
        end
    end.

(** ** Numbers *)

(** [int(x)] of a float: truncation toward zero; NaN and the infinities
    raise. *)
Definition py_int (x : float) : result Z :=
  match Prim2SF x with
  | S754_nan => Raise ValueError
  | S754_infinity _ => Raise OverflowError
  | S754_zero _ => Ok 0
  | S754_finite s m e => Ok (cond_Zopp s (Z.shiftl (Zpos m) e))
  end.

(** [float(n)] of an integer: the nearest binary64 value. *)
Definition py_float (n : Z) : float :=
  SF2Prim (binary_normalize prec emax n 0 false).

(** NumPy is not part of the repository.  [np.clip(a, a_min, a_max)] is, by
    its documentation, [np.minimum(a_max, np.maximum(a, a_min))]; both
    propagate NaN. *)
Definition np_maximum (a b : float) : float :=
  if is_nan a || is_nan b then nan else if (a <? b)%float then b else a.

Definition np_minimum (a b : float) : float :=
  if is_nan a || is_nan b then nan else if (b <? a)%float then b else a.

Definition np_clip (a a_min a_max : float) : float :=
  np_minimum a_max (np_maximum a a_min).

(** ** UnitCodec ([fast.py], lines 43-47) *)

Definition scale_value_to_u16 (value v_min v_max : float) : result Z :=
  py_int (65535.0 * (np_clip value v_min v_max - v_min) / (v_max - v_min))%float.

Definition unscale_u16_to_float (val_u16 : Z) (v_min v_max : float) : float :=
  ((py_float val_u16 / 65535.0) * (v_max - v_min) + v_min)%float.

(** The clamp of the specification's wording, for comparison with
    [np_clip]. *)
Definition clamp (v lo hi : float) : float :=
  if (v <? lo)%float then lo else if (hi <? v)%float then hi else v.

(** The specification's [encode]: clamp, map linearly, truncate. *)
Definition encode_spec (v lo hi : float) : result Z :=
  py_int (65535.0 * (clamp v lo hi - lo) / (hi - lo))%float.

(** ** Bytes and [struct] *)

Definition byte_of_Z (z : Z) : byte :=
  match Byte.of_N (Z.to_N z) with
  | Some b => b
  | None => x00
  end.

Definition Z_of_byte (b : byte) : Z := Z.of_N (Byte.to_N b).

(** One big-endian unsigned 16-bit field ([>H]). *)
Definition pack_H (x : Z) : result (list byte) :=
  if (0 <=? x) && (x <=? 65535)
  then Ok [byte_of_Z (Z.shiftr x 8); byte_of_Z (Z.land x 255)]
  else Raise StructError.

(** [struct.pack('>HHHH', a, b, c, d)]. *)
Definition struct_pack_HHHH (a b c d : Z) : result (list byte) :=
  match pack_H a, pack_H b, pack_H c, pack_H d with
  | Ok ba, Ok bb, Ok bc, Ok bd => Ok (ba ++ bb ++ bc ++ bd)
  | _, _, _, _ => Raise StructError
  end.

(** [struct.unpack('>H', bs)[0]]: exactly two bytes are required. *)
Definition struct_unpack_H (bs : list byte) : result Z :=
  match bs with
  | [b1; b2] => Ok (Z.lor (Z.shiftl (Z_of_byte b1) 8) (Z_of_byte b2))
  | _ => Raise StructError
  end.

(** The slice [bs[i:j]]. *)
Definition slice (bs : list byte) (i j : nat) : list byte :=
  firstn (j - i) (skipn i bs).

(** ** The CAN bus and the rest of the world *)

(** [can.Message]. *)
Record Message : Type := {
  arbitration_id : Z;
  data : list byte;
  is_extended_id : bool;
  dlc : Z;
  is_error_frame : bool
}.

(** What one call of [bus.recv] meets: a frame, nothing within the timeout,
    or a failure of the interface. *)
Inductive rx_event : Type :=
| RxFrame (m : Message)
| RxNone
| RxFault (e : exn).

(** One line printed by the retrying helpers of [findangles.py]. *)
Inductive operation : Type := OpRead | OpWrite.

Inductive line : Type :=
| ErrorLine (op : operation) (attempt : nat) (motor_id : Z) (param_name : string) (e : exn)
| FailedLine (op : operation) (motor_id : Z) (param_name : string) (retries : nat).

Record World : Type := {
  rx_script : list rx_event;          (* what the successive bus.recv calls meet *)
  tx_script : list (option exn);      (* whether the successive bus.send calls fail *)
  sleep_script : list (option exn);   (* whether the successive time.sleep calls are interrupted *)
  clock : list float;                 (* the successive readings of time.time() *)
  client_script : list (result float);(* outcomes of the successive robstride client calls *)
  tx_log : list Message;              (* frames the bus accepted, oldest first *)
  recv_log : list Q;                  (* the timeout of every bus.recv call, oldest first *)
  stdout : list line;                 (* lines printed, oldest first *)
  bus_open : bool;                    (* false once bus.shutdown() has run *)
  signals : list (option exn)         (* whether an asynchronous exception (Ctrl+C) is
                                         delivered at the successive interruption points *)
}.

Definition set_rx (w : World) (rx : list rx_event) (t : Q) : World :=
  {| rx_script := rx; tx_script := tx_script w; sleep_script := sleep_script w;
     clock := clock w; client_script := client_script w; tx_log := tx_log w;
     recv_log := recv_log w ++ [t]; stdout := stdout w; bus_open := bus_open w;
     signals := signals w |}.

Definition set_tx (w : World) (ts : list (option exn)) (log : list Message) : World :=
  {| rx_script := rx_script w; tx_script := ts; sleep_script := sleep_script w;
     clock := clock w; client_script := client_script w; tx_log := log;
     recv_log := recv_log w; stdout := stdout w; bus_open := bus_open w;
     signals := signals w |}.

Definition set_sleep (w : World) (ss : list (option exn)) : World :=
  {| rx_script := rx_script w; tx_script := tx_script w; sleep_script := ss;
     clock := clock w; client_script := client_script w; tx_log := tx_log w;
     recv_log := recv_log w; stdout := stdout w; bus_open := bus_open w;
     signals := signals w |}.

Definition set_clock (w : World) (c : list float) : World :=
  {| rx_script := rx_script w; tx_script := tx_script w; sleep_script := sleep_script w;
     clock := c; client_script := client_script w; tx_log := tx_log w;
     recv_log := recv_log w; stdout := stdout w; bus_open := bus_open w;
     signals := signals w |}.

Definition set_client (w : World) (cs : list (result float)) : World :=
  {| rx_script := rx_script w; tx_script := tx_script w; sleep_script := sleep_script w;
     clock := clock w; client_script := cs; tx_log := tx_log w;
     recv_log := recv_log w; stdout := stdout w; bus_open := bus_open w;
     signals := signals w |}.

Definition set_stdout (w : World) (out : list line) : World :=
  {| rx_script := rx_script w; tx_script := tx_script w; sleep_script := sleep_script w;
     clock := clock w; client_script := client_script w; tx_log := tx_log w;
     recv_log := recv_log w; stdout := out; bus_open := bus_open w;
     signals := signals w |}.

Definition set_closed (w : World) : World :=
  {| rx_script := rx_script w; tx_script := tx_script w; sleep_script := sleep_script w;
     clock := clock w; client_script := client_script w; tx_log := tx_log w;
     recv_log := recv_log w; stdout := stdout w; bus_open := false;
     signals := signals w |}.

Definition set_signals (w : World) (sg : list (option exn)) : World :=
  {| rx_script := rx_script w; tx_script := tx_script w; sleep_script := sleep_script w;
     clock := clock w; client_script := client_script w; tx_log := tx_log w;
     recv_log := recv_log w; stdout := stdout w; bus_open := bus_open w;
     signals := sg |}.

(** [bus.recv(timeout=t)]. *)
Definition bus_recv (t : Q) : M World (option Message) :=
  fun w =>
    match rx_script w with
    | [] => (Ok None, set_rx w [] t)
    | RxFrame m :: rx => (Ok (Some m), set_rx w rx t)
    | RxNone :: rx => (Ok None, set_rx w rx t)
    | RxFault e :: rx => (Raise e, set_rx w rx t)
    end.

(** [bus.send(msg)]: a frame that the bus refuses is not logged. *)
Definition bus_send (msg : Message) : M World unit :=
  fun w =>
    match tx_script w with
    | Some e :: ts => (Raise e, set_tx w ts (tx_log w))
    | None :: ts => (Ok tt, set_tx w ts (tx_log w ++ [msg]))
    | [] => (Ok tt, set_tx w [] (tx_log w ++ [msg]))
    end.

(** [bus.shutdown()]. *)
Definition bus_shutdown : M World unit := modify set_closed.

(** [time.sleep(d)]: returns, or is interrupted. *)
Definition time_sleep (d : float) : M World unit :=
  fun w =>
    match sleep_script w with
    | Some e :: ss => (Raise e, set_sleep w ss)
    | None :: ss => (Ok tt, set_sleep w ss)
    | [] => (Ok tt, w)
    end.

(** An interruption point: between two statements the interpreter runs the
    pending signal handlers, and the handler of SIGINT raises
    [KeyboardInterrupt] there. *)
Definition checkpoint : M World unit :=
  fun w =>
    match signals w with
    | Some e :: sg => (Raise e, set_signals w sg)
    | None :: sg => (Ok tt, set_signals w sg)
    | [] => (Ok tt, w)
    end.

(** [time.time()]. *)
Definition time_time : M World float :=
  fun w =>
    match clock w with
    | t :: c => (Ok t, set_clock w c)
    | [] => (Ok 0%float, w)
    end.

(** [print(...)]. *)
Definition print (l : line) : M World unit :=
  modify (fun w => set_stdout w (stdout w ++ [l])).

(** The robstride client is not part of the repository: each call takes the
    next scripted outcome; with none left the motor does not answer. *)
Definition client_call : M World float :=
  fun w =>
    match client_script w with
    | r :: cs => (r, set_client w cs)
    | [] => (Raise ClientError, w)
    end.

Definition client_read_param (motor_id : Z) (param_name : string) : M World float :=
  client_call.

Definition client_write_param (motor_id : Z) (param_name : string) (value : float) : M World unit :=
  _ <- client_call ;; ret tt.

(** ** MotorRegistry and FrameCodec ([fast.py], lines 9-62) *)

Definition HOST_ID : Z := 0xFD.
Definition MUX_ENABLE : Z := 0x03.
Definition MUX_CONTROL : Z := 0x01.
Definition MUX_DISABLE : Z := 0x04.

(** One entry of [MOTOR_TYPE_PARAMS]: a dictionary with a fixed set of keys. *)
Record Params : Type := {
  name : string;
  P_MIN : float; P_MAX : float;
  V_MIN : float; V_MAX : float;
  T_MIN : float; T_MAX : float;
  KP_MIN : float; KP_MAX : float;
  KD_MIN : float; KD_MAX : float
}.

Definition O2 : Params :=
  {| name := "Robstride O2";
     P_MIN := -12.57; P_MAX := 12.57; V_MIN := -44.0; V_MAX := 44.0;
     T_MIN := -17.0; T_MAX := 17.0; KP_MIN := 0.0; KP_MAX := 500.0;
     KD_MIN := 0.0; KD_MAX := 5.0 |}.

Definition O3 : Params :=
  {| name := "Robstride O3";
     P_MIN := -12.57; P_MAX := 12.57; V_MIN := -20.0; V_MAX := 20.0;
     T_MIN := -60.0; T_MAX := 60.0; KP_MIN := 0.0; KP_MAX := 5000.0;
     KD_MIN := 0.0; KD_MAX := 100.0 |}.

Definition O5 : Params :=
  {| name := "Robstride O5";
     P_MIN := -12.57; P_MAX := 12.57; V_MIN := -50.0; V_MAX := 50.0;
     T_MIN := -5.5; T_MAX := 5.5; KP_MIN := 0.0; KP_MAX := 500.0;
     KD_MIN := 0.0; KD_MAX := 5.0 |}.

Definition MOTOR_TYPE_PARAMS : list (string * Params) :=
  [("O2", O2); ("O3", O3); ("O5", O5)]%string.

Definition MOTOR_ID_TO_TYPE_MAP : list (Z * string) :=
  [(19, "O3"); (18, "O3"); (16, "O3"); (17, "O3");
   (2, "O2"); (5, "O5"); (127, "O2"); (1, "O2")]%string.

(** [d.get(k)] on a dictionary kept as its list of items. *)
Fixpoint dict_get {K V : Type} (eqb : K -> K -> bool) (d : list (K * V)) (k : K) : option V :=
  match d with
  | [] => None
  | (k', v) :: d' => if eqb k' k then Some v else dict_get eqb d' k
  end.

(** The five closed ranges of a profile, in the order position, velocity,
    torque, position gain, velocity gain. *)
Definition ranges (p : Params) : list (float * float) :=
  [(P_MIN p, P_MAX p); (V_MIN p, V_MAX p); (T_MIN p, T_MAX p);
   (KP_MIN p, KP_MAX p); (KD_MIN p, KD_MAX p)].

(** A range is well formed when both ends are finite and [min < max]. *)
Definition range_ok (r : float * float) : bool :=
  is_finite (fst r) && is_finite (snd r) && (fst r <? snd r)%float.

Definition params_ok (p : Params) : bool := forallb range_ok (ranges p).

(** [can.Message(arbitration_id=..., is_extended_id=True, dlc=8)]: no payload. *)
Definition command_frame (mux motor_id : Z) : Message :=
  {| arbitration_id := Z.lor (Z.lor (Z.shiftl mux 24) (Z.shiftl HOST_ID 8)) motor_id;
     data := []; is_extended_id := true; dlc := 8; is_error_frame := false |}.

Definition send_control_command (motor_id : Z) (pos vel kp kd torque : float)
  (params : Params) : M World unit :=
  angle_u16 <- of_result (scale_value_to_u16 pos (P_MIN params) (P_MAX params)) ;;
  vel_u16 <- of_result (scale_value_to_u16 vel (V_MIN params) (V_MAX params)) ;;
  kp_u16 <- of_result (scale_value_to_u16 kp (KP_MIN params) (KP_MAX params)) ;;
  kd_u16 <- of_result (scale_value_to_u16 kd (KD_MIN params) (KD_MAX params)) ;;
  torque_u16 <- of_result (scale_value_to_u16 torque (T_MIN params) (T_MAX params)) ;;
  let mux_part := Z.shiftl (Z.land MUX_CONTROL 0xFF) 24 in
  let torque_part := Z.shiftl (Z.land torque_u16 0xFFFF) 8 in
  let id_part := Z.land motor_id 0xFF in
  let arbitration_id := Z.lor (Z.lor mux_part torque_part) id_part in
  data <- of_result (struct_pack_HHHH angle_u16 vel_u16 kp_u16 kd_u16) ;;
  bus_send {| arbitration_id := arbitration_id; data := data;
              is_extended_id := true; dlc := 8; is_error_frame := false |}.

(** Every range of the profiles of [MOTOR_TYPE_PARAMS]. *)
Definition shipped_ranges : list (float * float) :=
  flat_map ranges (map snd MOTOR_TYPE_PARAMS).

(** A profile whose position range is degenerate: a dictionary literal like
    the others, with [P_MAX] equal to [P_MIN]. *)
Definition degenerate_profile : Params :=
  {| name := "degenerate";
     P_MIN := -12.57; P_MAX := -12.57; V_MIN := -44.0; V_MAX := 44.0;
     T_MIN := -17.0; T_MAX := 17.0; KP_MIN := 0.0; KP_MAX := 500.0;
     KD_MIN := 0.0; KD_MAX := 5.0 |}.

(** A profile whose velocity-gain range is degenerate: [KD_MAX] equal to
    [KD_MIN]. *)
Definition degenerate_gain_profile : Params :=
  {| name := "degenerate gain";
     P_MIN := -12.57; P_MAX := 12.57; V_MIN := -44.0; V_MAX := 44.0;
     T_MIN := -17.0; T_MAX := 17.0; KP_MIN := 0.0; KP_MAX := 500.0;
     KD_MIN := 5.0; KD_MAX := 5.0 |}.

(** A freshly opened bus on which nothing arrives and nothing fails. *)
Definition idle_world : World :=
  {| rx_script := []; tx_script := []; sleep_script := []; clock := [];
     client_script := []; tx_log := []; recv_log := []; stdout := [];
     bus_open := true; signals := [] |}.

(** The exact rational value of a finite float (0 for the others). *)
Definition F2Q (x : float) : Q :=
  match Prim2SF x with
  | S754_finite s m e =>
      if (0 <=? e)%Z then inject_Z (cond_Zopp s (Zpos m) * 2 ^ e)
      else Qmake (cond_Zopp s (Zpos m)) (Pos.pow 2 (Z.to_pos (- e)))
  | _ => 0%Q
  end.


(** The bus accepts the next frame handed to [bus.send]. *)
Definition send_accepted (w : World) : bool :=
  match tx_script w with
  | Some _ :: _ => false
  | _ => true
  end.

(** The two bytes of a big-endian unsigned 16-bit field. *)
Definition be16 (x : Z) : list byte :=
  [byte_of_Z (Z.shiftr x 8); byte_of_Z (Z.land x 255)].


(** What the next [time.time()] returns, and the world after it. *)
Definition next_time (w : World) : float := hd 0%float (clock w).

Definition tick_clock (w : World) : World :=
  match clock w with
  | _ :: c => set_clock w c
  | [] => w
  end.

(** A feedback frame as a motor sends it. *)
Definition feedback_frame (id : Z) (payload : list byte) : Message :=
  {| arbitration_id := id; data := payload; is_extended_id := true;
     dlc := 8; is_error_frame := false |}.


(** No scripted receive fails. *)
Definition rx_faultless (w : World) : bool :=
  forallb (fun ev => match ev with RxFault _ => false | _ => true end) (rx_script w).

(** Every failure the bus and the client are scripted to raise is an
    instance of [Exception]. *)
Definition only_Exceptions (w : World) : bool :=
  forallb (fun ev => match ev with RxFault e => is_Exception e | _ => true end)
          (rx_script w)
  && forallb (fun r => match r with Raise e => is_Exception e | Ok _ => true end)
             (client_script w).

(** The parameter channel seen from a caller: a healthy bus, the outcomes
    the client still has in store, and what has been printed. *)
Definition channel (w : World) (cs : list (result float)) (out : list line) : Prop :=
  rx_faultless w = true /\ client_script w = cs /\ stdout w = out.


(** The frames queued ahead of the first receive that returns nothing. *)
Fixpoint leading_frames (rx : list rx_event) : nat :=
  match rx with
  | RxFrame _ :: rx' => S (leading_frames rx')
  | _ => O
  end.

(** What is left of the receive script once a flush has run. *)
Fixpoint drain (rx : list rx_event) : list rx_event :=
  match rx with
  | RxFrame _ :: rx' => drain rx'
  | _ :: rx' => rx'
  | [] => []
  end.

(** A bus with one stale frame queued and a motor that answers the third
    request only. *)
Definition flaky_world : World :=
  {| rx_script := [RxFrame (feedback_frame 0x02000100 []); RxNone];
     tx_script := []; sleep_script := []; clock := [];
     client_script := [Raise ClientError; Raise ClientError; Ok 3.5%float];
     tx_log := []; recv_log := []; stdout := []; bus_open := true; signals := [] |}.

(** A motor that never answers. *)
Definition silent_world : World :=
  {| rx_script := []; tx_script := []; sleep_script := []; clock := [];
     client_script := [Raise ClientError; Raise ClientError; Raise ClientError];
     tx_log := []; recv_log := []; stdout := []; bus_open := true; signals := [] |}.


(** ** [fast.py]: feedback parser and control loop *)
Module Fast.

Definition MOTOR_ID : Z := 1.
Definition CONTROL_FREQ : float := 1000.0.
Definition DT : float := (1.0 / CONTROL_FREQ)%float.
Definition SINE_AMPLITUDE : float := 1.0.
Definition SINE_FREQUENCY : float := 1.0.
Definition KP_GAIN : float := 20.0.
Definition KD_GAIN : float := 1.0.
Definition pi : float := 0x1.921fb54442d18p+1.

(** The global [current_motor_state]. *)
Record MotorState : Type := {
  pos : float;
  vel : float;
  last_update : float
}.

(** The global [history]: three lists that grow together. *)
Record History : Type := {
  h_time : list float;
  h_target : list float;
  h_actual : list float
}.

Record State : Type := {
  world : World;
  current_motor_state : MotorState;
  history : History
}.

Definition init (w : World) : State :=
  {| world := w;
     current_motor_state := {| pos := 0.0; vel := 0.0; last_update := 0.0 |};
     history := {| h_time := []; h_target := []; h_actual := [] |} |}.

Definition lift {A : Type} (c : M World A) : M State A :=
  fun s =>
    match c (world s) with
    | (r, w') =>
        (r, {| world := w'; current_motor_state := current_motor_state s;
               history := history s |})
    end.

Definition set_state (f : MotorState -> MotorState) : M State unit :=
  modify (fun s => {| world := world s;
                      current_motor_state := f (current_motor_state s);
                      history := history s |}).

(** The body of the [try] of [read_feedback], lines 77-84.  The operator
    is told to press Ctrl+C, so the body has its interruption points: on
    entry (an interrupt during lines 77-80, before anything is assigned),
    between the assignments of lines 82 and 83, and between line 83 and the
    assignment of line 84 (an interrupt during [time.time()] included). *)
Definition update_from (params : Params) (msg : Message) : M State unit :=
  lift checkpoint ;;
  p_raw <- of_result (struct_unpack_H (slice (data msg) 0 2)) ;;
  v_raw <- of_result (struct_unpack_H (slice (data msg) 2 4)) ;;
  let pos_rad := unscale_u16_to_float p_raw (P_MIN params) (P_MAX params) in
  let vel_rad := unscale_u16_to_float v_raw (V_MIN params) (V_MAX params) in
  set_state (fun st => {| pos := pos_rad; vel := vel st; last_update := last_update st |}) ;;
  lift checkpoint ;;
  set_state (fun st => {| pos := pos st; vel := vel_rad; last_update := last_update st |}) ;;
  lift checkpoint ;;
  now <- lift time_time ;;
  set_state (fun st => {| pos := pos st; vel := vel st; last_update := now |}).

(** The identity carried by a frame, lines 71-73: bits 8-15 of the
    arbitration id, or the low byte when those do not name this motor. *)
Definition extract_motor_id (msg : Message) : Z :=
  let extracted_motor_id := Z.shiftr (Z.land (arbitration_id msg) 0xFF00) 8 in
  if negb (extracted_motor_id =? MOTOR_ID)
  then Z.land (arbitration_id msg) 0xFF
  else extracted_motor_id.

(** What one turn of the loop of [read_feedback] does with a received
    frame, lines 68-85; the bare [except: pass] swallows every exception,
    [KeyboardInterrupt] included. *)
Definition handle_frame (params : Params) (msg : Message) : M State unit :=
  if is_error_frame msg then ret tt
  else if extract_motor_id msg =? MOTOR_ID
       then try_except (fun _ => true) (update_from params msg) (fun _ => ret tt)
       else ret tt.

Fixpoint read_feedback_loop (fuel : nat) (params : Params) : M State unit :=
  match fuel with
  | O => ret tt
  | S fuel' =>
      msg <- lift (bus_recv 0) ;;
      match msg with
      | None => ret tt
      | Some m => handle_frame params m ;; read_feedback_loop fuel' params
      end
  end.

(** [read_feedback(bus, params)]: every turn consumes one receive event, so
    the number of events left bounds the number of turns. *)
Definition read_feedback (params : Params) : M State unit :=
  fun s => read_feedback_loop (S (List.length (rx_script (world s)))) params s.

Definition record (elapsed_total target_pos : float) : M State unit :=
  modify (fun s =>
    {| world := world s;
       current_motor_state := current_motor_state s;
       history :=
         {| h_time := h_time (history s) ++ [elapsed_total];
            h_target := h_target (history s) ++ [target_pos];
            h_actual := h_actual (history s) ++ [pos (current_motor_state s)] |} |}).

Section ControlLoop.

(** [math.sin] and [math.cos] are library functions. *)
Variables (py_sin py_cos : float -> float).

(** One turn of the [while True] of the main block, lines 106-136.  The
    statistics line is not modelled; its guard is, because [int] can raise. *)
Definition tick (params : Params) (start_time : float) : M State unit :=
  loop_start <- lift time_time ;;
  let elapsed_total := (loop_start - start_time)%float in
  read_feedback params ;;
  let target_pos :=
    (SINE_AMPLITUDE * py_sin (2 * pi * SINE_FREQUENCY * elapsed_total))%float in
  let target_vel :=
    ((SINE_AMPLITUDE * 2 * pi * SINE_FREQUENCY)
     * py_cos (2 * pi * SINE_FREQUENCY * elapsed_total))%float in
  lift (send_control_command MOTOR_ID target_pos target_vel KP_GAIN KD_GAIN 0.0 params) ;;
  record elapsed_total target_pos ;;
  _ <- of_result (py_int (elapsed_total * CONTROL_FREQ)) ;;
  now <- lift time_time ;;
  let process_duration := (now - loop_start)%float in
  let sleep_time := (DT - process_duration)%float in
  if (0 <? sleep_time)%float then lift (time_sleep sleep_time) else ret tt.

(** [while True: body]: the loop is left by an exception only; [None] when
    the fuel runs out with the loop still turning. *)
Fixpoint while_true (fuel : nat) (body : M State unit) (s : State) : option (exn * State) :=
  match fuel with
  | O => None
  | S fuel' =>
      match body s with
      | (Ok _, s') => while_true fuel' body s'
      | (Raise e, s') => Some (e, s')
      end
  end.

(** The [try] block of the main program, lines 97-136. *)
Definition try_block (params : Params) (fuel : nat) (s : State) : option (exn * State) :=
  match (lift (bus_send (command_frame MUX_ENABLE MOTOR_ID)) ;;
         lift (time_sleep 1) ;;
         lift time_time) s with
  | (Raise e, s') => Some (e, s')
  | (Ok start_time, s') => while_true fuel (tick params start_time) s'
  end.

(** The [finally] block, lines 143-146 (plotting left out). *)
Definition finally_block : M State unit :=
  lift (bus_send (command_frame MUX_DISABLE MOTOR_ID)) ;;
  lift (time_sleep 0.5) ;;
  lift bus_shutdown.

(** [except KeyboardInterrupt] and [except Exception] both only print. *)
Definition handled (e : exn) : bool :=
  match e with
  | KeyboardInterrupt => true
  | _ => is_Exception e
  end.

(** The main program on an open bus. *)
Definition main (fuel : nat) (w : World) : option (result unit * State) :=
  match dict_get Z.eqb MOTOR_ID_TO_TYPE_MAP MOTOR_ID with
  | None => Some (Raise KeyError, init w)
  | Some motor_type =>
      match dict_get String.eqb MOTOR_TYPE_PARAMS motor_type with
      | None => Some (Raise KeyError, init w)
      | Some params =>
          match try_block params fuel (init w) with
          | None => None
          | Some (e, s') =>
              Some (try_finally
                      (if handled e then ret tt else raise e)
                      finally_block s')
          end
      end
  end.

End ControlLoop.

End Fast.

(** The state after a feedback frame whose payload decoded. *)
Definition updated (params : Params) (p_raw v_raw : Z) (s : Fast.State) : Fast.State :=
  {| Fast.world := tick_clock (Fast.world s);
     Fast.current_motor_state :=
       {| Fast.pos := unscale_u16_to_float p_raw (P_MIN params) (P_MAX params);
          Fast.vel := unscale_u16_to_float v_raw (V_MIN params) (V_MAX params);
          Fast.last_update := next_time (Fast.world s) |};
     Fast.history := Fast.history s |}.

(** The communication type of a frame: bits 24 and up of its id. *)
Definition mux_of (m : Message) : Z := Z.shiftr (arbitration_id m) 24.

Definition is_disable (m : Message) : bool := mux_of m =? MUX_DISABLE.

(** How many disable frames the bus has accepted. *)
Definition disable_frames (log : list Message) : nat :=
  List.length (filter is_disable log).

(** Two worlds between which the bus was not shut down and no disable frame
    was sent. *)
Definition quiet (w w' : World) : Prop :=
  bus_open w' = bus_open w /\
  disable_frames (tx_log w') = disable_frames (tx_log w).

(** A computation that neither shuts the bus down nor sends a disable
    frame, whatever its outcome. *)
Definition preserves {A : Type} (c : M Fast.State A) : Prop :=
  forall s, quiet (Fast.world s) (Fast.world (snd (c s))).

(** The bus accepts the enable frame and then goes down: every later send
    is refused. *)
Definition bus_lost_mid_run : World :=
  {| rx_script := []; tx_script := [None; Some CanError; Some CanError];
     sleep_script := []; clock := []; client_script := [];
     tx_log := []; recv_log := []; stdout := []; bus_open := true; signals := [] |}.

(** The operator interrupts the start-up delay, and interrupts again during
    the settle delay of the [finally] block. *)
Definition interrupted_twice : World :=
  {| rx_script := []; tx_script := [];
     sleep_script := [Some KeyboardInterrupt; Some KeyboardInterrupt];
     clock := []; client_script := [];
     tx_log := []; recv_log := []; stdout := []; bus_open := true; signals := [] |}.

(** The operator interrupts the start-up delay once. *)
Definition interrupted_once : World :=
  {| rx_script := []; tx_script := [];
     sleep_script := [Some KeyboardInterrupt];
     clock := []; client_script := [];
     tx_log := []; recv_log := []; stdout := []; bus_open := true; signals := [] |}.


(** The frames queued ahead of the first receive that returns nothing. *)
Fixpoint leading_msgs (rx : list rx_event) : list Message :=
  match rx with
  | RxFrame m :: rx' => m :: leading_msgs rx'
  | _ => []
  end.

(** How the receive that ends a drain of the queue turns out. *)
Fixpoint drain_outcome (rx : list rx_event) : result unit :=
  match rx with
  | RxFrame _ :: rx' => drain_outcome rx'
  | RxFault e :: _ => Raise e
  | _ => Ok tt
  end.

(** A state with another receive script and receive log. *)
Definition with_rx (s : Fast.State) (rx : list rx_event) (log : list Q) : Fast.State :=
  {| Fast.world :=
       {| rx_script := rx; tx_script := tx_script (Fast.world s);
          sleep_script := sleep_script (Fast.world s); clock := clock (Fast.world s);
          client_script := client_script (Fast.world s); tx_log := tx_log (Fast.world s);
          recv_log := log; stdout := stdout (Fast.world s);
          bus_open := bus_open (Fast.world s); signals := signals (Fast.world s) |};
     Fast.current_motor_state := Fast.current_motor_state s;
     Fast.history := Fast.history s |}.

(** The frames [ms] handled one after the other, as the loop of
    [read_feedback] handles the frames it receives. *)
Definition process (params : Params) (ms : list Message) (s : Fast.State) : Fast.State :=
  fold_left (fun s m => snd (Fast.handle_frame params m s)) ms s.

(** A receive queue with an error frame, a frame of motor 3 and a feedback
    frame of motor 1, in this order. *)
Definition mixed_traffic : World :=
  {| rx_script :=
       [RxFrame {| arbitration_id := 0x02000100; data := [xff; xff; xff; xff];
                   is_extended_id := true; dlc := 8; is_error_frame := true |};
        RxFrame (feedback_frame 0x02000203 [x80; x00; x80; x00]);
        RxFrame (feedback_frame 0x02000001 [x80; x00; x80; x00]);
        RxNone];
     tx_script := []; sleep_script := []; clock := []; client_script := [];
     tx_log := []; recv_log := []; stdout := []; bus_open := true; signals := [] |}.

(** One feedback frame of motor 1 is queued, and the operator presses
    Ctrl+C while [read_feedback] handles it: the interrupt is delivered
    between the assignments of lines 82 and 83. *)
Definition interrupted_update : World :=
  {| rx_script := [RxFrame (feedback_frame 0x02000100 [xff; xff; xff; xff]); RxNone];
     tx_script := []; sleep_script := []; clock := [1.5%float]; client_script := [];
     tx_log := []; recv_log := []; stdout := []; bus_open := true;
     signals := [None; Some KeyboardInterrupt] |}.


(** The fields a receiver reads back from an arbitration id: the data area
    (bits 8-23) and the destination (bits 0-7); [mux_of] gives the
    communication type. *)
Definition id_data (m : Message) : Z := Z.land (Z.shiftr (arbitration_id m) 8) 0xFFFF.

Definition id_low (m : Message) : Z := Z.land (arbitration_id m) 0xFF.

(** A frame that [read_feedback] takes for feedback of this motor and can
    decode. *)
Definition effective (m : Message) : bool :=
  negb (is_error_frame m) && (Fast.extract_motor_id m =? Fast.MOTOR_ID)
  && (4 <=? List.length (data m))%nat.

(** A frame that is none of this motor's business: an error frame, or a
    frame whose identity matches in neither place. *)
Definition foreign (m : Message) : bool :=
  is_error_frame m || negb (Fast.extract_motor_id m =? Fast.MOTOR_ID).

(** A control frame of [fast.py]: communication type 1, addressed to
    [MOTOR_ID], with an 8-byte payload. *)
Definition is_control (m : Message) : bool :=
  (mux_of m =? MUX_CONTROL) && (id_low m =? Fast.MOTOR_ID)
  && (List.length (data m) =? 8)%nat.

(** Two states between which nothing was sent and nothing was recorded. *)
Definition same_out (s s' : Fast.State) : Prop :=
  tx_log (Fast.world s') = tx_log (Fast.world s) /\ Fast.history s' = Fast.history s.

(** A computation that sends nothing and records nothing, whatever its
    outcome. *)
Definition silent {A : Type} (c : M Fast.State A) : Prop :=
  forall s, same_out s (snd (c s)).

(** Two states between which the control frames [cs], and nothing else,
    were sent, one sample being recorded for each. *)
Definition ran (cs : list Message) (s s' : Fast.State) : Prop :=
  tx_log (Fast.world s') = tx_log (Fast.world s) ++ cs /\
  forallb is_control cs = true /\
  List.length (Fast.h_time (Fast.history s'))
  = (List.length (Fast.h_time (Fast.history s)) + List.length cs)%nat /\
  List.length (Fast.h_target (Fast.history s'))
  = (List.length (Fast.h_target (Fast.history s)) + List.length cs)%nat /\
  List.length (Fast.h_actual (Fast.history s'))
  = (List.length (Fast.h_actual (Fast.history s)) + List.length cs)%nat.

(** A computation that sends control frames only, and records one sample
    for each. *)
Definition runs {A : Type} (c : M Fast.State A) : Prop :=
  forall s, exists cs, ran cs s (snd (c s)).

(** The lines printed for the failed attempts [attempt + 1],
    [attempt + 2], ... of a retrying helper. *)
Fixpoint error_lines (op : operation) (attempt : nat) (motor_id : Z)
  (param_name : string) (es : list exn) : list line :=
  match es with
  | [] => []
  | e :: es' =>
      ErrorLine op (attempt + 1) motor_id param_name e
      :: error_lines op (S attempt) motor_id param_name es'
  end.

(** A receive queue with a stale frame of this motor, a newer one, a frame
    of motor 3 and a frame too short to decode. *)
Definition queued_world : World :=
  {| rx_script :=
       [RxFrame (feedback_frame 0x02000100 [x00; x00; x00; x00]);
        RxFrame (feedback_frame 0x02000100 [xff; xff; x80; x00; x00; x00; x00; x00]);
        RxFrame (feedback_frame 0x02000300 [x11; x11; x22; x22]);
        RxFrame (feedback_frame 0x02000100 [x01]);
        RxNone];
     tx_script := []; sleep_script := []; clock := []; client_script := [];
     tx_log := []; recv_log := []; stdout := []; bus_open := true; signals := [] |}.

(** A receive queue that holds traffic of motor 3 and an error frame only. *)
Definition foreign_traffic : World :=
  {| rx_script :=
       [RxFrame (feedback_frame 0x02000300 [x11; x11; x22; x22]);
        RxFrame {| arbitration_id := 0x02000100; data := [x00; x00; x00; x00];
                   is_extended_id := true; dlc := 8; is_error_frame := true |};
        RxNone];
     tx_script := []; sleep_script := []; clock := []; client_script := [];
     tx_log := []; recv_log := []; stdout := []; bus_open := true; signals := [] |}.

(** The bus accepts the enable frame and two control frames, and refuses
    the third. *)
Definition bus_lost_after_two : World :=
  {| rx_script := []; tx_script := [None; None; None; Some CanError];
     sleep_script := []; clock := []; client_script := [];
     tx_log := []; recv_log := []; stdout := []; bus_open := true; signals := [] |}.

(** Two worlds between which the frames [l], and nothing else, were sent,
    the bus staying as it was. *)
Definition sent (l : list Message) (w w' : World) : Prop :=
  tx_log w' = tx_log w ++ l /\ bus_open w' = bus_open w.

(** The control frame of [mit.py]: motor 20, position, velocity and torque
    at mid-scale, gains 60 of 500 and 4 of 5. *)
Definition mit_control_frame : Message :=
  {| arbitration_id := 0x017FFF14;
     data := [x7f; xff; x7f; xff; x1e; xb8; xcc; xcc];
     is_extended_id := true; dlc := 8; is_error_frame := false |}.


(** ** [mit.py]: the same codec and control frame *)
Module Mit.

Definition scale_value_to_u16 (value v_min v_max : float) : result Z :=
  let scaled := (65535.0 * (np_clip value v_min v_max - v_min) / (v_max - v_min))%float in
  py_int scaled.

Definition send_control_command (motor_id : Z) (pos vel kp kd torque : float)
  (params : Params) : M World unit :=
  angle_u16 <- of_result (scale_value_to_u16 pos (P_MIN params) (P_MAX params)) ;;
  vel_u16 <- of_result (scale_value_to_u16 vel (V_MIN params) (V_MAX params)) ;;
  kp_u16 <- of_result (scale_value_to_u16 kp (KP_MIN params) (KP_MAX params)) ;;
  kd_u16 <- of_result (scale_value_to_u16 kd (KD_MIN params) (KD_MAX params)) ;;
  torque_u16 <- of_result (scale_value_to_u16 torque (T_MIN params) (T_MAX params)) ;;
  let mux_part := Z.shiftl (Z.land MUX_CONTROL 0xFF) 24 in
  let torque_part := Z.shiftl (Z.land torque_u16 0xFFFF) 8 in
  let id_part := Z.land motor_id 0xFF in
  let arbitration_id := Z.lor (Z.lor mux_part torque_part) id_part in
  data <- of_result (struct_pack_HHHH angle_u16 vel_u16 kp_u16 kd_u16) ;;
  let msg := {| arbitration_id := arbitration_id; data := data;
                is_extended_id := true; dlc := 8; is_error_frame := false |} in
  bus_send msg.

(** The configuration of [mit.py], lines 13-58.  [KD_GAIN] is the integer
    [4], which NumPy converts to a float when it clips. *)
Definition MOTOR_ID : Z := 20.
Definition TARGET_POSITION_RAD : float := 0.0.
Definition TARGET_VELOCITY_RAD_S : float := 0.0.
Definition TARGET_TORQUE_NM : float := 0.0.
Definition KP_GAIN : float := 60.0.
Definition KD_GAIN : float := 4.0.

Definition MOTOR_TYPE_PARAMS : list (string * Params) :=
  [("O2", O2); ("O3", O3)]%string.

Definition MOTOR_ID_TO_TYPE_MAP : list (Z * string) :=
  [(19, "O3"); (18, "O3"); (16, "O3"); (17, "O3"); (20, "O2")]%string.

(** The [try] block of the main program, lines 111-136, on an open bus. *)
Definition try_block (motor_params : Params) : M World unit :=
  bus_send (command_frame MUX_ENABLE MOTOR_ID) ;;
  time_sleep 1 ;;
  send_control_command MOTOR_ID TARGET_POSITION_RAD TARGET_VELOCITY_RAD_S
    KP_GAIN KD_GAIN TARGET_TORQUE_NM motor_params ;;
  time_sleep 30.

(** The [finally] block, lines 141-147; [bus] is set, the bus being open. *)
Definition finally_block : M World unit :=
  bus_send (command_frame MUX_DISABLE MOTOR_ID) ;;
  bus_shutdown.

(** The main program, lines 91-147, on an open bus; the console is left
    out.  [sys.exit(1)] raises [SystemExit]. *)
Definition main : M World unit :=
  match dict_get Z.eqb MOTOR_ID_TO_TYPE_MAP MOTOR_ID with
  | None => raise SystemExit
  | Some motor_type =>
      if String.eqb motor_type EmptyString then raise SystemExit
      else
        match dict_get String.eqb MOTOR_TYPE_PARAMS motor_type with
        | None => raise KeyError
        | Some motor_params =>
            try_finally
              (try_except is_Exception (try_block motor_params) (fun _ => ret tt))
              finally_block
        end
  end.

End Mit.

(** ** [findangles.py]: the retrying parameter channel *)
Module FindAngles.

Fixpoint flush_bus_loop (fuel : nat) : M World unit :=
  match fuel with
  | O => ret tt
  | S fuel' =>
      msg <- bus_recv (1 # 100) ;;
      match msg with
      | None => ret tt
      | Some _ => flush_bus_loop fuel'
      end
  end.

(** [flush_bus(bus)], lines 17-21: [bus.recv(timeout=0.01)] until it
    returns nothing. *)
Definition flush_bus : M World unit :=
  fun w => flush_bus_loop (S (List.length (rx_script w))) w.

(** The [for attempt in range(retries)] loop of [safe_write_param], from
    turn [attempt] on, with [remaining] turns to go. *)
Fixpoint safe_write_param_from (attempt remaining : nat) (motor_id : Z)
  (param_name : string) (value : float) (retries : nat) : M World unit :=
  match remaining with
  | O => print (FailedLine OpWrite motor_id param_name retries)
  | S remaining' =>
      try_except is_Exception
        (flush_bus ;; client_write_param motor_id param_name value)
        (fun e =>
           print (ErrorLine OpWrite (attempt + 1) motor_id param_name e) ;;
           safe_write_param_from (S attempt) remaining' motor_id param_name value retries)
  end.

Definition safe_write_param (motor_id : Z) (param_name : string) (value : float)
  (retries : nat) : M World unit :=
  safe_write_param_from 0 retries motor_id param_name value retries.

Fixpoint safe_read_param_from (attempt remaining : nat) (motor_id : Z)
  (param_name : string) (retries : nat) : M World (option float) :=
  match remaining with
  | O => print (FailedLine OpRead motor_id param_name retries) ;; ret None
  | S remaining' =>
      try_except is_Exception
        (flush_bus ;; v <- client_read_param motor_id param_name ;; ret (Some v))
        (fun e =>
           print (ErrorLine OpRead (attempt + 1) motor_id param_name e) ;;
           safe_read_param_from (S attempt) remaining' motor_id param_name retries)
  end.

(** [safe_read_param(client, bus, motor_id, param_name, retries=3)]; [None]
    is the "no value" sentinel. *)
Definition safe_read_param (motor_id : Z) (param_name : string) (retries : nat)
  : M World (option float) :=
  safe_read_param_from 0 retries motor_id param_name retries.

(** Python's [min(a, b)] and [max(a, b)]: the first argument, unless the
    second is strictly smaller (larger). *)
Definition py_min (a b : float) : float := if (b <? a)%float then b else a.

Definition py_max (a b : float) : float := if (a <? b)%float then b else a.

(** [(min_angles[motor_id], max_angles[motor_id])] as initialised, lines
    63-64. *)
Definition no_range : float * float := (infinity, neg_infinity).

(** Lines 90-97 for one motor: a pair of readings with a [None] is
    skipped, otherwise the angle widens the recorded range. *)
Definition track (r : float * float) (current_angle_raw velocity_rps : option float)
  : float * float :=
  match current_angle_raw, velocity_rps with
  | Some rad, Some _ => (py_min (fst r) rad, py_max (snd r) rad)
  | _, _ => r
  end.

(** The range of one motor after the successive pairs of readings. *)
Definition track_all (readings : list (option float * option float)) : float * float :=
  fold_left (fun r p => track r (fst p) (snd p)) readings no_range.

End FindAngles.

(** ** [findmotorid.py] *)
Module FindMotorId.

Fixpoint flush_bus_loop (fuel : nat) : M World unit :=
  match fuel with
  | O => ret tt
  | S fuel' =>
      msg <- bus_recv 0 ;;
      match msg with
      | None => ret tt
      | Some _ => flush_bus_loop fuel'
      end
  end.

(** [flush_bus(bus)], lines 8-13: [bus.recv(timeout=0)] until it returns
    nothing. *)
Definition flush_bus : M World unit :=
  fun w => flush_bus_loop (S (List.length (rx_script w))) w.

End FindMotorId.

(** ** [setpermzeros.py] *)
Module SetPermZeros.

(** [while bus.recv(timeout=0) is not None: pass], lines 16-19. *)
Fixpoint flush_bus_loop (fuel : nat) : M World unit :=
  match fuel with
  | O => ret tt
  | S fuel' =>
      msg <- bus_recv 0 ;;
      if match msg with Some _ => true | None => false end
      then flush_bus_loop fuel'
      else ret tt
  end.

Definition flush_bus : M World unit :=
  fun w => flush_bus_loop (S (List.length (rx_script w))) w.

End SetPermZeros.

(** ** The codec read over exact rationals

    The same two formulas with every operation exact; used to separate what
    the affine map does from what binary64 rounding adds. *)
Module Exact.

Definition np_clip (a a_min a_max : Q) : Q := Qmin a_max (Qmax a a_min).

(** Truncation toward zero. *)
Definition py_int (q : Q) : Z := Z.quot (Qnum q) (Zpos (Qden q)).

Definition scale_value_to_u16 (value v_min v_max : Q) : Z :=
  py_int (65535 * (np_clip value v_min v_max - v_min) / (v_max - v_min))%Q.

Definition unscale_u16_to_float (val_u16 : Z) (v_min v_max : Q) : Q :=
  ((inject_Z val_u16 / 65535) * (v_max - v_min) + v_min)%Q.

End Exact.

(** ** Binary64 data as real numbers: definitions used by the proofs *)
Section Binary64Definitions.
Local Open Scope R_scope.

Definition bpow (e : Z) : R := powerRZ 2 e.

(** [inb x e mrs]: the shift record [mrs] at exponent [e] locates the
    non-negative real [x]. *)
Definition inb (x : R) (e : Z) (mrs : shr_record) : Prop :=
  (0 <= shr_m mrs)%Z /\
  let t := x * bpow (- e) - IZR (shr_m mrs) in
  match shr_r mrs, shr_s mrs with
  | false, false => t = 0
  | false, true => 0 < t < / 2
  | true, false => t = / 2
  | true, true => / 2 < t < 1
  end.

Definition finish (sx : bool) (m2 e2 : Z) : spec_float :=
  match m2 with
  | Z0 => S754_zero sx
  | Zpos m => if (e2 <=? emax - prec)%Z then S754_finite sx m e2 else S754_infinity sx
  | Zneg _ => S754_nan
  end.

Definition delta : R := bpow (- prec).

Definition SF2R (f : spec_float) : R :=
  match f with
  | S754_finite s m e => IZR (cond_Zopp s (Zpos m)) * bpow e
  | _ => 0
  end.

Definition is_fin (f : spec_float) : bool :=
  match f with
  | S754_finite _ _ _ | S754_zero _ => true
  | _ => false
  end.

Definition is_valid (f : spec_float) : Prop := valid_binary f = true.

(** The constant [65535.0] as a binary64 datum. *)
Definition c65535 : spec_float := S754_finite false 9007061815787520 (-37).

Definition eta : R := bpow (emin - 1).

Definition B2R (x : float) : R := SF2R (Prim2SF x).

(** The value of a float on the extended real line, the infinities placed
    beyond every finite binary64 value (NaN has no place: 0). *)
Definition ordR (x : float) : R :=
  match Prim2SF x with
  | S754_infinity false => bpow 1024
  | S754_infinity true => (- bpow 1024)%R
  | f => SF2R f
  end.


End Binary64Definitions.

(** * Theory of binary64 rounding

    The Standard Library specifies the binary64 operations ([SFsub], [SFmul],
    [SFdiv]) as exact integer algorithms; this part relates their results to
    the exact real results. *)
Section Binary64.
Local Open Scope R_scope.

Lemma bpow_gt_0 e : 0 < bpow e.
Proof. apply powerRZ_lt. lra. Qed.

Lemma bpow_add e1 e2 : bpow (e1 + e2) = bpow e1 * bpow e2.
Proof. apply powerRZ_add. lra. Qed.

Lemma bpow_0 : bpow 0 = 1.
Proof. reflexivity. Qed.

Lemma bpow_1 : bpow 1 = 2.
Proof. unfold bpow. simpl. lra. Qed.

Lemma bpow_m1 : bpow (-1) = / 2.
Proof. unfold bpow. simpl. f_equal. lra. Qed.

Lemma bpow_succ e : bpow (e + 1) = 2 * bpow e.
Proof. rewrite bpow_add, bpow_1. lra. Qed.

Lemma bpow_pred e : bpow (e - 1) = bpow e / 2.
Proof. replace (e - 1)%Z with (e + (-1))%Z by lia. rewrite bpow_add, bpow_m1. lra. Qed.

Lemma bpow_opp e : bpow (- e) = / bpow e.
Proof.
  assert (H := bpow_add e (- e)). rewrite Z.add_opp_diag_r, bpow_0 in H.
  assert (Hp := bpow_gt_0 e). apply Rmult_eq_reg_l with (bpow e); [|lra].
  rewrite <- H. field. lra.
Qed.

Lemma bpow_ge_1 e : (0 <= e)%Z -> 1 <= bpow e.
Proof.
  intros H. pattern e. apply natlike_ind; [rewrite bpow_0; lra| |assumption].
  intros k Hk IH. unfold Z.succ. rewrite bpow_succ. lra.
Qed.

Lemma bpow_le e1 e2 : (e1 <= e2)%Z -> bpow e1 <= bpow e2.
Proof.
  intros H. replace e2 with (e1 + (e2 - e1))%Z by lia. rewrite bpow_add.
  assert (H1 : 1 <= bpow (e2 - e1)) by (apply bpow_ge_1; lia).
  assert (Hp := bpow_gt_0 e1). nra.
Qed.

Lemma bpow_lt e1 e2 : (e1 < e2)%Z -> bpow e1 < bpow e2.
Proof.
  intros H. replace e2 with (e1 + 1 + (e2 - e1 - 1))%Z by lia.
  rewrite bpow_add, bpow_succ.
  assert (H1 : 1 <= bpow (e2 - e1 - 1)) by (apply bpow_ge_1; lia).
  assert (Hp := bpow_gt_0 e1). nra.
Qed.

Lemma bpow_IZR n : (0 <= n)%Z -> bpow n = IZR (2 ^ n).
Proof.
  intros H. pattern n. apply natlike_ind; [reflexivity| |assumption].
  intros k Hk IH. unfold Z.succ. rewrite bpow_succ, IH, Z.pow_add_r by lia.
  rewrite mult_IZR. change (2 ^ 1)%Z with 2%Z. lra.
Qed.

Lemma digits2_size p : digits2_pos p = Pos.size p.
Proof. induction p; simpl; congruence. Qed.

Lemma digits2_bounds p :
  (2 ^ (Zpos (digits2_pos p) - 1) <= Zpos p < 2 ^ Zpos (digits2_pos p))%Z.
Proof.
  induction p as [p IH|p IH|]; simpl digits2_pos.
  - rewrite Pos2Z.inj_succ. replace (Z.succ (Zpos (digits2_pos p)) - 1)%Z with (Zpos (digits2_pos p) - 1 + 1)%Z by lia.
    rewrite Z.pow_succ_r by lia. rewrite Z.pow_add_r by lia. change (2 ^ 1)%Z with 2%Z. lia.
  - rewrite Pos2Z.inj_succ. replace (Z.succ (Zpos (digits2_pos p)) - 1)%Z with (Zpos (digits2_pos p) - 1 + 1)%Z by lia.
    rewrite Z.pow_succ_r by lia. rewrite Z.pow_add_r by lia. change (2 ^ 1)%Z with 2%Z. lia.
  - simpl. lia.
Qed.

Lemma digits2_bpow p :
  bpow (Zpos (digits2_pos p) - 1) <= IZR (Zpos p) < bpow (Zpos (digits2_pos p)).
Proof.
  destruct (digits2_bounds p) as [H1 H2].
  rewrite !bpow_IZR by lia. split; [apply IZR_le|apply IZR_lt]; assumption.
Qed.

Lemma inb_shr_1 x e mrs : inb x e mrs -> inb x (e + 1) (shr_1 mrs).
Proof.
  destruct mrs as [m r s]. unfold inb. cbn [shr_m shr_r shr_s].
  intros [Hm Ht].
  assert (E : bpow (- (e + 1)) = bpow (- e) / 2).
  { replace (- (e + 1))%Z with (- e - 1)%Z by lia. apply bpow_pred. }
  rewrite E. clear E. set (y := x * bpow (- e)) in *.
  replace (x * (bpow (- e) / 2)) with (y / 2) by (unfold y; lra).
  clearbody y.
  destruct m as [|p|p]; [| |lia].
  - cbn [shr_1 shr_m shr_r shr_s]. split; [lia|]. destruct r, s; cbn [orb] in *; lra.
  - destruct p as [p|p|]; cbn [shr_1 shr_m shr_r shr_s]; (split; [lia|]).
    + rewrite (Pos2Z.inj_xI p), plus_IZR, mult_IZR in Ht.
      destruct r, s; cbn [orb] in *; lra.
    + rewrite (Pos2Z.inj_xO p), mult_IZR in Ht.
      destruct r, s; cbn [orb] in *; lra.
    + destruct r, s; cbn [orb] in *; lra.
Qed.

Lemma inb_iter x n : forall e mrs, inb x e mrs -> inb x (e + Zpos n) (iter_pos shr_1 n mrs).
Proof.
  induction n as [n IH|n IH|]; intros e mrs H; simpl iter_pos.
  - replace (e + Zpos n~1)%Z with (e + 1 + Zpos n + Zpos n)%Z by lia.
    apply IH, IH, inb_shr_1, H.
  - replace (e + Zpos n~0)%Z with (e + Zpos n + Zpos n)%Z by lia.
    apply IH, IH, H.
  - apply inb_shr_1, H.
Qed.

Lemma inb_shr x e mrs n :
  inb x e mrs -> inb x (Z.max e (e + n)) (fst (shr mrs e n)) /\ snd (shr mrs e n) = Z.max e (e + n).
Proof.
  intros H. destruct n as [|p|p]; simpl.
  - rewrite Z.add_0_r, Z.max_id. auto.
  - rewrite Z.max_r by lia. split; [apply inb_iter, H|reflexivity].
  - rewrite Z.max_l by lia. auto.
Qed.

Lemma inb_exact m e : (0 <= m)%Z -> inb (IZR m * bpow e) e (shr_record_of_loc m loc_Exact).
Proof.
  intros H. split; [exact H|]. simpl.
  rewrite Rmult_assoc, <- bpow_add, Z.add_opp_diag_r, bpow_0. lra.
Qed.

Lemma round_nearest_even_spec x e mrs :
  inb x e mrs ->
  let mr := round_nearest_even (shr_m mrs) (loc_of_shr_record mrs) in
  (0 <= mr)%Z /\ - / 2 <= IZR mr - x * bpow (- e) <= / 2.
Proof.
  destruct mrs as [m r s]. unfold inb. simpl. intros [Hm Ht].
  destruct r, s; simpl.
  - split; [lia|]. rewrite plus_IZR. lra.
  - destruct (Z.even m); (split; [lia|]); rewrite ?plus_IZR; lra.
  - split; [lia|]. lra.
  - split; [lia|]. lra.
Qed.

Lemma inb_bounds x e mrs :
  inb x e mrs -> IZR (shr_m mrs) * bpow e <= x < (IZR (shr_m mrs) + 1) * bpow e.
Proof.
  destruct mrs as [m r s]. unfold inb. cbn [shr_m shr_r shr_s]. intros [_ H].
  assert (Hp := bpow_gt_0 e).
  assert (E : x = (x * bpow (- e)) * bpow e).
  { rewrite Rmult_assoc, <- bpow_add, Z.add_opp_diag_l, bpow_0. lra. }
  set (y := x * bpow (- e)) in *. clearbody y. rewrite E.
  destruct r, s; nra.
Qed.

Lemma binary_round_aux_spec sx mx ex lx x :
  inb x ex (shr_record_of_loc mx lx) ->
  exists mr e1 m2 e2,
    e1 = Z.max ex (fexp prec emax (Zdigits2 mx + ex)) /\
    (0 <= mr)%Z /\ - / 2 <= IZR mr - x * bpow (- e1) <= / 2 /\
    e2 = Z.max e1 (fexp prec emax (Zdigits2 mr + e1)) /\
    (0 <= m2)%Z /\
    IZR m2 * bpow e2 <= IZR mr * bpow e1 < (IZR m2 + 1) * bpow e2 /\
    (e2 = e1 -> m2 = mr) /\
    binary_round_aux prec emax sx mx ex lx = finish sx m2 e2.
Proof.
  intros H. unfold binary_round_aux, shr_fexp.
  destruct (inb_shr x ex _ (fexp prec emax (Zdigits2 mx + ex) - ex) H) as [H1 E1].
  destruct (shr (shr_record_of_loc mx lx) ex (fexp prec emax (Zdigits2 mx + ex) - ex)) as [mrs' e'].
  cbn [fst snd] in H1, E1.
  replace (ex + (fexp prec emax (Zdigits2 mx + ex) - ex))%Z
    with (fexp prec emax (Zdigits2 mx + ex)) in * by lia.
  set (e1 := Z.max ex (fexp prec emax (Zdigits2 mx + ex))) in *. subst e'.
  destruct (round_nearest_even_spec x e1 mrs' H1) as [Hr0 Hr].
  set (mr := round_nearest_even (shr_m mrs') (loc_of_shr_record mrs')) in *.
  assert (H2 := inb_exact mr e1 Hr0).
  destruct (inb_shr _ e1 _ (fexp prec emax (Zdigits2 mr + e1) - e1) H2) as [H3 E3].
  assert (Hsame : (Z.max e1 (e1 + (fexp prec emax (Zdigits2 mr + e1) - e1)) = e1 ->
                   shr_m (fst (shr (shr_record_of_loc mr loc_Exact) e1 (fexp prec emax (Zdigits2 mr + e1) - e1))) = mr)%Z).
  { intros Hm. destruct (fexp prec emax (Zdigits2 mr + e1) - e1)%Z eqn:En; try reflexivity. lia. }
  destruct (shr (shr_record_of_loc mr loc_Exact) e1 (fexp prec emax (Zdigits2 mr + e1) - e1)) as [mrs'' e''].
  cbn [fst snd] in H3, E3, Hsame.
  replace (e1 + (fexp prec emax (Zdigits2 mr + e1) - e1))%Z
    with (fexp prec emax (Zdigits2 mr + e1)) in * by lia.
  subst e''.
  exists mr, e1, (shr_m mrs''), (Z.max e1 (fexp prec emax (Zdigits2 mr + e1))).
  split; [reflexivity|]. split; [exact Hr0|]. split; [exact Hr|].
  split; [reflexivity|]. split; [apply H3|].
  split; [apply (inb_bounds _ _ _ H3)|]. split; [exact Hsame|reflexivity].
Qed.

Lemma fexp_ge_emin e : (emin <= fexp prec emax e)%Z.
Proof. unfold fexp. lia. Qed.

Lemma IZR_near_eq (a b : Z) : - / 2 <= IZR a - IZR b <= / 2 -> a = b.
Proof.
  intros H. rewrite <- minus_IZR in H.
  assert (H1 : (-1 < a - b < 1)%Z) by (split; apply lt_IZR; lra).
  lia.
Qed.

Lemma Zdigits2_bpow m : (0 < m)%Z -> bpow (Zdigits2 m - 1) <= IZR m.
Proof. destruct m as [|p|p]; try lia. intros _. apply digits2_bpow. Qed.

(** Second stage of [binary_round_aux]: renormalising a rounded mantissa
    loses at most one unit in the last place. *)
Lemma stage2_bound mr e1 m2 e2 :
  (0 <= mr)%Z -> (emin <= e1)%Z ->
  e2 = Z.max e1 (fexp prec emax (Zdigits2 mr + e1)) ->
  IZR m2 * bpow e2 <= IZR mr * bpow e1 < (IZR m2 + 1) * bpow e2 ->
  (e2 = e1 -> m2 = mr) ->
  IZR mr * bpow e1 * (1 - 2 * delta) <= IZR m2 * bpow e2 <= IZR mr * bpow e1.
Proof.
  intros Hmr He1 He2 Hb Hsame.
  assert (Hd : 0 < delta) by apply bpow_gt_0.
  assert (Hd1 : delta < / 4).
  { unfold delta. replace (/ 4) with (bpow (-2)).
    - apply bpow_lt. unfold prec. lia.
    - unfold bpow. simpl. lra. }
  assert (Hp1 := bpow_gt_0 e1).
  assert (Hmr' : 0 <= IZR mr) by (apply IZR_le; assumption).
  assert (Hv : 0 <= IZR mr * bpow e1) by (apply Rmult_le_pos; lra).
  split; [|apply Hb].
  destruct (Z.eq_dec e2 e1) as [E|E].
  - rewrite (Hsame E), E. nra.
  - assert (Hf : e2 = (Zdigits2 mr + e1 - prec)%Z) by (unfold fexp in He2; lia).
    assert (Hpos : (0 < mr)%Z).
    { destruct mr as [|p|p]; try lia. exfalso. simpl Zdigits2 in He2. unfold fexp in He2. unfold prec in *. lia. }
    assert (Hdg := Zdigits2_bpow mr Hpos).
    assert (E2 : bpow e2 = bpow (Zdigits2 mr - 1) * bpow e1 * (2 * delta)).
    { rewrite Hf. unfold delta. rewrite <- bpow_1, <- !bpow_add. f_equal. lia. }
    assert (Hp2 := bpow_gt_0 (Zdigits2 mr - 1)).
    assert (H2 : bpow e2 <= IZR mr * bpow e1 * (2 * delta)).
    { rewrite E2. apply Rmult_le_compat_r; [lra|]. apply Rmult_le_compat_r; lra. }
    nra.
Qed.

(** Rounding an exactly known positive value that is a multiple of [2^emin]
    (no underflow): the result, before the overflow test, is within a
    relative error of [3 * 2^-53]. *)
Lemma round_exact_rel sx mx ex :
  (0 < mx)%Z ->
  (exists k : Z, IZR mx * bpow ex * bpow (- emin) = IZR k) ->
  exists m2 e2,
    binary_round_aux prec emax sx mx ex loc_Exact = finish sx m2 e2 /\
    (0 < m2)%Z /\
    IZR mx * bpow ex * (1 - 3 * delta) <= IZR m2 * bpow e2 <= IZR mx * bpow ex * (1 + delta).
Proof.
  intros Hmx [k Hk].
  set (x := IZR mx * bpow ex) in *.
  assert (Hin : inb x ex (shr_record_of_loc mx loc_Exact)) by (apply inb_exact; lia).
  destruct (binary_round_aux_spec sx mx ex loc_Exact x Hin)
    as (mr & e1 & m2 & e2 & He1 & Hmr & Hr & He2 & Hm2 & Hb & Hsame & Heq).
  exists m2, e2. split; [exact Heq|].
  assert (Hd : 0 < delta) by apply bpow_gt_0.
  assert (Hd1 : delta < / 4).
  { unfold delta. replace (/ 4) with (bpow (-2)).
    - apply bpow_lt. unfold prec. lia.
    - unfold bpow. simpl. lra. }
  assert (Hx : 0 < x).
  { unfold x. apply Rmult_lt_0_compat; [apply IZR_lt; lia|apply bpow_gt_0]. }
  assert (Hemin : (emin <= e1)%Z) by (rewrite He1; pose proof (fexp_ge_emin (Zdigits2 mx + ex)); lia).
  assert (Hs2 := stage2_bound mr e1 m2 e2 Hmr Hemin He2 Hb Hsame).
  assert (Hp1 := bpow_gt_0 e1).
  (* first stage: |mr * 2^e1 - x| <= delta * x *)
  assert (H1 : - (delta * x) <= IZR mr * bpow e1 - x <= delta * x).
  { assert (Hcase : e1 = ex \/ e1 = (Zdigits2 mx + ex - prec)%Z \/ e1 = emin).
    { rewrite He1. unfold fexp. lia. }
    assert (Hexact : forall j : Z, x * bpow (- e1) = IZR j ->
                     - (delta * x) <= IZR mr * bpow e1 - x <= delta * x).
    { intros j Hj. rewrite Hj in Hr. apply IZR_near_eq in Hr. subst j.
      replace (IZR mr * bpow e1) with x.
      - nra.
      - rewrite <- Hj, Rmult_assoc, <- bpow_add, Z.add_opp_diag_l, bpow_0. lra. }
    destruct Hcase as [E|[E|E]].
    - apply (Hexact mx). rewrite E. unfold x.
      rewrite Rmult_assoc, <- bpow_add, Z.add_opp_diag_r, bpow_0. lra.
    - assert (Hdg := Zdigits2_bpow mx Hmx).
      assert (E1 : bpow e1 = bpow (Zdigits2 mx - 1) * bpow ex * (2 * delta)).
      { rewrite E. unfold delta. rewrite <- bpow_1, <- !bpow_add. f_equal. lia. }
      assert (Hp2 := bpow_gt_0 (Zdigits2 mx - 1)). assert (Hp3 := bpow_gt_0 ex).
      assert (H2 : bpow e1 <= x * (2 * delta)).
      { rewrite E1. unfold x. apply Rmult_le_compat_r; [lra|]. apply Rmult_le_compat_r; lra. }
      assert (H3 : IZR mr * bpow e1 - x = (IZR mr - x * bpow (- e1)) * bpow e1).
      { rewrite Rmult_minus_distr_r, Rmult_assoc, <- bpow_add, Z.add_opp_diag_l, bpow_0. lra. }
      rewrite H3. nra.
    - apply (Hexact k). rewrite E. exact Hk. }
  assert (Hmr1 : 0 <= IZR mr * bpow e1) by (apply Rmult_le_pos; [apply IZR_le; lia|lra]).
  assert (Hv : x * (1 - 3 * delta) <= IZR m2 * bpow e2 <= x * (1 + delta)) by nra.
  split; [|exact Hv].
  apply lt_IZR. assert (Hp2 := bpow_gt_0 e2).
  assert (0 < IZR m2 * bpow e2) by nra. nra.
Qed.

(** ** Real value of a binary64 datum *)

Lemma IZR_cond_Zopp s z : IZR (cond_Zopp s z) = if s then - IZR z else IZR z.
Proof. destruct s; simpl; [apply opp_IZR|reflexivity]. Qed.

Lemma valid_finite s m e :
  valid_binary (S754_finite s m e) = true ->
  (emin <= e <= emax - prec)%Z /\ (Zpos (digits2_pos m) <= prec)%Z /\
  (emin < e -> Zpos (digits2_pos m) = prec)%Z.
Proof.
  unfold SpecFloat.valid_binary, bounded, canonical_mantissa.
  rewrite andb_true_iff, Z.eqb_eq, Z.leb_le. unfold fexp. lia.
Qed.

Lemma iter_xO_spec d : forall m, Zpos (Pos.iter xO m d) = (Zpos m * 2 ^ Zpos d)%Z.
Proof.
  induction d as [|d IH] using Pos.peano_ind; intros m.
  - simpl. lia.
  - rewrite Pos.iter_succ, Pos2Z.inj_xO, IH, Pos2Z.inj_succ, Z.pow_succ_r by lia. lia.
Qed.

Lemma iter_xO_digits d : forall m,
  Zpos (digits2_pos (Pos.iter xO m d)) = (Zpos (digits2_pos m) + Zpos d)%Z.
Proof.
  induction d as [|d IH] using Pos.peano_ind; intros m.
  - simpl. lia.
  - rewrite Pos.iter_succ. simpl digits2_pos. rewrite Pos2Z.inj_succ, IH. lia.
Qed.

Lemma shl_align_spec m e e' :
  let '(mz, ez) := shl_align m e e' in
  IZR (Zpos mz) * bpow ez = IZR (Zpos m) * bpow e /\
  ez = Z.min e e' /\
  (Zpos (digits2_pos mz) + ez = Zpos (digits2_pos m) + e)%Z.
Proof.
  unfold shl_align. destruct (e' - e)%Z as [|d|d] eqn:E.
  - split; [reflexivity|]. split; lia.
  - split; [reflexivity|]. split; lia.
  - split; [|split].
    + rewrite iter_xO_spec, mult_IZR, <- bpow_IZR by lia.
      rewrite Rmult_assoc, <- bpow_add. do 2 f_equal. lia.
    + lia.
    + rewrite iter_xO_digits. lia.
Qed.

Lemma binary_round_rel sx m e :
  (exists k : Z, IZR (Zpos m) * bpow e * bpow (- emin) = IZR k) ->
  exists m2 e2,
    binary_round prec emax sx m e = finish sx m2 e2 /\
    (0 < m2)%Z /\
    IZR (Zpos m) * bpow e * (1 - 3 * delta) <= IZR m2 * bpow e2
      <= IZR (Zpos m) * bpow e * (1 + delta).
Proof.
  intros Hk. unfold binary_round.
  assert (H := shl_align_spec m e (fexp prec emax (Zpos (digits2_pos m) + e))).
  destruct (shl_align m e (fexp prec emax (Zpos (digits2_pos m) + e))) as [mz ez].
  destruct H as (Hv & _ & _). rewrite <- Hv in *.
  apply round_exact_rel; [lia|exact Hk].
Qed.

Lemma multiple_emin (m e : Z) :
  (emin <= e)%Z -> exists k : Z, IZR m * bpow e * bpow (- emin) = IZR k.
Proof.
  intros H. exists (m * 2 ^ (e - emin))%Z.
  rewrite mult_IZR, <- bpow_IZR by lia. rewrite Rmult_assoc, <- bpow_add.
  do 2 f_equal.
Qed.

Lemma SF2R_align s m e ez :
  (ez <= e)%Z ->
  IZR (cond_Zopp s (Zpos (fst (shl_align m e ez)))) * bpow ez = SF2R (S754_finite s m e).
Proof.
  intros H. assert (Hs := shl_align_spec m e ez).
  destruct (shl_align m e ez) as [mz ez']. destruct Hs as (Hv & He & _).
  cbn [fst]. replace ez' with ez in Hv by lia. simpl SF2R.
  rewrite !IZR_cond_Zopp. destruct s; lra.
Qed.

(** Subtraction of two finite data whose exact difference is positive. *)
Lemma SFsub_pos x y :
  is_fin x = true -> is_fin y = true -> is_valid x -> is_valid y ->
  0 < SF2R x - SF2R y ->
  exists m2 e2,
    SFsub prec emax x y = finish false m2 e2 /\ (0 < m2)%Z /\
    (SF2R x - SF2R y) * (1 - 3 * delta) <= IZR m2 * bpow e2
      <= (SF2R x - SF2R y) * (1 + delta).
Proof.
  intros Fx Fy Vx Vy Hpos.
  assert (Hd : 0 < delta) by apply bpow_gt_0.
  destruct x as [sx| | |sx mx ex]; try discriminate;
  destruct y as [sy| | |sy my ey]; try discriminate.
  - simpl in Hpos. lra.
  - (* 0 - y *)
    destruct (valid_finite _ _ _ Vy) as (He & _ & _).
    assert (Hp := bpow_gt_0 ey).
    assert (Hm : 0 < IZR (Zpos my) * bpow ey) by (apply Rmult_lt_0_compat; [apply IZR_lt; lia|lra]).
    cbn [SF2R] in *. rewrite IZR_cond_Zopp in *.
    destruct sy; [|lra].
    exists (Zpos my), ey. cbn [SFsub negb finish].
    replace (ey <=? emax - prec)%Z with true by (symmetry; apply Z.leb_le; lia).
    split; [reflexivity|]. split; [lia|]. nra.
  - (* x - 0 *)
    destruct (valid_finite _ _ _ Vx) as (He & _ & _).
    assert (Hp := bpow_gt_0 ex).
    assert (Hm : 0 < IZR (Zpos mx) * bpow ex) by (apply Rmult_lt_0_compat; [apply IZR_lt; lia|lra]).
    cbn [SF2R] in *. rewrite IZR_cond_Zopp in *.
    destruct sx; [lra|].
    exists (Zpos mx), ex. cbn [SFsub finish].
    replace (ex <=? emax - prec)%Z with true by (symmetry; apply Z.leb_le; lia).
    split; [reflexivity|]. split; [lia|]. nra.
  - destruct (valid_finite _ _ _ Vx) as (Hex & _ & _).
    destruct (valid_finite _ _ _ Vy) as (Hey & _ & _).
    cbn [SFsub]. set (ez := Z.min ex ey).
    set (zx := cond_Zopp sx (Zpos (fst (shl_align mx ex ez)))).
    set (zy := cond_Zopp sy (Zpos (fst (shl_align my ey ez)))).
    assert (Hx : IZR zx * bpow ez = SF2R (S754_finite sx mx ex)) by (apply SF2R_align; lia).
    assert (Hy : IZR zy * bpow ez = SF2R (S754_finite sy my ey)) by (apply SF2R_align; lia).
    assert (Hz : IZR (zx - zy) * bpow ez = SF2R (S754_finite sx mx ex) - SF2R (S754_finite sy my ey)).
    { rewrite minus_IZR. lra. }
    rewrite <- Hz in *. assert (Hp := bpow_gt_0 ez).
    assert (Hzpos : (0 < zx - zy)%Z) by (apply lt_IZR; nra).
    destruct (zx - zy)%Z as [|m|m] eqn:Em; try lia.
    cbn [binary_normalize]. apply binary_round_rel. apply multiple_emin. lia.
Qed.

Lemma SFsub_eq x y :
  is_fin x = true -> is_fin y = true -> SF2R x = SF2R y ->
  exists s, SFsub prec emax x y = S754_zero s.
Proof.
  intros Fx Fy E.
  destruct x as [sx| | |sx mx ex]; try discriminate;
  destruct y as [sy| | |sy my ey]; try discriminate.
  - destruct sx, sy; simpl; eauto.
  - exfalso. cbn [SF2R] in E. rewrite IZR_cond_Zopp in E.
    assert (Hp := bpow_gt_0 ey). assert (0 < IZR (Zpos my)) by (apply IZR_lt; lia).
    destruct sy; nra.
  - exfalso. cbn [SF2R] in E. rewrite IZR_cond_Zopp in E.
    assert (Hp := bpow_gt_0 ex). assert (0 < IZR (Zpos mx)) by (apply IZR_lt; lia).
    destruct sx; nra.
  - cbn [SFsub]. set (ez := Z.min ex ey).
    set (zx := cond_Zopp sx (Zpos (fst (shl_align mx ex ez)))).
    set (zy := cond_Zopp sy (Zpos (fst (shl_align my ey ez)))).
    assert (Hx : IZR zx * bpow ez = SF2R (S754_finite sx mx ex)) by (apply SF2R_align; lia).
    assert (Hy : IZR zy * bpow ez = SF2R (S754_finite sy my ey)) by (apply SF2R_align; lia).
    assert (Hp := bpow_gt_0 ez).
    assert (Hz : zx = zy). { apply eq_IZR. nra. }
    rewrite Hz, Z.sub_diag. simpl. eauto.
Qed.

Lemma SF2R_c65535 : SF2R c65535 = 65535.
Proof.
  unfold c65535, SF2R. cbn [cond_Zopp].
  replace 9007061815787520%Z with (65535 * 2 ^ 37)%Z by reflexivity.
  rewrite mult_IZR, <- bpow_IZR by lia. rewrite Rmult_assoc, <- bpow_add.
  simpl Z.add. rewrite bpow_0. lra.
Qed.

Lemma SFmul_65535_pos ma ea :
  is_valid (S754_finite false ma ea) ->
  exists m2 e2,
    SFmul prec emax c65535 (S754_finite false ma ea) = finish false m2 e2 /\ (0 < m2)%Z /\
    65535 * SF2R (S754_finite false ma ea) * (1 - 3 * delta) <= IZR m2 * bpow e2
      <= 65535 * SF2R (S754_finite false ma ea) * (1 + delta).
Proof.
  intros Va. destruct (valid_finite _ _ _ Va) as (He & _ & _).
  unfold c65535. cbn [SFmul xorb SF2R cond_Zopp].
  assert (E : IZR (Zpos (9007061815787520 * ma)) * bpow (-37 + ea)
              = 65535 * (IZR (Zpos ma) * bpow ea)).
  { rewrite Pos2Z.inj_mul, mult_IZR, bpow_add.
    assert (H := SF2R_c65535). unfold c65535, SF2R in H. cbn [cond_Zopp] in H. nra. }
  rewrite <- E. apply round_exact_rel; [lia|].
  rewrite E. exists (65535 * (Zpos ma * 2 ^ (ea - emin)))%Z.
  rewrite !mult_IZR, <- bpow_IZR by lia.
  rewrite !Rmult_assoc, <- bpow_add. do 3 f_equal; lia.
Qed.

(** Location of a quotient from its remainder. *)
Lemma new_location_spec nb k q :
  (0 <= q)%Z -> (0 <= k < nb)%Z ->
  forall x e, x * bpow (- e) = IZR q + IZR k / IZR nb ->
  inb x e (shr_record_of_loc q (new_location nb k)).
Proof.
  intros Hq Hk x e Hx.
  assert (Hnb : 0 < IZR nb) by (apply IZR_lt; lia).
  assert (Hk0 : 0 <= IZR k) by (apply IZR_le; lia).
  assert (Hk1 : IZR k < IZR nb) by (apply IZR_lt; lia).
  set (t := IZR k / IZR nb) in *.
  assert (Ht : t * IZR nb = IZR k) by (unfold t; field; lra).
  assert (Hcmp : forall c, (2 * k ?= nb)%Z = c ->
            match c with Lt => t < / 2 | Eq => t = / 2 | Gt => / 2 < t end).
  { intros c Hc. destruct c.
    - apply Z.compare_eq in Hc. apply (f_equal IZR) in Hc. rewrite mult_IZR in Hc. nra.
    - rewrite Z.compare_lt_iff in Hc. apply IZR_lt in Hc. rewrite mult_IZR in Hc. nra.
    - rewrite Z.compare_gt_iff in Hc. apply IZR_lt in Hc. rewrite mult_IZR in Hc. nra. }
  assert (Ht1 : t < 1) by nra.
  unfold new_location.
  destruct (Z.even nb) eqn:Ev.
  - unfold new_location_even. destruct (Z.eqb_spec k 0) as [E|E].
    + split; [exact Hq|]. simpl. subst k. nra.
    + assert (0 < t). { assert (0 < IZR k) by (apply IZR_lt; lia). nra. }
      specialize (Hcmp _ eq_refl). split; [destruct (2 * k ?= nb)%Z; exact Hq|].
      destruct (2 * k ?= nb)%Z; simpl; lra.
  - unfold new_location_odd. destruct (Z.eqb_spec k 0) as [E|E].
    + split; [exact Hq|]. simpl. subst k. nra.
    + assert (0 < t). { assert (0 < IZR k) by (apply IZR_lt; lia). nra. }
      assert (Hodd : (2 * k <> nb)%Z).
      { intros Hc. rewrite <- Hc, Z.even_mul in Ev. discriminate. }
      assert (Hc2 : (2 * k + 1 ?= nb)%Z = Gt -> (2 * k ?= nb)%Z = Gt).
      { rewrite !Z.compare_gt_iff. lia. }
      assert (Hc3 : (2 * k + 1 ?= nb)%Z <> Gt -> (2 * k ?= nb)%Z = Lt).
      { rewrite Z.compare_gt_iff, Z.compare_lt_iff. lia. }
      destruct (2 * k + 1 ?= nb)%Z eqn:Ec.
      * assert (Hl := Hcmp _ (Hc3 ltac:(discriminate))). split; [exact Hq|]. simpl. lra.
      * assert (Hl := Hcmp _ (Hc3 ltac:(discriminate))). split; [exact Hq|]. simpl. lra.
      * assert (Hl := Hcmp _ (Hc2 eq_refl)). split; [exact Hq|]. simpl. lra.
Qed.

Lemma SFdiv_core_spec my ey mb eb :
  let x := IZR (Zpos my) * bpow ey / (IZR (Zpos mb) * bpow eb) in
  let D := (Zpos (digits2_pos my) + ey - (Zpos (digits2_pos mb) + eb))%Z in
  let '(q, e', l) := SFdiv_core_binary prec emax (Zpos my) ey (Zpos mb) eb in
  (0 <= q)%Z /\ inb x e' (shr_record_of_loc q l) /\ (e' <= fexp prec emax D)%Z /\ bpow (D - 1) <= x.
Proof.
  intros x D. unfold SFdiv_core_binary. cbn [Zdigits2].
  fold D. set (e' := Z.min (fexp prec emax D) (ey - eb)).
  set (s := (ey - eb - e')%Z).
  assert (Hs : (0 <= s)%Z) by (unfold s, e'; lia).
  set (m' := match s with Zpos _ => Z.shiftl (Zpos my) s | Z0 => Zpos my | Zneg _ => 0%Z end).
  assert (Hm' : m' = (Zpos my * 2 ^ s)%Z).
  { unfold m'. destruct s as [|p|p] eqn:Es; try lia.
    apply Z.shiftl_mul_pow2. lia. }
  assert (Hdiv := Z_div_mod m' (Zpos mb) ltac:(lia)).
  destruct (Z.div_eucl m' (Zpos mb)) as [q r]. destruct Hdiv as [Hqr Hr].
  assert (Hpy := bpow_gt_0 ey). assert (Hpb := bpow_gt_0 eb).
  assert (Hmy : 0 < IZR (Zpos my)) by (apply IZR_lt; lia).
  assert (Hmb : 0 < IZR (Zpos mb)) by (apply IZR_lt; lia).
  assert (Hq : (0 <= q)%Z).
  { assert (0 <= m')%Z by (rewrite Hm'; apply Z.mul_nonneg_nonneg; [lia|apply Z.pow_nonneg; lia]). nia. }
  split; [exact Hq|]. split; [|split].
  - apply new_location_spec; [exact Hq|exact Hr|].
    assert (E : x * bpow (- e') = IZR m' / IZR (Zpos mb)).
    { unfold x. rewrite Hm', mult_IZR, <- bpow_IZR by lia.
      replace s with (ey + (- eb) + (- e'))%Z by (unfold s; lia).
      rewrite !bpow_add, (bpow_opp eb). field. split; lra. }
    rewrite E, Hqr, plus_IZR, mult_IZR. field. lra.
  - unfold e'. lia.
  - destruct (digits2_bpow my) as [H1 _]. destruct (digits2_bpow mb) as [_ H2].
    unfold x. replace (D - 1)%Z with ((Zpos (digits2_pos my) - 1) + ey + (- (Zpos (digits2_pos mb)) + (- eb)))%Z by (unfold D; lia).
    rewrite !bpow_add, (bpow_opp eb), (bpow_opp (Zpos (digits2_pos mb))).
    assert (Hp1 := bpow_gt_0 (Zpos (digits2_pos my) - 1)).
    assert (Hp2 := bpow_gt_0 (Zpos (digits2_pos mb))).
    apply Rle_trans with (IZR (Zpos my) * bpow ey * (/ bpow (Zpos (digits2_pos mb)) * / bpow eb)).
    + apply Rmult_le_compat_r.
      * apply Rmult_le_pos; left; apply Rinv_0_lt_compat; lra.
      * apply Rmult_le_compat_r; lra.
    + unfold Rdiv. rewrite Rinv_mult. apply Rmult_le_compat_l; [nra|].
      apply Rmult_le_compat_r; [left; apply Rinv_0_lt_compat; lra|].
      apply Rinv_le_contravar; lra.
Qed.

(** Division of two positive finite data. *)
Lemma SFdiv_pos my ey mb eb :
  let x := IZR (Zpos my) * bpow ey / (IZR (Zpos mb) * bpow eb) in
  exists m2 e2,
    SFdiv prec emax (S754_finite false my ey) (S754_finite false mb eb) = finish false m2 e2 /\
    (0 <= m2)%Z /\
    (x * (1 - delta) - eta) * (1 - 2 * delta) <= IZR m2 * bpow e2 <= x * (1 + delta) + eta.
Proof.
  intros x. cbn [SFdiv xorb].
  assert (Hc := SFdiv_core_spec my ey mb eb). fold x in Hc. cbv zeta in Hc.
  set (D := (Zpos (digits2_pos my) + ey - (Zpos (digits2_pos mb) + eb))%Z) in *.
  destruct (SFdiv_core_binary prec emax (Zpos my) ey (Zpos mb) eb) as [[q e'] l].
  destruct Hc as (Hq & Hin & He' & HD).
  destruct (binary_round_aux_spec false q e' l x Hin)
    as (mr & e1 & m2 & e2 & He1 & Hmr & Hr & He2 & Hm2 & Hb & Hsame & Heq).
  exists m2, e2. split; [exact Heq|]. split; [exact Hm2|].
  assert (Hd : 0 < delta) by apply bpow_gt_0.
  assert (Hd1 : delta < / 4).
  { unfold delta. replace (/ 4) with (bpow (-2)).
    - apply bpow_lt. unfold prec. lia.
    - unfold bpow. simpl. lra. }
  assert (Heta : 0 < eta) by apply bpow_gt_0.
  assert (Hx : 0 < x) by (assert (Hp := bpow_gt_0 (D - 1)); lra).
  assert (Hemin : (emin <= e1)%Z) by (rewrite He1; pose proof (fexp_ge_emin (Zdigits2 q + e')); lia).
  assert (Hs2 := stage2_bound mr e1 m2 e2 Hmr Hemin He2 Hb Hsame).
  assert (Hp1 := bpow_gt_0 e1).
  assert (Hbnd : bpow e1 <= 2 * delta * x \/ bpow e1 <= 2 * eta).
  { assert (E2 : 2 * eta = bpow emin).
    { unfold eta. rewrite bpow_pred. lra. }
    assert (Hcase : e1 = emin \/ (e1 = (Zdigits2 q + e' - prec)%Z /\ (e' < e1)%Z) \/ e1 = e').
    { rewrite He1. unfold fexp. lia. }
    destruct Hcase as [E|[[E El]|E]].
    - right. rewrite E2, E. lra.
    - left. assert (Hqpos : (0 < q)%Z).
      { destruct q as [|p|p]; try lia. simpl Zdigits2 in E. unfold prec in E. lia. }
      assert (Hdg := Zdigits2_bpow q Hqpos).
      destruct (inb_bounds _ _ _ Hin) as [Hlo _].
      replace (shr_m (shr_record_of_loc q l)) with q in Hlo by (destruct l as [|[| |]]; reflexivity).
      assert (Hpe := bpow_gt_0 e'). assert (Hpd := bpow_gt_0 (Zdigits2 q - 1)).
      assert (E1 : bpow e1 = bpow (Zdigits2 q - 1) * bpow e' * (2 * delta)).
      { rewrite E. unfold delta. rewrite <- bpow_1, <- !bpow_add. f_equal. lia. }
      rewrite E1.
      assert (bpow (Zdigits2 q - 1) * bpow e' <= x).
      { apply Rle_trans with (IZR q * bpow e'); [|exact Hlo]. apply Rmult_le_compat_r; lra. }
      nra.
    - assert (Hf : (e' <= emin)%Z \/ (e' <= D - prec)%Z) by (unfold fexp in He'; lia).
      destruct Hf as [Hf|Hf].
      + right. rewrite E2, E. apply bpow_le. exact Hf.
      + left. apply Rle_trans with (bpow (D - prec)); [rewrite E; apply bpow_le; exact Hf|].
        replace (D - prec)%Z with ((D - 1) + 1 + (- prec))%Z by lia.
        rewrite !bpow_add, bpow_1. fold delta. nra. }
  assert (H3 : IZR mr * bpow e1 - x = (IZR mr - x * bpow (- e1)) * bpow e1).
  { rewrite Rmult_minus_distr_r, Rmult_assoc, <- bpow_add, Z.add_opp_diag_l, bpow_0. lra. }
  assert (H4 : - (delta * x + eta) <= IZR mr * bpow e1 - x <= delta * x + eta).
  { rewrite H3. destruct Hbnd; nra. }
  assert (Hmr1 : 0 <= IZR mr * bpow e1) by (apply Rmult_le_pos; [apply IZR_le; lia|lra]).
  split; [|lra].
  apply Rle_trans with (IZR mr * bpow e1 * (1 - 2 * delta)); [|lra].
  apply Rmult_le_compat_r; lra.
Qed.

Lemma shiftl_floor m e :
  IZR (Z.shiftl (Zpos m) e) <= IZR (Zpos m) * bpow e < IZR (Z.shiftl (Zpos m) e) + 1.
Proof.
  destruct (Z_le_gt_dec 0 e) as [H|H].
  - rewrite Z.shiftl_mul_pow2, mult_IZR, <- bpow_IZR by lia. lra.
  - rewrite Z.shiftl_div_pow2 by lia.
    assert (Hp : (0 < 2 ^ (- e))%Z) by (apply Z.pow_pos_nonneg; lia).
    assert (Hd := Z.div_mod (Zpos m) (2 ^ (- e)) ltac:(lia)).
    assert (Hr := Z.mod_pos_bound (Zpos m) (2 ^ (- e)) Hp).
    set (q := (Zpos m / 2 ^ (- e))%Z) in *. set (r := (Zpos m mod 2 ^ (- e))%Z) in *.
    clearbody q r.
    assert (E : IZR (Zpos m) * bpow e = IZR q + IZR r * bpow e).
    { rewrite Hd at 1. rewrite plus_IZR, mult_IZR, <- bpow_IZR by lia.
      assert (Hb : bpow (- e) * bpow e = 1) by (rewrite <- bpow_add, Z.add_opp_diag_l; apply bpow_0).
      replace ((bpow (- e) * IZR q + IZR r) * bpow e)
        with ((bpow (- e) * bpow e) * IZR q + IZR r * bpow e) by ring.
      rewrite Hb. ring. }
    assert (Hr1 : 0 <= IZR r * bpow e < 1).
    { assert (Hb : bpow (- e) * bpow e = 1) by (rewrite <- bpow_add, Z.add_opp_diag_l; apply bpow_0).
      assert (Hpe := bpow_gt_0 e).
      assert (0 <= IZR r) by (apply IZR_le; lia).
      assert (IZR r < bpow (- e)) by (rewrite bpow_IZR by lia; apply IZR_lt; lia).
      split; nra. }
    lra.
Qed.

Lemma mag_lt s1 m1 e1 s2 m2 e2 :
  is_valid (S754_finite s1 m1 e1) -> is_valid (S754_finite s2 m2 e2) ->
  (e1 < e2)%Z -> IZR (Zpos m1) * bpow e1 < IZR (Zpos m2) * bpow e2.
Proof.
  intros V1 V2 H.
  destruct (valid_finite _ _ _ V1) as (He1 & Hd1 & _).
  destruct (valid_finite _ _ _ V2) as (He2 & _ & Hd2).
  specialize (Hd2 ltac:(lia)).
  destruct (digits2_bpow m1) as [_ H1]. destruct (digits2_bpow m2) as [H2 _].
  rewrite Hd2 in H2.
  assert (H3 : bpow (Zpos (digits2_pos m1)) <= bpow prec) by (apply bpow_le; lia).
  assert (H4 : bpow (prec + e1) <= bpow (prec - 1 + e2)) by (apply bpow_le; lia).
  rewrite !bpow_add in H4.
  assert (Hp1 := bpow_gt_0 e1). assert (Hp2 := bpow_gt_0 e2).
  assert (Hp3 := bpow_gt_0 (prec - 1)).
  apply Rlt_le_trans with (bpow prec * bpow e1); [nra|].
  apply Rle_trans with (bpow (prec - 1) * bpow e2); [lra|nra].
Qed.

Lemma SFcompare_fin x y :
  is_fin x = true -> is_fin y = true -> is_valid x -> is_valid y ->
  match SFcompare x y with
  | Some Lt => SF2R x < SF2R y
  | Some Eq => SF2R x = SF2R y
  | Some Gt => SF2R y < SF2R x
  | None => False
  end.
Proof.
  intros Fx Fy Vx Vy.
  destruct x as [sx| | |sx mx ex]; try discriminate;
  destruct y as [sy| | |sy my ey]; try discriminate.
  - simpl. reflexivity.
  - assert (Hp := bpow_gt_0 ey). assert (0 < IZR (Zpos my)) by (apply IZR_lt; lia).
    cbn [SFcompare SF2R]. rewrite IZR_cond_Zopp. destruct sy; nra.
  - assert (Hp := bpow_gt_0 ex). assert (0 < IZR (Zpos mx)) by (apply IZR_lt; lia).
    cbn [SFcompare SF2R]. rewrite IZR_cond_Zopp. destruct sx; nra.
  - assert (Hpx := bpow_gt_0 ex). assert (Hpy := bpow_gt_0 ey).
    assert (Hmx : 0 < IZR (Zpos mx)) by (apply IZR_lt; lia).
    assert (Hmy : 0 < IZR (Zpos my)) by (apply IZR_lt; lia).
    assert (Hxx : 0 < IZR (Zpos mx) * bpow ex) by nra.
    assert (Hyy : 0 < IZR (Zpos my) * bpow ey) by nra.
    assert (Hmag : match (ex ?= ey)%Z with
                   | Lt => IZR (Zpos mx) * bpow ex < IZR (Zpos my) * bpow ey
                   | Gt => IZR (Zpos my) * bpow ey < IZR (Zpos mx) * bpow ex
                   | Eq => match Pos.compare_cont Eq mx my with
                           | Lt => IZR (Zpos mx) * bpow ex < IZR (Zpos my) * bpow ey
                           | Gt => IZR (Zpos my) * bpow ey < IZR (Zpos mx) * bpow ex
                           | Eq => IZR (Zpos mx) * bpow ex = IZR (Zpos my) * bpow ey
                           end
                   end).
    { destruct (ex ?= ey)%Z eqn:Ec.
      - apply Z.compare_eq in Ec. subst ey. change (Pos.compare_cont Eq mx my) with (mx ?= my)%positive.
        destruct (mx ?= my)%positive eqn:Em.
        + apply Pos.compare_eq in Em. subst my. reflexivity.
        + rewrite Pos.compare_lt_iff in Em. assert (IZR (Zpos mx) < IZR (Zpos my)) by (apply IZR_lt; lia). nra.
        + rewrite Pos.compare_gt_iff in Em. assert (IZR (Zpos my) < IZR (Zpos mx)) by (apply IZR_lt; lia). nra.
      - rewrite Z.compare_lt_iff in Ec. apply (mag_lt sx _ _ sy); assumption.
      - rewrite Z.compare_gt_iff in Ec. apply (mag_lt sy _ _ sx); assumption. }
    cbn [SFcompare SF2R]. rewrite !IZR_cond_Zopp.
    destruct sx, sy; try lra.
    + destruct (ex ?= ey)%Z; [destruct (Pos.compare_cont Eq mx my)|..]; simpl; lra.
    + destruct (ex ?= ey)%Z; [destruct (Pos.compare_cont Eq mx my)|..]; simpl; lra.
Qed.

Lemma SFcompare_refl p : p <> S754_nan -> SFcompare p p = Some Eq.
Proof.
  destruct p as [s|s| |s m e]; intros H; try congruence.
  - reflexivity.
  - destruct s; reflexivity.
  - simpl. rewrite Z.compare_refl, Pos.compare_cont_refl. destruct s; reflexivity.
Qed.

Lemma is_nan_spec x : is_nan x = false -> Prim2SF x <> S754_nan.
Proof.
  unfold is_nan. rewrite FloatAxioms.eqb_spec. intros H E. rewrite E in H. discriminate.
Qed.

Lemma is_nan_true x : is_nan x = true -> Prim2SF x = S754_nan.
Proof.
  unfold is_nan. rewrite FloatAxioms.eqb_spec. unfold SFeqb. intros H.
  destruct (Prim2SF x) as [s|s| |s m e] eqn:E; try reflexivity; exfalso.
  - discriminate.
  - destruct s; discriminate.
  - rewrite (SFcompare_refl (S754_finite s m e)) in H; discriminate.
Qed.

Lemma Prim2SF_infinity : Prim2SF infinity = S754_infinity false.
Proof. reflexivity. Qed.

Lemma is_finite_spec x : is_finite x = true -> is_fin (Prim2SF x) = true.
Proof.
  unfold is_finite. rewrite negb_true_iff, orb_false_iff. intros [Hn Hi].
  apply is_nan_spec in Hn. unfold is_infinity in Hi.
  rewrite FloatAxioms.eqb_spec, abs_spec, Prim2SF_infinity in Hi.
  destruct (Prim2SF x) as [s|s| |s m e]; try reflexivity; try congruence.
  discriminate.
Qed.

Lemma is_fin_not_nan x : is_fin (Prim2SF x) = true -> is_nan x = false.
Proof.
  intros H. destruct (is_nan x) eqn:E; [|reflexivity].
  apply is_nan_true in E. rewrite E in H. discriminate.
Qed.

Lemma ltb_true_fin x y :
  is_fin (Prim2SF x) = true -> is_fin (Prim2SF y) = true ->
  (x <? y)%float = true -> B2R x < B2R y.
Proof.
  intros Fx Fy. rewrite FloatAxioms.ltb_spec. unfold SFltb.
  assert (H := SFcompare_fin _ _ Fx Fy (Prim2SF_valid x) (Prim2SF_valid y)).
  unfold B2R. destruct (SFcompare (Prim2SF x) (Prim2SF y)) as [[| |]|]; try discriminate.
  intros _. exact H.
Qed.

Lemma ltb_false_fin x y :
  is_fin (Prim2SF x) = true -> is_fin (Prim2SF y) = true ->
  (x <? y)%float = false -> B2R y <= B2R x.
Proof.
  intros Fx Fy. rewrite FloatAxioms.ltb_spec. unfold SFltb.
  assert (H := SFcompare_fin _ _ Fx Fy (Prim2SF_valid x) (Prim2SF_valid y)).
  unfold B2R. destruct (SFcompare (Prim2SF x) (Prim2SF y)) as [[| |]|]; try discriminate; intros _; lra.
Qed.

(** [np.clip] returns a finite value inside the range (for a non-NaN input
    and a finite range with [lo < hi]). *)
Lemma np_clip_in_range v lo hi :
  is_nan v = false -> is_finite lo = true -> is_finite hi = true ->
  (lo <? hi)%float = true ->
  is_fin (Prim2SF (np_clip v lo hi)) = true /\
  B2R lo <= B2R (np_clip v lo hi) <= B2R hi.
Proof.
  intros Hv Hlo Hhi Hlt.
  apply is_finite_spec in Hlo, Hhi.
  assert (Hlt' := ltb_true_fin _ _ Hlo Hhi Hlt).
  assert (Nlo := is_fin_not_nan _ Hlo). assert (Nhi := is_fin_not_nan _ Hhi).
  unfold np_clip, np_maximum. rewrite Hv, Nlo. cbn [orb].
  destruct (v <? lo)%float eqn:E1.
  - unfold np_minimum. rewrite Nhi, Nlo, Hlt. cbn [orb]. split; [exact Hlo|lra].
  - unfold np_minimum. rewrite Nhi, Hv. cbn [orb].
    destruct (v <? hi)%float eqn:E2.
    + assert (Fv : is_fin (Prim2SF v) = true).
      { apply is_nan_spec in Hv. rewrite FloatAxioms.ltb_spec in E1, E2. unfold SFltb in E1, E2.
        destruct (Prim2SF v) as [s|s| |s m e]; try reflexivity; try congruence.
        destruct s.
        - destruct (Prim2SF lo); discriminate.
        - destruct (Prim2SF hi) as [|[|]| |]; discriminate. }
      split; [exact Fv|]. split.
      * apply ltb_false_fin; assumption.
      * left. apply ltb_true_fin; assumption.
    + split; [exact Hhi|lra].
Qed.

Lemma delta_small : 0 < delta < / 1000000000.
Proof.
  unfold delta. split; [apply bpow_gt_0|].
  rewrite bpow_opp, (bpow_IZR prec) by (unfold prec; lia).
  change (2 ^ prec)%Z with 9007199254740992%Z. lra.
Qed.

Lemma eta_small : 0 < eta < / 4.
Proof.
  unfold eta. split; [apply bpow_gt_0|].
  replace (/ 4) with (bpow (-2)) by (unfold bpow; simpl; lra).
  apply bpow_lt. reflexivity.
Qed.

Lemma bpow_16 : bpow 16 = 65536.
Proof. rewrite bpow_IZR by lia. reflexivity. Qed.

Lemma finish_cases sx m2 e2 :
  (0 < m2)%Z ->
  (exists m, finish sx m2 e2 = S754_finite sx m e2 /\ Zpos m = m2) \/
  (finish sx m2 e2 = S754_infinity sx /\ (emax - prec < e2)%Z).
Proof.
  intros H. destruct m2 as [|m|m]; try lia. unfold finish.
  destruct (Z.leb_spec e2 (emax - prec)).
  - left. exists m. auto.
  - right. auto.
Qed.

Lemma div_le_bound y b K : 0 < b -> y <= K * b -> y / b <= K.
Proof.
  intros Hb H. unfold Rdiv. apply Rmult_le_reg_r with b; [exact Hb|].
  rewrite Rmult_assoc, Rinv_l by lra. lra.
Qed.

Lemma div_ge_bound y b K : 0 < b -> K * b <= y -> K <= y / b.
Proof.
  intros Hb H. unfold Rdiv. apply Rmult_le_reg_r with b; [exact Hb|].
  rewrite Rmult_assoc, Rinv_l by lra. lra.
Qed.

Lemma Prim2SF_65535 : Prim2SF 65535 = c65535.
Proof. reflexivity. Qed.

Lemma py_int_finite x m e :
  Prim2SF x = S754_finite false m e ->
  exists r, py_int x = Ok r /\ (0 <= r)%Z /\ IZR r <= IZR (Zpos m) * bpow e < IZR r + 1.
Proof.
  intros E. unfold py_int. rewrite E. cbn [cond_Zopp].
  exists (Z.shiftl (Zpos m) e). split; [reflexivity|]. split.
  - apply Z.shiftl_nonneg. lia.
  - apply shiftl_floor.
Qed.

Lemma scale_core a b (A B : R) ma ea mb eb :
  0 < A <= B ->
  Prim2SF a = finish false ma ea -> (0 < ma)%Z ->
  A * (1 - 3 * delta) <= IZR ma * bpow ea <= A * (1 + delta) ->
  Prim2SF b = finish false mb eb -> (0 < mb)%Z ->
  B * (1 - 3 * delta) <= IZR mb * bpow eb <= B * (1 + delta) ->
  (exists r, py_int (65535 * a / b) = Ok r /\ (0 <= r <= 65535)%Z /\ (a = b -> (65534 <= r)%Z)) \/
  (Prim2SF (65535 * a) = S754_infinity false /\
   exists e, py_int (65535 * a / b) = Raise e).
Proof.
  intros HAB Ea Hma Ha Eb Hmb Hb.
  destruct delta_small as [Hd0 Hd1]. destruct eta_small as [Ht0 Ht1].
  assert (Eq : Prim2SF (65535 * a / b) = SFdiv prec emax (Prim2SF (65535 * a)) (Prim2SF b)) by apply div_spec.
  assert (Ey : Prim2SF (65535 * a) = SFmul prec emax c65535 (Prim2SF a)).
  { rewrite mul_spec, Prim2SF_65535. reflexivity. }
  destruct (finish_cases false ma ea Hma) as [(ma' & Fa & Ema)|[Fa _]]; rewrite Fa in Ea.
  2:{ (* the difference overflowed *)
    right. rewrite Ea in Ey. cbn [SFmul c65535 xorb] in Ey. split; [exact Ey|].
    unfold py_int. rewrite Eq, Ey.
    destruct (Prim2SF b) as [s|s| |s m e]; cbn [SFdiv]; eauto. }
  assert (Va : is_valid (S754_finite false ma' ea)) by (rewrite <- Ea; apply Prim2SF_valid).
  destruct (SFmul_65535_pos ma' ea Va) as (my & ey & Fy & Hmy & Hy).
  rewrite Ea, Fy in Ey. cbn [SF2R cond_Zopp] in Hy. rewrite Ema in Hy.
  destruct (finish_cases false my ey Hmy) as [(my' & Fy' & Emy)|[Fy' _]]; rewrite Fy' in Ey.
  2:{ right. split; [exact Ey|]. unfold py_int. rewrite Eq, Ey.
      destruct (Prim2SF b) as [s|s| |s m e]; cbn [SFdiv]; eauto. }
  left.
  destruct (finish_cases false mb eb Hmb) as [(mb' & Fb & Emb)|[Fb _]]; rewrite Fb in Eb.
  2:{ (* the width overflowed: finite / infinity = 0 *)
    exists 0%Z. unfold py_int. rewrite Eq, Ey, Eb. cbn [SFdiv xorb].
    split; [reflexivity|]. split; [lia|].
    intros Hab. exfalso. rewrite Hab, Eb in Ea. discriminate. }
  rewrite Ey, Eb in Eq.
  destruct (SFdiv_pos my' ey mb' eb) as (mq & eq & Fq & Hmq & Hq).
  rewrite Fq in Eq. rewrite Emy, Emb in Hq.
  set (yv := IZR my * bpow ey) in *. set (bv := IZR mb * bpow eb) in *.
  set (av := IZR ma * bpow ea) in *.
  assert (Hbv : 0 < bv) by nra.
  assert (Hav : 0 < av) by nra.
  assert (Hup : yv / bv <= 655354 / 10).
  { apply div_le_bound; [exact Hbv|]. nra. }
  assert (Hx0 : 0 <= yv / bv).
  { apply div_ge_bound; [exact Hbv|]. nra. }
  assert (Hlow : a = b -> 655349 / 10 <= yv / bv).
  { intros Hab. apply div_ge_bound; [exact Hbv|].
    assert (av = bv).
    { rewrite Hab, Eb in Ea. injection Ea as E1 E2. unfold av, bv. rewrite <- Ema, <- Emb, E1, E2. reflexivity. }
    nra. }
  assert (Hqv : IZR mq * bpow eq < 65536) by nra.
  destruct (Z.eq_dec mq 0) as [Z0|NZ].
  - subst mq. cbn [finish] in Eq. exists 0%Z. unfold py_int. rewrite Eq.
    split; [reflexivity|]. split; [lia|]. intros Hab. specialize (Hlow Hab).
    rewrite Rmult_0_l in Hq. nra.
  - destruct (finish_cases false mq eq ltac:(lia)) as [(mq' & Fq' & Emq)|[Fq' Hov]]; rewrite Fq' in Eq.
    + destruct (py_int_finite _ _ _ Eq) as (r & Er & Hr0 & Hr).
      rewrite Emq in Hr. exists r. split; [exact Er|]. split.
      * split; [exact Hr0|]. assert (IZR r < 65536) by lra.
        apply lt_IZR in H. lia.
      * intros Hab. specialize (Hlow Hab).
        assert (H : 65533 < IZR r) by nra. apply lt_IZR in H. lia.
    + exfalso.
      assert (H1 : bpow 16 <= bpow eq) by (apply bpow_le; unfold emax, prec in Hov; lia).
      rewrite bpow_16 in H1.
      assert (1 <= IZR mq) by (apply IZR_le; lia). nra.
Qed.

Lemma ltb_irrefl x : (x <? x)%float = false.
Proof.
  rewrite FloatAxioms.ltb_spec. unfold SFltb.
  destruct (Prim2SF x) as [s|s| |s m e] eqn:E; try reflexivity.
  - destruct s; reflexivity.
  - rewrite (SFcompare_refl (S754_finite s m e)) by discriminate. reflexivity.
Qed.

Lemma ltb_asym_fin x y :
  is_fin (Prim2SF x) = true -> is_fin (Prim2SF y) = true ->
  (x <? y)%float = true -> (y <? x)%float = false.
Proof.
  intros Fx Fy H. destruct (y <? x)%float eqn:E; [|reflexivity].
  apply ltb_true_fin in H; try assumption. apply ltb_true_fin in E; try assumption. lra.
Qed.

Lemma np_clip_at_min lo hi :
  is_finite lo = true -> is_finite hi = true -> (lo <? hi)%float = true ->
  np_clip lo lo hi = lo.
Proof.
  intros Hlo Hhi Hlt. apply is_finite_spec in Hlo, Hhi.
  unfold np_clip, np_maximum, np_minimum.
  rewrite (is_fin_not_nan _ Hlo), (is_fin_not_nan _ Hhi). cbn [orb].
  rewrite ltb_irrefl, (is_fin_not_nan _ Hlo), Hlt. reflexivity.
Qed.

Lemma np_clip_at_max lo hi :
  is_finite lo = true -> is_finite hi = true -> (lo <? hi)%float = true ->
  np_clip hi lo hi = hi.
Proof.
  intros Hlo Hhi Hlt. apply is_finite_spec in Hlo, Hhi.
  unfold np_clip, np_maximum, np_minimum.
  rewrite (is_fin_not_nan _ Hlo), (is_fin_not_nan _ Hhi). cbn [orb].
  rewrite (ltb_asym_fin _ _ Hlo Hhi Hlt), (is_fin_not_nan _ Hhi), ltb_irrefl. reflexivity.
Qed.

Lemma width_pos lo hi :
  is_fin (Prim2SF lo) = true -> is_fin (Prim2SF hi) = true -> B2R lo < B2R hi ->
  exists mb eb,
    Prim2SF (hi - lo) = finish false mb eb /\ (0 < mb)%Z /\
    (B2R hi - B2R lo) * (1 - 3 * delta) <= IZR mb * bpow eb <= (B2R hi - B2R lo) * (1 + delta).
Proof.
  intros Flo Fhi H. rewrite sub_spec. unfold SF64sub.
  apply SFsub_pos; try assumption; try apply Prim2SF_valid. unfold B2R in H. lra.
Qed.

Lemma scale_zero_num c lo hi :
  is_fin (Prim2SF c) = true -> is_fin (Prim2SF lo) = true -> is_fin (Prim2SF hi) = true ->
  B2R c = B2R lo -> B2R lo < B2R hi ->
  py_int (65535 * (c - lo) / (hi - lo)) = Ok 0%Z.
Proof.
  intros Fc Flo Fhi E H.
  destruct (width_pos lo hi Flo Fhi H) as (mb & eb & Eb & Hmb & _).
  destruct (SFsub_eq _ _ Fc Flo E) as [s Ea].
  unfold py_int. rewrite div_spec, mul_spec, (sub_spec c lo). unfold SF64div, SF64mul, SF64sub.
  rewrite Ea, Prim2SF_65535, Eb.
  cbn [SFmul c65535 xorb].
  destruct (finish_cases false mb eb Hmb) as [(m & F & _)|[F _]]; rewrite F; reflexivity.
Qed.

Lemma is_infinity_true y s : Prim2SF y = S754_infinity s -> is_infinity y = true.
Proof.
  intros E. unfold is_infinity.
  rewrite FloatAxioms.eqb_spec, abs_spec, E, Prim2SF_infinity. reflexivity.
Qed.

Theorem scale_range v lo hi :
  is_nan v = false -> is_finite lo = true -> is_finite hi = true ->
  (lo <? hi)%float = true ->
  (exists r, scale_value_to_u16 v lo hi = Ok r /\ (0 <= r <= 65535)%Z) \/
  (is_infinity (65535 * (np_clip v lo hi - lo)) = true /\
   exists e, scale_value_to_u16 v lo hi = Raise e).
Proof.
  intros Hv Hlo Hhi Hlt.
  destruct (np_clip_in_range v lo hi Hv Hlo Hhi Hlt) as [Fc [H1 H2]].
  apply is_finite_spec in Hlo, Hhi.
  assert (Hw := ltb_true_fin _ _ Hlo Hhi Hlt).
  unfold scale_value_to_u16. set (c := np_clip v lo hi) in *.
  destruct (Req_dec (B2R c) (B2R lo)) as [E|NE].
  - left. exists 0%Z. split; [apply scale_zero_num; assumption|lia].
  - destruct (width_pos lo hi Hlo Hhi Hw) as (mb & eb & Eb & Hmb & Hb).
    destruct (width_pos lo c Hlo Fc ltac:(lra)) as (ma & ea & Ea & Hma & Ha).
    destruct (scale_core (c - lo) (hi - lo) (B2R c - B2R lo) (B2R hi - B2R lo)
                ma ea mb eb ltac:(lra) Ea Hma Ha Eb Hmb Hb) as [(r & Er & Hr & _)|[Ei He]].
    + left. exists r. auto.
    + right. split; [apply (is_infinity_true _ _ Ei)|exact He].
Qed.

Theorem scale_at_min lo hi :
  is_finite lo = true -> is_finite hi = true -> (lo <? hi)%float = true ->
  scale_value_to_u16 lo lo hi = Ok 0%Z.
Proof.
  intros Hlo Hhi Hlt. unfold scale_value_to_u16.
  rewrite (np_clip_at_min lo hi Hlo Hhi Hlt).
  apply is_finite_spec in Hlo, Hhi.
  apply scale_zero_num; try assumption; [reflexivity|].
  apply ltb_true_fin; assumption.
Qed.

Theorem scale_at_max lo hi :
  is_finite lo = true -> is_finite hi = true -> (lo <? hi)%float = true ->
  (scale_value_to_u16 hi lo hi = Ok 65534%Z \/ scale_value_to_u16 hi lo hi = Ok 65535%Z) \/
  (is_infinity (65535 * (hi - lo)) = true /\ exists e, scale_value_to_u16 hi lo hi = Raise e).
Proof.
  intros Hlo Hhi Hlt. unfold scale_value_to_u16.
  rewrite (np_clip_at_max lo hi Hlo Hhi Hlt).
  apply is_finite_spec in Hlo, Hhi.
  assert (Hw := ltb_true_fin _ _ Hlo Hhi Hlt).
  destruct (width_pos lo hi Hlo Hhi Hw) as (mb & eb & Eb & Hmb & Hb).
  destruct (scale_core (hi - lo) (hi - lo) (B2R hi - B2R lo) (B2R hi - B2R lo)
              mb eb mb eb ltac:(lra) Eb Hmb Hb Eb Hmb Hb) as [(r & Er & Hr & Hr')|[Ei He]].
  - left. specialize (Hr' eq_refl). rewrite Er.
    assert (r = 65534 \/ r = 65535)%Z as [->| ->] by lia; auto.
  - right. split; [apply (is_infinity_true _ _ Ei)|exact He].
Qed.

Theorem scale_degenerate v m : scale_value_to_u16 v m m = Raise ValueError.
Proof.
  unfold scale_value_to_u16, py_int. rewrite div_spec, mul_spec, Prim2SF_65535.
  unfold SF64div, SF64mul.
  assert (Hz : Prim2SF (m - m) = S754_nan \/
               (is_fin (Prim2SF m) = true /\ exists s, Prim2SF (m - m) = S754_zero s)).
  { rewrite sub_spec. unfold SF64sub. destruct (Prim2SF m) as [s|s| |s mm e] eqn:E.
    - right. split; [reflexivity|]. destruct s; simpl; eauto.
    - left. destruct s; reflexivity.
    - left. reflexivity.
    - right. split; [reflexivity|]. apply SFsub_eq; reflexivity. }
  destruct Hz as [Hz|[Fm [s Hz]]].
  - rewrite Hz. destruct (SFmul prec emax c65535 (Prim2SF (np_clip v m m - m))); reflexivity.
  - destruct (is_nan v) eqn:Nv.
    + assert (Ec : np_clip v m m = nan).
      { unfold np_clip, np_maximum. rewrite Nv. cbn [orb]. unfold np_minimum.
        replace (is_nan nan) with true by reflexivity. rewrite orb_true_r. reflexivity. }
      rewrite Ec, sub_spec. unfold SF64sub. replace (Prim2SF nan) with S754_nan by reflexivity.
      cbn [SFsub SFmul c65535 SFdiv]. reflexivity.
    + assert (Ec : np_clip v m m = m).
      { unfold np_clip, np_maximum, np_minimum. rewrite Nv, (is_fin_not_nan _ Fm). cbn [orb].
        destruct (v <? m)%float eqn:E.
        - rewrite (is_fin_not_nan _ Fm), ltb_irrefl. reflexivity.
        - rewrite Nv, E. reflexivity. }
      rewrite Ec, Hz. cbn [SFmul c65535 xorb SFdiv]. reflexivity.
Qed.

(** Two finite binary64 data with the same real value are the same datum,
    or are both zeros. *)
Lemma fin_value_inj x y :
  is_fin x = true -> is_fin y = true -> is_valid x -> is_valid y ->
  SF2R x = SF2R y ->
  x = y \/ (exists s s', x = S754_zero s /\ y = S754_zero s').
Proof.
  intros Fx Fy Vx Vy E.
  assert (H := SFcompare_fin x y Fx Fy Vx Vy).
  assert (Hc : SFcompare x y = Some Eq).
  { destruct (SFcompare x y) as [[| |]|]; first [reflexivity | lra | contradiction]. }
  clear H.
  destruct x as [sx| | |sx mx ex]; try discriminate;
  destruct y as [sy| | |sy my ey]; try discriminate.
  - right. eauto.
  - exfalso. simpl in Hc. destruct sy; discriminate.
  - exfalso. simpl in Hc. destruct sx; discriminate.
  - left. simpl in Hc.
    destruct sx, sy; try discriminate;
    destruct (ex ?= ey)%Z eqn:Ee; try discriminate;
    change (Pos.compare_cont Eq mx my) with (mx ?= my)%positive in Hc;
    destruct (mx ?= my)%positive eqn:Em; try discriminate;
    apply Z.compare_eq in Ee; apply Pos.compare_eq in Em; subst; reflexivity.
Qed.

Lemma ltb_nan_l x y : is_nan x = true -> (x <? y)%float = false.
Proof.
  intros H. apply is_nan_true in H. rewrite FloatAxioms.ltb_spec, H. reflexivity.
Qed.

Lemma ltb_nan_r x y : is_nan y = true -> (x <? y)%float = false.
Proof.
  intros H. apply is_nan_true in H. rewrite FloatAxioms.ltb_spec, H.
  unfold SFltb. destruct (Prim2SF x) as [s|s| |s m e]; reflexivity.
Qed.

(** [np.clip] and the specification's clamp give the same difference to
    the lower end of the range. *)
Lemma clip_clamp_sub v lo hi :
  is_finite lo = true -> is_finite hi = true -> (lo <? hi)%float = true ->
  (np_clip v lo hi - lo)%float = (clamp v lo hi - lo)%float.
Proof.
  intros Hlo Hhi Hlt.
  apply is_finite_spec in Hlo, Hhi.
  assert (Hw := ltb_true_fin _ _ Hlo Hhi Hlt).
  assert (Nlo := is_fin_not_nan _ Hlo). assert (Nhi := is_fin_not_nan _ Hhi).
  destruct (is_nan v) eqn:Nv.
  - assert (Ec : np_clip v lo hi = nan).
    { unfold np_clip, np_maximum. rewrite Nv. cbn [orb]. unfold np_minimum.
      replace (is_nan nan) with true by reflexivity. rewrite orb_true_r. reflexivity. }
    assert (Ed : clamp v lo hi = v).
    { unfold clamp. rewrite (ltb_nan_l v lo Nv), (ltb_nan_r hi v Nv). reflexivity. }
    rewrite Ec, Ed. apply Prim2SF_inj. rewrite !sub_spec.
    rewrite (is_nan_true _ Nv). reflexivity.
  - unfold np_clip, np_maximum, clamp. rewrite Nv, Nlo. cbn [orb].
    destruct (v <? lo)%float eqn:E1.
    + unfold np_minimum. rewrite Nhi, Nlo, Hlt. reflexivity.
    + unfold np_minimum. rewrite Nhi, Nv. cbn [orb].
      assert (Fv : (v <? hi)%float = true \/ (hi <? v)%float = false -> is_fin (Prim2SF v) = true).
      { intros Hc. apply is_nan_spec in Nv.
        rewrite !FloatAxioms.ltb_spec in *. unfold SFltb in *.
        destruct (Prim2SF v) as [s|s| |s m e]; try reflexivity; try congruence.
        destruct s.
        - destruct (Prim2SF lo); discriminate.
        - destruct Hc as [Hc|Hc]; destruct (Prim2SF hi) as [|[|]| |]; discriminate. }
      destruct (v <? hi)%float eqn:E2.
      * rewrite (ltb_asym_fin v hi (Fv (or_introl eq_refl)) Hhi E2). reflexivity.
      * destruct (hi <? v)%float eqn:E3; [reflexivity|].
        specialize (Fv (or_intror eq_refl)).
        assert (Ev : B2R v = B2R hi).
        { apply ltb_false_fin in E2; try assumption. apply ltb_false_fin in E3; try assumption. lra. }
        destruct (fin_value_inj _ _ Fv Hhi (Prim2SF_valid v) (Prim2SF_valid hi) Ev) as [Eq|(s & s' & Zv & Zh)].
        -- apply Prim2SF_inj in Eq. rewrite Eq. reflexivity.
        -- apply Prim2SF_inj. rewrite !sub_spec, Zv, Zh. unfold SF64sub.
           unfold B2R in Hw. rewrite Zh in Hw.
           destruct (Prim2SF lo) as [sl| | |sl ml el]; try discriminate.
           ++ simpl in Hw. lra.
           ++ reflexivity.
Qed.

Lemma scale_refines_spec v lo hi :
  is_finite lo = true -> is_finite hi = true -> (lo <? hi)%float = true ->
  scale_value_to_u16 v lo hi = encode_spec v lo hi.
Proof.
  intros Hlo Hhi Hlt. unfold scale_value_to_u16, encode_spec.
  rewrite (clip_clamp_sub v lo hi Hlo Hhi Hlt). reflexivity.
Qed.

Lemma bpow_900 : B2R 0x1p+900 = bpow 900.
Proof.
  unfold B2R. replace (Prim2SF 0x1p+900) with (S754_finite false 4503599627370496 848) by reflexivity.
  cbn [SF2R cond_Zopp]. replace 4503599627370496%Z with (2 ^ 52)%Z by reflexivity.
  rewrite <- bpow_IZR by lia. rewrite <- bpow_add. reflexivity.
Qed.

Lemma fin_900 : is_fin (Prim2SF 0x1p+900) = true.
Proof. reflexivity. Qed.

Lemma finish_infinity sx m2 e2 :
  (0 < m2)%Z -> finish sx m2 e2 = S754_infinity sx -> bpow 972 <= IZR m2 * bpow e2.
Proof.
  intros H E. destruct (finish_cases sx m2 e2 H) as [(m & F & _)|[_ He]].
  - rewrite F in E. discriminate.
  - assert (H1 : bpow 972 <= bpow e2) by (apply bpow_le; unfold emax, prec in He; lia).
    assert (H2 : 1 <= IZR m2) by (apply IZR_le; lia).
    assert (Hp := bpow_gt_0 972). nra.
Qed.

Lemma is_infinity_false y : is_fin (Prim2SF y) = true -> is_infinity y = false.
Proof.
  intros F. unfold is_infinity.
  rewrite FloatAxioms.eqb_spec, abs_spec, Prim2SF_infinity.
  destruct (Prim2SF y) as [s|s| |s m e]; try discriminate; reflexivity.
Qed.

(** Below a width of [2^900] the scaled difference cannot overflow. *)
Lemma product_finite v lo hi :
  is_nan v = false -> is_finite lo = true -> is_finite hi = true ->
  (lo <? hi)%float = true -> (hi - lo <? 0x1p+900)%float = true ->
  is_infinity (65535 * (np_clip v lo hi - lo)) = false.
Proof.
  intros Hv Hlo Hhi Hlt Hth.
  destruct (np_clip_in_range v lo hi Hv Hlo Hhi Hlt) as [Fc [H1 H2]].
  apply is_finite_spec in Hlo, Hhi.
  assert (Hw := ltb_true_fin _ _ Hlo Hhi Hlt).
  set (c := np_clip v lo hi) in *.
  destruct delta_small as [Hd0 Hd1].
  apply is_infinity_false.
  rewrite mul_spec, Prim2SF_65535. unfold SF64mul.
  destruct (Req_dec (B2R c) (B2R lo)) as [E|NE].
  - rewrite sub_spec. unfold SF64sub.
    destruct (SFsub_eq _ _ Fc Hlo E) as [s Ea]. rewrite Ea. reflexivity.
  - destruct (width_pos lo hi Hlo Hhi Hw) as (mb & eb & Eb & Hmb & Hb).
    destruct (width_pos lo c Hlo Fc ltac:(lra)) as (ma & ea & Ea & Hma & Ha).
    assert (Hbv : IZR mb * bpow eb < bpow 900).
    { destruct (finish_cases false mb eb Hmb) as [(m & F & Em)|[F _]]; rewrite F in Eb.
      - assert (Fb : is_fin (Prim2SF (hi - lo)) = true) by (rewrite Eb; reflexivity).
        assert (H := ltb_true_fin _ _ Fb fin_900 Hth).
        rewrite bpow_900 in H. unfold B2R in H. rewrite Eb in H.
        cbn [SF2R cond_Zopp] in H. rewrite Em in H. exact H.
      - exfalso. rewrite FloatAxioms.ltb_spec, Eb in Hth. discriminate. }
    assert (H901 : bpow 901 = 2 * bpow 900) by (replace 901%Z with (900 + 1)%Z by lia; apply bpow_succ).
    assert (H902 : bpow 902 = 2 * bpow 901) by (replace 902%Z with (901 + 1)%Z by lia; apply bpow_succ).
    assert (Hp := bpow_gt_0 900).
    assert (HB : B2R hi - B2R lo < bpow 901) by nra.
    assert (Hav : IZR ma * bpow ea < bpow 902) by nra.
    assert (H972 : bpow 902 * bpow 70 = bpow 972) by (rewrite <- bpow_add; reflexivity).
    assert (H70 : 65536 * 2 <= bpow 70).
    { rewrite <- bpow_16, <- bpow_1, <- bpow_add. apply bpow_le. lia. }
    assert (Hp2 := bpow_gt_0 902).
    destruct (finish_cases false ma ea Hma) as [(ma' & Fa & Ema)|[Fa _]].
    2:{ exfalso. assert (H := finish_infinity false ma ea Hma Fa). nra. }
    rewrite Fa in Ea. rewrite Ea.
    assert (Va : is_valid (S754_finite false ma' ea)) by (rewrite <- Ea; apply Prim2SF_valid).
    destruct (SFmul_65535_pos ma' ea Va) as (my & ey & Fy & Hmy & Hy).
    rewrite Fy. cbn [SF2R cond_Zopp] in Hy. rewrite Ema in Hy.
    destruct (finish_cases false my ey Hmy) as [(my' & Fy' & Emy)|[Fy' _]].
    + rewrite Fy'. reflexivity.
    + exfalso. assert (H := finish_infinity false my ey Hmy Fy'). nra.
Qed.

(** ** The decoder and the round trip in binary64 *)

(** Rounding an exact positive value: relative error [delta] above the
    underflow threshold, absolute error [eta] below it. *)
Lemma round_exact_abs sx mx ex :
  (0 < mx)%Z ->
  exists m2 e2,
    binary_round_aux prec emax sx mx ex loc_Exact = finish sx m2 e2 /\
    (0 <= m2)%Z /\
    (IZR mx * bpow ex * (1 - delta) - eta) * (1 - 2 * delta) <= IZR m2 * bpow e2
      <= IZR mx * bpow ex * (1 + delta) + eta.
Proof.
  intros Hmx.
  set (x := IZR mx * bpow ex) in *.
  assert (Hin : inb x ex (shr_record_of_loc mx loc_Exact)) by (apply inb_exact; lia).
  destruct (binary_round_aux_spec sx mx ex loc_Exact x Hin)
    as (mr & e1 & m2 & e2 & He1 & Hmr & Hr & He2 & Hm2 & Hb & Hsame & Heq).
  exists m2, e2. split; [exact Heq|]. split; [exact Hm2|].
  assert (Hd : 0 < delta) by apply bpow_gt_0.
  destruct delta_small as [_ Hd1].
  assert (Heta : 0 < eta) by apply bpow_gt_0.
  assert (Hx : 0 < x).
  { unfold x. apply Rmult_lt_0_compat; [apply IZR_lt; lia|apply bpow_gt_0]. }
  assert (Hemin : (emin <= e1)%Z) by (rewrite He1; pose proof (fexp_ge_emin (Zdigits2 mx + ex)); lia).
  assert (Hs2 := stage2_bound mr e1 m2 e2 Hmr Hemin He2 Hb Hsame).
  assert (Hp1 := bpow_gt_0 e1).
  assert (H3 : IZR mr * bpow e1 - x = (IZR mr - x * bpow (- e1)) * bpow e1).
  { rewrite Rmult_minus_distr_r, Rmult_assoc, <- bpow_add, Z.add_opp_diag_l, bpow_0. lra. }
  assert (H1 : - (delta * x + eta) <= IZR mr * bpow e1 - x <= delta * x + eta).
  { assert (Hcase : e1 = ex \/ e1 = (Zdigits2 mx + ex - prec)%Z \/ e1 = emin).
    { rewrite He1. unfold fexp. lia. }
    destruct Hcase as [E|[E|E]].
    - assert (Hj : x * bpow (- e1) = IZR mx).
      { rewrite E. unfold x. rewrite Rmult_assoc, <- bpow_add, Z.add_opp_diag_r, bpow_0. lra. }
      rewrite Hj in Hr. apply IZR_near_eq in Hr. subst mr.
      rewrite H3, Hj. nra.
    - assert (Hdg := Zdigits2_bpow mx Hmx).
      assert (E1 : bpow e1 = bpow (Zdigits2 mx - 1) * bpow ex * (2 * delta)).
      { rewrite E. unfold delta. rewrite <- bpow_1, <- !bpow_add. f_equal. lia. }
      assert (Hp2 := bpow_gt_0 (Zdigits2 mx - 1)). assert (Hp3 := bpow_gt_0 ex).
      assert (H2 : bpow e1 <= x * (2 * delta)).
      { rewrite E1. unfold x. apply Rmult_le_compat_r; [lra|]. apply Rmult_le_compat_r; lra. }
      rewrite H3. nra.
    - assert (E2 : bpow e1 = 2 * eta).
      { rewrite E. unfold eta. rewrite bpow_pred. lra. }
      rewrite H3. nra. }
  assert (Hmr1 : 0 <= IZR mr * bpow e1) by (apply Rmult_le_pos; [apply IZR_le; lia|lra]).
  split; [|lra].
  apply Rle_trans with (IZR mr * bpow e1 * (1 - 2 * delta)); [|lra].
  apply Rmult_le_compat_r; lra.
Qed.

(** Product of two positive finite data. *)
Lemma SFmul_pos ma ea mb eb :
  let x := (IZR (Zpos ma) * bpow ea) * (IZR (Zpos mb) * bpow eb) in
  exists m2 e2,
    SFmul prec emax (S754_finite false ma ea) (S754_finite false mb eb) = finish false m2 e2 /\
    (0 <= m2)%Z /\
    (x * (1 - delta) - eta) * (1 - 2 * delta) <= IZR m2 * bpow e2 <= x * (1 + delta) + eta.
Proof.
  intros x. cbn [SFmul xorb].
  assert (E : x = IZR (Zpos (ma * mb)) * bpow (ea + eb)).
  { unfold x. rewrite Pos2Z.inj_mul, mult_IZR, bpow_add. ring. }
  rewrite E. apply round_exact_abs. lia.
Qed.

(** Sum of two finite data: zero exactly when the exact sum is zero, and
    otherwise the exact sum with its sign, rounded. *)
Lemma SFadd_fin x y :
  is_fin x = true -> is_fin y = true -> is_valid x -> is_valid y ->
  (SF2R x + SF2R y = 0 /\ exists sg, SFadd prec emax x y = S754_zero sg) \/
  (exists sg m2 e2,
     SFadd prec emax x y = finish sg m2 e2 /\ (0 < m2)%Z /\
     0 < (if sg then - (SF2R x + SF2R y) else SF2R x + SF2R y) /\
     (if sg then - (SF2R x + SF2R y) else SF2R x + SF2R y) * (1 - 3 * delta)
       <= IZR m2 * bpow e2
       <= (if sg then - (SF2R x + SF2R y) else SF2R x + SF2R y) * (1 + delta)).
Proof.
  intros Fx Fy Vx Vy.
  assert (Hd : 0 < delta) by apply bpow_gt_0.
  assert (Hone : forall s m e, is_valid (S754_finite s m e) ->
    exists sg m2 e2,
      S754_finite s m e = finish sg m2 e2 /\ (0 < m2)%Z /\
      0 < (if sg then - SF2R (S754_finite s m e) else SF2R (S754_finite s m e)) /\
      (if sg then - SF2R (S754_finite s m e) else SF2R (S754_finite s m e)) * (1 - 3 * delta)
        <= IZR m2 * bpow e2
        <= (if sg then - SF2R (S754_finite s m e) else SF2R (S754_finite s m e)) * (1 + delta)).
  { intros s m e V. destruct (valid_finite _ _ _ V) as (He & _ & _).
    assert (Hp := bpow_gt_0 e).
    assert (Hm : 0 < IZR (Zpos m) * bpow e) by (apply Rmult_lt_0_compat; [apply IZR_lt; lia|lra]).
    exists s, (Zpos m), e. cbn [finish SF2R].
    replace (e <=? emax - prec)%Z with true by (symmetry; apply Z.leb_le; lia).
    split; [reflexivity|]. split; [lia|]. rewrite IZR_cond_Zopp.
    destruct s; split; nra. }
  destruct x as [sx| | |sx mx ex]; try discriminate;
  destruct y as [sy| | |sy my ey]; try discriminate.
  - left. split; [simpl; lra|]. destruct sx, sy; simpl; eauto.
  - right. destruct (Hone sy my ey Vy) as (sg & m2 & e2 & E & Hm & Hpos & Hb).
    exists sg, m2, e2. cbn [SFadd]. split; [exact E|]. split; [exact Hm|].
    replace (SF2R (S754_zero sx) + SF2R (S754_finite sy my ey))
      with (SF2R (S754_finite sy my ey)) by (simpl; lra).
    split; assumption.
  - right. destruct (Hone sx mx ex Vx) as (sg & m2 & e2 & E & Hm & Hpos & Hb).
    exists sg, m2, e2. cbn [SFadd]. split; [exact E|]. split; [exact Hm|].
    replace (SF2R (S754_finite sx mx ex) + SF2R (S754_zero sy))
      with (SF2R (S754_finite sx mx ex)) by (simpl; lra).
    split; assumption.
  - destruct (valid_finite _ _ _ Vx) as (Hex & _ & _).
    destruct (valid_finite _ _ _ Vy) as (Hey & _ & _).
    cbn [SFadd]. set (ez := Z.min ex ey).
    set (zx := cond_Zopp sx (Zpos (fst (shl_align mx ex ez)))).
    set (zy := cond_Zopp sy (Zpos (fst (shl_align my ey ez)))).
    assert (Hx : IZR zx * bpow ez = SF2R (S754_finite sx mx ex)) by (apply SF2R_align; lia).
    assert (Hy : IZR zy * bpow ez = SF2R (S754_finite sy my ey)) by (apply SF2R_align; lia).
    assert (Hz : IZR (zx + zy) * bpow ez
                 = SF2R (S754_finite sx mx ex) + SF2R (S754_finite sy my ey)).
    { rewrite plus_IZR. lra. }
    rewrite <- Hz. assert (Hp := bpow_gt_0 ez).
    destruct (zx + zy)%Z as [|m|m] eqn:Em.
    + left. split; [lra|]. simpl. eauto.
    + right. cbn [binary_normalize].
      destruct (binary_round_rel false m ez) as (m2 & e2 & E & Hm & Hb).
      { apply multiple_emin. lia. }
      exists false, m2, e2. split; [exact E|]. split; [exact Hm|].
      split; [|exact Hb]. apply Rmult_lt_0_compat; [apply IZR_lt; lia|lra].
    + right. cbn [binary_normalize].
      destruct (binary_round_rel true m ez) as (m2 & e2 & E & Hm & Hb).
      { apply multiple_emin. lia. }
      exists true, m2, e2. split; [exact E|]. split; [exact Hm|].
      replace (- (IZR (Z.neg m) * bpow ez)) with (IZR (Zpos m) * bpow ez).
      * split; [|exact Hb]. apply Rmult_lt_0_compat; [apply IZR_lt; lia|lra].
      * change (Z.neg m) with (- Zpos m)%Z. rewrite opp_IZR. lra.
Qed.

(** An integer below [2^53] is a binary64 value: [float(n)] is exact. *)
Lemma binary_round_int p :
  (Zpos p < 2 ^ 53)%Z ->
  exists m e,
    binary_round prec emax false p 0 = S754_finite false m e /\
    valid_binary (S754_finite false m e) = true /\
    IZR (Zpos m) * bpow e = IZR (Zpos p).
Proof.
  intros Hp. unfold binary_round.
  assert (Hd := digits2_bounds p).
  assert (Hd53 : (Zpos (digits2_pos p) <= 53)%Z).
  { destruct (Z_le_gt_dec (Zpos (digits2_pos p)) 53) as [H|H]; [exact H|exfalso].
    assert (2 ^ 53 <= 2 ^ (Zpos (digits2_pos p) - 1))%Z by (apply Z.pow_le_mono_r; lia).
    lia. }
  assert (Hs := shl_align_spec p 0 (fexp prec emax (Zpos (digits2_pos p) + 0))).
  destruct (shl_align p 0 (fexp prec emax (Zpos (digits2_pos p) + 0))) as [mz ez].
  destruct Hs as (Hv & Hez & Hdg).
  assert (Eez : ez = (Zpos (digits2_pos p) - 53)%Z).
  { rewrite Hez. unfold fexp, prec, emin, emax. lia. }
  assert (Edz : Zpos (digits2_pos mz) = 53%Z) by lia.
  set (x := IZR (Zpos mz) * bpow ez).
  assert (Hin : inb x ez (shr_record_of_loc (Zpos mz) loc_Exact)) by (apply inb_exact; lia).
  destruct (binary_round_aux_spec false (Zpos mz) ez loc_Exact x Hin)
    as (mr & e1 & m2 & e2 & He1 & Hmr & Hr & He2 & Hm2 & Hb & Hsame & Heq).
  assert (E1 : e1 = ez).
  { rewrite He1. cbn [Zdigits2]. rewrite Edz. unfold fexp, prec, emin, emax. lia. }
  assert (Emr : mr = Zpos mz).
  { apply IZR_near_eq. replace (IZR (Zpos mz)) with (x * bpow (- e1)); [exact Hr|].
    unfold x. rewrite E1, Rmult_assoc, <- bpow_add, Z.add_opp_diag_r, bpow_0. lra. }
  assert (E2 : e2 = ez).
  { rewrite He2, Emr, E1. cbn [Zdigits2]. rewrite Edz. unfold fexp, prec, emin, emax. lia. }
  assert (Em2 : m2 = Zpos mz) by (rewrite <- Emr; apply Hsame; lia).
  rewrite Heq, Em2, E2. cbn [finish].
  assert (Hle : (ez <=? emax - prec)%Z = true) by (apply Z.leb_le; unfold prec, emax; lia).
  rewrite Hle. exists mz, ez. split; [reflexivity|]. split.
  - unfold valid_binary, bounded, canonical_mantissa. rewrite Hle, Edz.
    rewrite andb_true_r. apply Z.eqb_eq. unfold fexp, prec, emin, emax. lia.
  - rewrite Hv, bpow_0. lra.
Qed.

Lemma py_float_spec r :
  (0 <= r <= 65535)%Z ->
  (r = 0%Z /\ Prim2SF (py_float r) = S754_zero false) \/
  (exists m e, Prim2SF (py_float r) = S754_finite false m e /\
               IZR (Zpos m) * bpow e = IZR r).
Proof.
  intros Hr. unfold py_float. destruct r as [|p|p]; try lia.
  - left. split; reflexivity.
  - right. cbn [binary_normalize].
    destruct (binary_round_int p ltac:(lia)) as (m & e & E & V & Hv).
    rewrite E, (Prim2SF_SF2Prim _ V). eauto.
Qed.

Lemma eta_delta : eta * 65536 <= delta.
Proof.
  unfold eta, delta. rewrite <- bpow_16, <- bpow_add. apply bpow_le.
  unfold emin, emax, prec. lia.
Qed.

Lemma bpow_972 : 131072 * bpow 902 <= bpow 972.
Proof.
  replace 131072 with (bpow 17) by (rewrite bpow_IZR by lia; reflexivity).
  rewrite <- bpow_add. apply bpow_le. lia.
Qed.

Lemma bpow_901 : bpow 901 = 2 * bpow 900.
Proof. replace 901%Z with (900 + 1)%Z by lia. apply bpow_succ. Qed.

Lemma bpow_902 : bpow 902 = 4 * bpow 900.
Proof. replace 902%Z with (901 + 1)%Z by lia. rewrite bpow_succ, bpow_901. lra. Qed.

(** What a rounded result below the overflow threshold is worth. *)
Lemma finish_value x sx m e :
  Prim2SF x = finish sx m e -> (0 <= m)%Z -> IZR m * bpow e < bpow 972 ->
  is_fin (Prim2SF x) = true /\
  B2R x = (if sx then - (IZR m * bpow e) else IZR m * bpow e).
Proof.
  intros E Hm Hv. unfold B2R. rewrite E.
  destruct (Z.eq_dec m 0) as [->|NZ].
  - cbn [finish is_fin SF2R]. split; [reflexivity|]. destruct sx; lra.
  - destruct (finish_cases sx m e ltac:(lia)) as [(p & F & Ep)|[F _]].
    + rewrite F. cbn [is_fin SF2R]. split; [reflexivity|].
      rewrite IZR_cond_Zopp, Ep. destruct sx; lra.
    + exfalso. assert (H := finish_infinity sx m e ltac:(lia) F). lra.
Qed.

Lemma positive_finite x :
  is_fin (Prim2SF x) = true -> 0 < B2R x ->
  exists m e, Prim2SF x = S754_finite false m e /\ B2R x = IZR (Zpos m) * bpow e.
Proof.
  unfold B2R. destruct (Prim2SF x) as [s|s| |s m e]; try discriminate; intros _ H.
  - simpl in H. lra.
  - cbn [SF2R] in *. rewrite IZR_cond_Zopp in *.
    assert (Hp := bpow_gt_0 e). assert (0 < IZR (Zpos m)) by (apply IZR_lt; lia).
    destruct s; [nra|]. eauto.
Qed.

(** Division and multiplication of positive finite floats, in reals. *)
Lemma div_pos_value a b :
  is_fin (Prim2SF a) = true -> is_fin (Prim2SF b) = true ->
  0 < B2R a -> 0 < B2R b ->
  B2R a / B2R b * (1 + delta) + eta < bpow 972 ->
  is_fin (Prim2SF (a / b)) = true /\ 0 <= B2R (a / b) /\
  (B2R a / B2R b * (1 - delta) - eta) * (1 - 2 * delta) <= B2R (a / b)
    <= B2R a / B2R b * (1 + delta) + eta.
Proof.
  intros Fa Fb Ha Hb Hsmall.
  destruct (positive_finite a Fa Ha) as (ma & ea & Ea & Va).
  destruct (positive_finite b Fb Hb) as (mb & eb & Eb & Vb).
  destruct (SFdiv_pos ma ea mb eb) as (m & e & E & Hm & Hbnd).
  rewrite <- Va, <- Vb in Hbnd.
  assert (Ep : Prim2SF (a / b) = finish false m e).
  { rewrite div_spec. unfold SF64div. rewrite Ea, Eb. exact E. }
  destruct (finish_value _ _ _ _ Ep Hm ltac:(lra)) as [F V].
  rewrite V. split; [exact F|]. split; [|exact Hbnd].
  apply Rmult_le_pos; [apply IZR_le; exact Hm|left; apply bpow_gt_0].
Qed.

Lemma mul_pos_value a b :
  is_fin (Prim2SF a) = true -> is_fin (Prim2SF b) = true ->
  0 < B2R a -> 0 < B2R b ->
  B2R a * B2R b * (1 + delta) + eta < bpow 972 ->
  is_fin (Prim2SF (a * b)) = true /\ 0 <= B2R (a * b) /\
  (B2R a * B2R b * (1 - delta) - eta) * (1 - 2 * delta) <= B2R (a * b)
    <= B2R a * B2R b * (1 + delta) + eta.
Proof.
  intros Fa Fb Ha Hb Hsmall.
  destruct (positive_finite a Fa Ha) as (ma & ea & Ea & Va).
  destruct (positive_finite b Fb Hb) as (mb & eb & Eb & Vb).
  destruct (SFmul_pos ma ea mb eb) as (m & e & E & Hm & Hbnd).
  cbv zeta in Hbnd. rewrite <- Va, <- Vb in Hbnd.
  assert (Ep : Prim2SF (a * b) = finish false m e).
  { rewrite mul_spec. unfold SF64mul. rewrite Ea, Eb. exact E. }
  destruct (finish_value _ _ _ _ Ep Hm ltac:(lra)) as [F V].
  rewrite V. split; [exact F|]. split; [|exact Hbnd].
  apply Rmult_le_pos; [apply IZR_le; exact Hm|left; apply bpow_gt_0].
Qed.

(** Addition of finite floats, in reals: the exact sum up to a relative
    error of [3 * delta]. *)
Lemma add_value a b :
  is_fin (Prim2SF a) = true -> is_fin (Prim2SF b) = true ->
  Rabs (B2R a + B2R b) * (1 + delta) < bpow 972 ->
  is_fin (Prim2SF (a + b)) = true /\
  Rabs (B2R (a + b) - (B2R a + B2R b)) <= 3 * delta * Rabs (B2R a + B2R b).
Proof.
  intros Fa Fb Hsmall. destruct delta_small as [Hd0 Hd1].
  assert (Ep : Prim2SF (a + b) = SFadd prec emax (Prim2SF a) (Prim2SF b)) by apply add_spec.
  destruct (SFadd_fin _ _ Fa Fb (Prim2SF_valid a) (Prim2SF_valid b))
    as [[Hz [sg E]]|(sg & m & e & E & Hm & Hpos & Hbnd)].
  - fold (B2R a) (B2R b) in Hz. unfold B2R at 1. rewrite Ep, E, Hz. cbn [is_fin SF2R].
    split; [reflexivity|]. rewrite Rminus_0_r, Rabs_R0. lra.
  - fold (B2R a) (B2R b) in Hpos, Hbnd. rewrite E in Ep.
    set (s := B2R a + B2R b) in *.
    assert (Habs : Rabs s = if sg then - s else s).
    { destruct sg; [apply Rabs_left|apply Rabs_right]; lra. }
    rewrite Habs in *.
    destruct (finish_value _ _ _ _ Ep ltac:(lia) ltac:(destruct sg; lra)) as [F V].
    split; [exact F|]. rewrite V.
    destruct sg; apply Rabs_le; lra.
Qed.

Lemma sub_pos_value a b :
  is_fin (Prim2SF a) = true -> is_fin (Prim2SF b) = true ->
  B2R b < B2R a -> (B2R a - B2R b) * (1 + delta) < bpow 972 ->
  is_fin (Prim2SF (a - b)) = true /\
  (B2R a - B2R b) * (1 - 3 * delta) <= B2R (a - b) <= (B2R a - B2R b) * (1 + delta).
Proof.
  intros Fa Fb H Hsmall.
  destruct (width_pos b a Fb Fa H) as (m & e & E & Hm & Hbnd).
  destruct (finish_value _ _ _ _ E ltac:(lia) ltac:(lra)) as [F V].
  rewrite V. split; assumption.
Qed.

Lemma B2R_65535 : B2R 65535 = 65535.
Proof. unfold B2R. rewrite Prim2SF_65535. apply SF2R_c65535. Qed.

Lemma fin_65535 : is_fin (Prim2SF 65535) = true.
Proof. reflexivity. Qed.

Lemma mul_65535_value a :
  is_fin (Prim2SF a) = true -> 0 < B2R a ->
  65535 * B2R a * (1 + delta) < bpow 972 ->
  is_fin (Prim2SF (65535 * a)) = true /\
  65535 * B2R a * (1 - 3 * delta) <= B2R (65535 * a) <= 65535 * B2R a * (1 + delta).
Proof.
  intros Fa Ha Hsmall.
  destruct (positive_finite a Fa Ha) as (ma & ea & Ea & Va).
  assert (V : is_valid (S754_finite false ma ea)) by (rewrite <- Ea; apply Prim2SF_valid).
  destruct (SFmul_65535_pos ma ea V) as (m & e & E & Hm & Hbnd).
  cbn [SF2R cond_Zopp] in Hbnd. rewrite <- Va in Hbnd.
  assert (Ep : Prim2SF (65535 * a) = finish false m e).
  { rewrite mul_spec, Prim2SF_65535. unfold SF64mul. rewrite Ea. exact E. }
  destruct (finish_value _ _ _ _ Ep ltac:(lia) ltac:(lra)) as [F W].
  rewrite W. split; assumption.
Qed.

Lemma py_int_value x :
  is_fin (Prim2SF x) = true -> 0 <= B2R x ->
  exists r, py_int x = Ok r /\ (0 <= r)%Z /\ IZR r <= B2R x < IZR r + 1.
Proof.
  intros F H. unfold B2R in *.
  destruct (Prim2SF x) as [s|s| |s m e] eqn:E; try discriminate.
  - exists 0%Z. unfold py_int. rewrite E. cbn [SF2R]. split; [reflexivity|]. split; [lia|lra].
  - cbn [SF2R] in H. rewrite IZR_cond_Zopp in H.
    assert (Hp := bpow_gt_0 e). assert (0 < IZR (Zpos m)) by (apply IZR_lt; lia).
    destruct s; [nra|].
    destruct (py_int_finite x m e E) as (r & Er & Hr0 & Hr).
    exists r. cbn [SF2R cond_Zopp]. auto.
Qed.

(** The encoder against the exact quotient [65535 * (c - lo) / (hi - lo)]:
    the code returns its integer part up to the rounding of the three
    operations. *)
Lemma scale_quotient c lo hi :
  is_fin (Prim2SF c) = true -> is_fin (Prim2SF lo) = true -> is_fin (Prim2SF hi) = true ->
  B2R lo <= B2R c <= B2R hi -> B2R lo < B2R hi -> B2R hi - B2R lo < bpow 901 ->
  exists n,
    py_int (65535 * (c - lo) / (hi - lo)) = Ok n /\ (0 <= n <= 65535)%Z /\
    IZR n * (B2R hi - B2R lo)
      <= 65535 * (B2R c - B2R lo) * (1 + 8 * delta) + eta * (B2R hi - B2R lo) /\
    65535 * (B2R c - B2R lo) * (1 - 10 * delta) - eta * (B2R hi - B2R lo)
      < (IZR n + 1) * (B2R hi - B2R lo).
Proof.
  intros Fc Flo Fhi Hc Hw Hbig.
  destruct delta_small as [Hd0 Hd1]. destruct eta_small as [Ht0 Ht1].
  assert (H972 := bpow_972). assert (H902 := bpow_902). assert (H901 := bpow_901).
  assert (Hp900 := bpow_gt_0 900).
  set (W := B2R hi - B2R lo) in *. set (A := B2R c - B2R lo) in *.
  assert (HA : 0 <= A <= W) by (unfold A, W; lra).
  destruct (Req_dec (B2R c) (B2R lo)) as [E|NE].
  - exists 0%Z. split; [apply scale_zero_num; assumption|]. split; [lia|].
    assert (HA1 : A = 0) by (unfold A; lra).
    assert (0 < eta * W) by (apply Rmult_lt_0_compat; unfold W; lra).
    rewrite HA1. split; simpl; lra.
  - assert (HA0 : 0 < A) by (unfold A; lra).
    destruct (sub_pos_value c lo Fc Flo ltac:(lra) ltac:(fold A; nra)) as [Fn Hn].
    destruct (sub_pos_value hi lo Fhi Flo Hw ltac:(fold W; nra)) as [Fw Hwf].
    fold A in Hn. fold W in Hwf.
    set (N := B2R (c - lo)) in *. set (Wf := B2R (hi - lo)) in *.
    assert (HN0 : 0 < N) by nra.
    assert (HWf0 : 0 < Wf) by nra.
    destruct (mul_65535_value (c - lo) Fn HN0 ltac:(fold N; nra)) as [Fp Hp].
    fold N in Hp. set (P := B2R (65535 * (c - lo))) in *.
    assert (HP0 : 0 < P) by nra.
    set (x := P / Wf).
    assert (Hx : x * Wf = P) by (unfold x; field; lra).
    assert (Hx0 : 0 < x) by (unfold x; apply Rdiv_lt_0_compat; assumption).
    (* the exact quotient of the rounded operands against the ideal one *)
    assert (U1 : x * W * (1 - 3 * delta) <= 65535 * A * ((1 + delta) * (1 + delta))).
    { apply Rle_trans with (x * Wf); [|rewrite Hx; nra].
      rewrite Rmult_assoc. apply Rmult_le_compat_l; lra. }
    assert (U2 : 65535 * A * ((1 - 3 * delta) * (1 - 3 * delta)) <= x * W * (1 + delta)).
    { apply Rle_trans with (x * Wf); [rewrite Hx; nra|].
      rewrite Rmult_assoc. apply Rmult_le_compat_l; lra. }
    assert (HxW : 0 < x * W) by (apply Rmult_lt_0_compat; lra).
    set (u := x * W) in *.
    assert (U3 : u * (1 + delta) <= 65535 * A * (1 + 8 * delta)).
    { assert (K : 1 + delta <= (1 - 3 * delta) * (1 + 5 * delta)) by nra.
      apply Rle_trans with (u * (1 - 3 * delta) * (1 + 5 * delta)).
      { rewrite (Rmult_assoc u). apply Rmult_le_compat_l; lra. }
      apply Rle_trans with (65535 * A * ((1 + delta) * (1 + delta)) * (1 + 5 * delta)).
      - apply Rmult_le_compat_r; lra.
      - assert (0 <= 65535 * A) by lra.
        assert ((1 + delta) * (1 + delta) * (1 + 5 * delta) <= 1 + 8 * delta) by nra.
        rewrite Rmult_assoc. apply Rmult_le_compat_l; lra. }
    assert (U4 : 65535 * A * (1 - 10 * delta) <= u * (1 - delta) * (1 - 2 * delta)).
    { assert (K : (1 + delta) * (1 - 4 * delta) <= (1 - delta) * (1 - 2 * delta)) by nra.
      apply Rle_trans with (u * (1 + delta) * (1 - 4 * delta)).
      2:{ rewrite !(Rmult_assoc u). apply Rmult_le_compat_l; lra. }
      apply Rle_trans with (65535 * A * ((1 - 3 * delta) * (1 - 3 * delta)) * (1 - 4 * delta)).
      - assert (0 <= 65535 * A) by lra.
        assert (1 - 10 * delta <= (1 - 3 * delta) * (1 - 3 * delta) * (1 - 4 * delta)) by nra.
        rewrite (Rmult_assoc (65535 * A)). apply Rmult_le_compat_l; lra.
      - apply Rmult_le_compat_r; lra. }
    assert (Hxs : x <= 65536).
    { assert (Hu : u <= 65536 * W).
      { assert (K : 65535 * A * (1 + 8 * delta) <= 65536 * W).
        { assert (0 <= (W - A) * delta) by (apply Rmult_le_pos; lra).
          assert (0 <= W * (/ 1000000000 - delta)) by (apply Rmult_le_pos; lra).
          lra. }
        assert (K2 : u <= u * (1 + delta)) by (clear - HxW Hd0; nra).
        lra. }
      apply Rmult_le_reg_r with W; [lra|]. exact Hu. }
    assert (Hge1 : 1 <= bpow 900) by (apply bpow_ge_1; lia).
    assert (Hxd : x * delta <= 65536 * delta) by (apply Rmult_le_compat_r; lra).
    destruct (div_pos_value (65535 * (c - lo)) (hi - lo) Fp Fw HP0 HWf0
                ltac:(fold P Wf x; lra))
      as (Fq & Hq0 & Hq).
    fold P Wf x in Hq.
    destruct (py_int_value _ Fq Hq0) as (n & En & Hn0 & Hfl).
    set (Q := B2R (65535 * (c - lo) / (hi - lo))) in *.
    exists n. split; [exact En|].
    assert (HW0 : 0 < W) by lra.
    assert (B1 : IZR n * W <= 65535 * A * (1 + 8 * delta) + eta * W).
    { apply Rle_trans with ((x * (1 + delta) + eta) * W).
      - apply Rmult_le_compat_r; lra.
      - replace ((x * (1 + delta) + eta) * W) with (u * (1 + delta) + eta * W)
          by (unfold u; ring).
        lra. }
    assert (B2 : 65535 * A * (1 - 10 * delta) - eta * W < (IZR n + 1) * W).
    { apply Rle_lt_trans with ((x * (1 - delta) - eta) * (1 - 2 * delta) * W).
      - replace ((x * (1 - delta) - eta) * (1 - 2 * delta) * W)
          with (u * (1 - delta) * (1 - 2 * delta) - eta * W * (1 - 2 * delta))
          by (unfold u; ring).
        assert (eta * W * (1 - 2 * delta) <= eta * W).
        { assert (0 < eta * W) by (apply Rmult_lt_0_compat; lra).
          clear - H Hd0. nra. }
        lra.
      - apply Rmult_lt_compat_r; lra. }
    split; [|split; assumption].
    split; [exact Hn0|].
    assert (IZR n < 65536).
    { apply Rmult_lt_reg_r with W; [exact HW0|].
      assert (0 <= (W - A) * delta) by (apply Rmult_le_pos; lra).
      assert (0 <= W * (/ 1000000000 - delta)) by (apply Rmult_le_pos; lra).
      assert (0 <= W * (/ 4 - eta)) by (apply Rmult_le_pos; lra).
      lra. }
    assert (Hlt : (n < 65536)%Z) by (apply lt_IZR; assumption). lia.
Qed.

(** The product [float(n) / 65535.0 * (hi - lo)] of the decoder against the
    exact [n * (hi - lo) / 65535]. *)
Lemma unscale_product n lo hi :
  is_fin (Prim2SF lo) = true -> is_fin (Prim2SF hi) = true ->
  B2R lo < B2R hi -> B2R hi - B2R lo < bpow 901 -> (0 <= n <= 65535)%Z ->
  let G := IZR n * (B2R hi - B2R lo) / 65535 in
  is_fin (Prim2SF (py_float n / 65535 * (hi - lo))) = true /\
  0 <= B2R (py_float n / 65535 * (hi - lo)) /\
  G * (1 - 10 * delta) - eta <= B2R (py_float n / 65535 * (hi - lo))
    <= G * (1 + 6 * delta) + eta.
Proof.
  intros Flo Fhi Hw Hbig Hn G.
  destruct delta_small as [Hd0 Hd1]. destruct eta_small as [Ht0 Ht1].
  assert (Hed := eta_delta).
  assert (H972 := bpow_972). assert (H902 := bpow_902). assert (H901 := bpow_901).
  assert (Hge1 : 1 <= bpow 900) by (apply bpow_ge_1; lia).
  set (W := B2R hi - B2R lo) in *.
  assert (HW0 : 0 < W) by (unfold W; lra).
  assert (HWd : W * delta <= W * / 1000000000) by (apply Rmult_le_compat_l; lra).
  destruct (sub_pos_value hi lo Fhi Flo Hw ltac:(fold W; lra)) as [Fw Hwf].
  fold W in Hwf. set (Wf := B2R (hi - lo)) in *.
  assert (HWf0 : 0 < Wf) by lra.
  destruct (py_float_spec n Hn) as [[-> E0]|(m0 & e0 & E0 & V0)].
  - (* n = 0: every intermediate value is a zero *)
    assert (E1 : Prim2SF (py_float 0 / 65535) = S754_zero false).
    { rewrite div_spec, E0, Prim2SF_65535. reflexivity. }
    assert (E2 : exists s, Prim2SF (py_float 0 / 65535 * (hi - lo)) = S754_zero s).
    { rewrite mul_spec, E1. unfold SF64mul.
      destruct (Prim2SF (hi - lo)) as [s|s| |s m e]; try discriminate; cbn [SFmul]; eauto. }
    destruct E2 as [s E2]. unfold G, B2R. rewrite E2. cbn [is_fin SF2R].
    split; [reflexivity|]. split; [lra|]. rewrite Rmult_0_l. unfold Rdiv. rewrite !Rmult_0_l. lra.
  - assert (Hn1 : 1 <= IZR n).
    { apply IZR_le. assert (0 < IZR n) by (rewrite <- V0; apply Rmult_lt_0_compat;
        [apply IZR_lt; lia|apply bpow_gt_0]). apply lt_IZR in H. lia. }
    assert (Hn2 : IZR n <= 65535) by (apply IZR_le; lia).
    assert (F0 : is_fin (Prim2SF (py_float n)) = true) by (rewrite E0; reflexivity).
    assert (B0 : B2R (py_float n) = IZR n).
    { unfold B2R. rewrite E0. cbn [SF2R cond_Zopp]. exact V0. }
    set (x1 := IZR n / 65535).
    assert (Hx1 : / 65535 <= x1 <= 1) by (unfold x1; lra).
    assert (Hx1d : x1 * delta <= delta) by (clear - Hx1 Hd0; nra).
    destruct (div_pos_value (py_float n) 65535 F0 fin_65535)
      as (F1 & _ & H1); [rewrite B0; lra|rewrite B2R_65535; lra| |].
    { rewrite B0, B2R_65535. fold x1. lra. }
    rewrite B0, B2R_65535 in H1. fold x1 in H1.
    set (f1 := B2R (py_float n / 65535)) in *.
    assert (H1' : x1 * (1 - 4 * delta) <= f1 <= x1 * (1 + 2 * delta)).
    { assert (eta <= x1 * delta).
      { apply Rle_trans with (/ 65535 * delta); [lra|]. apply Rmult_le_compat_r; lra. }
      split; [|lra].
      apply Rle_trans with (x1 * (1 - 2 * delta) * (1 - 2 * delta)).
      - assert (0 <= x1 * (delta * delta)) by (clear - Hx1 Hd0; nra). lra.
      - apply Rle_trans with ((x1 * (1 - delta) - eta) * (1 - 2 * delta)); [|lra].
        apply Rmult_le_compat_r; lra. }
    assert (Hf1 : 0 < f1).
    { apply Rlt_le_trans with (x1 * (1 - 4 * delta)); [|lra].
      apply Rmult_lt_0_compat; lra. }
    assert (Hf1b : f1 <= 2) by lra.
    set (P := f1 * Wf).
    assert (HP : G * (1 - 7 * delta) <= P <= G * (1 + 4 * delta)).
    { assert (EG : G = x1 * W) by (unfold G, x1; field).
      assert (Hx1W : 0 < x1 * W) by (apply Rmult_lt_0_compat; lra).
      rewrite EG. unfold P. split.
      - apply Rle_trans with (x1 * (1 - 4 * delta) * (W * (1 - 3 * delta))).
        + assert (K : 1 - 7 * delta <= (1 - 4 * delta) * (1 - 3 * delta)) by (clear - Hd0; nra).
          replace (x1 * (1 - 4 * delta) * (W * (1 - 3 * delta)))
            with (x1 * W * ((1 - 4 * delta) * (1 - 3 * delta))) by ring.
          apply Rmult_le_compat_l; lra.
        + apply Rmult_le_compat; try lra; apply Rmult_le_pos; lra.
      - apply Rle_trans with (x1 * (1 + 2 * delta) * (W * (1 + delta))).
        + apply Rmult_le_compat; lra.
        + assert (K : (1 + 2 * delta) * (1 + delta) <= 1 + 4 * delta) by (clear - Hd0 Hd1; nra).
          replace (x1 * (1 + 2 * delta) * (W * (1 + delta)))
            with (x1 * W * ((1 + 2 * delta) * (1 + delta))) by ring.
          apply Rmult_le_compat_l; lra. }
    assert (HG : 0 < G <= W).
    { assert (EG : G = x1 * W) by (unfold G, x1; field). rewrite EG. split.
      - apply Rmult_lt_0_compat; lra.
      - clear - Hx1 HW0. nra. }
    assert (HGd : G * delta <= W * delta) by (apply Rmult_le_compat_r; lra).
    destruct (mul_pos_value (py_float n / 65535) (hi - lo) F1 Fw Hf1 HWf0)
      as (F2 & H20 & H2).
    { fold f1 Wf P.
      assert (HPb : P <= 2 * W) by lra.
      assert (HPd : P * delta <= 2 * W * delta) by (apply Rmult_le_compat_r; lra).
      lra. }
    fold f1 Wf P in H2.
    split; [exact F2|]. split; [exact H20|].
    set (f2 := B2R (py_float n / 65535 * (hi - lo))) in *.
    split.
    + apply Rle_trans with ((P * (1 - delta) - eta) * (1 - 2 * delta)); [|lra].
      assert (K1 : G * (1 - 7 * delta) * (1 - delta) <= P * (1 - delta))
        by (apply Rmult_le_compat_r; lra).
      assert (K2 : G * (1 - 8 * delta) <= G * (1 - 7 * delta) * (1 - delta))
        by (clear - HG Hd0; nra).
      assert (K3 : (G * (1 - 8 * delta) - eta) * (1 - 2 * delta)
                   <= (P * (1 - delta) - eta) * (1 - 2 * delta))
        by (apply Rmult_le_compat_r; lra).
      assert (K4 : G * (1 - 10 * delta) - eta <= (G * (1 - 8 * delta) - eta) * (1 - 2 * delta))
        by (clear - HG Hd0 Ht0; nra).
      lra.
    + assert (K1 : P * (1 + delta) <= G * (1 + 4 * delta) * (1 + delta))
        by (apply Rmult_le_compat_r; lra).
      assert (K2 : G * (1 + 4 * delta) * (1 + delta) <= G * (1 + 6 * delta)).
      { assert (K : (1 + 4 * delta) * (1 + delta) <= 1 + 6 * delta) by (clear - Hd0 Hd1; nra).
        rewrite Rmult_assoc. apply Rmult_le_compat_l; lra. }
      lra.
Qed.

(** The decoder against the exact affine map [n * (hi - lo) / 65535 + lo]. *)
Lemma unscale_close n lo hi :
  is_fin (Prim2SF lo) = true -> is_fin (Prim2SF hi) = true ->
  B2R lo < B2R hi -> - bpow 900 < B2R lo -> B2R hi < bpow 900 ->
  (0 <= n <= 65535)%Z ->
  is_fin (Prim2SF (unscale_u16_to_float n lo hi)) = true /\
  Rabs (B2R (unscale_u16_to_float n lo hi)
        - (IZR n * (B2R hi - B2R lo) / 65535 + B2R lo))
    <= 19 * delta * (Rabs (B2R lo) + Rabs (B2R hi)) + 2 * eta.
Proof.
  intros Flo Fhi Hw HL HH Hn.
  destruct delta_small as [Hd0 Hd1]. destruct eta_small as [Ht0 Ht1].
  assert (H972 := bpow_972). assert (H902 := bpow_902). assert (H901 := bpow_901).
  assert (Hge1 : 1 <= bpow 900) by (apply bpow_ge_1; lia).
  set (L := B2R lo) in *. set (H := B2R hi) in *.
  assert (HaL : L <= Rabs L /\ - L <= Rabs L).
  { split; [apply Rle_abs|]. rewrite <- Rabs_Ropp. apply Rle_abs. }
  assert (HaH : H <= Rabs H /\ - H <= Rabs H).
  { split; [apply Rle_abs|]. rewrite <- Rabs_Ropp. apply Rle_abs. }
  assert (HaLb : Rabs L < bpow 900) by (apply Rabs_def1; lra).
  set (aL := Rabs L) in *. set (aH := Rabs H) in *.
  assert (Hbig : H - L < bpow 901) by lra.
  destruct (unscale_product n lo hi Flo Fhi Hw Hbig Hn) as (F2 & H20 & H2).
  fold L H in H2. cbv zeta in H2.
  set (W := H - L) in *. set (G := IZR n * W / 65535) in *.
  assert (HW0 : 0 < W) by (unfold W; lra).
  assert (HWM : W <= aL + aH) by (unfold W; lra).
  assert (HG : 0 <= G <= W).
  { unfold G. assert (0 <= IZR n <= 65535) by (split; apply IZR_le; lia).
    assert (0 <= IZR n * W) by (apply Rmult_le_pos; lra).
    assert (IZR n * W <= 65535 * W) by (apply Rmult_le_compat_r; lra).
    lra. }
  assert (HGd : G * delta <= W * delta) by (apply Rmult_le_compat_r; lra).
  assert (HWd : W * delta <= W * / 1000000000) by (apply Rmult_le_compat_l; lra).
  unfold unscale_u16_to_float.
  set (p := (py_float n / 65535 * (hi - lo))%float) in *.
  set (f2 := B2R p) in *.
  assert (Hf2 : f2 <= 2 * W + eta) by lra.
  set (S := f2 + L).
  assert (HS : Rabs S <= f2 + aL) by (apply Rabs_le; unfold S; lra).
  assert (HSd : Rabs S * delta <= (f2 + aL) * delta) by (apply Rmult_le_compat_r; lra).
  assert (Hed : eta * delta <= eta * / 1000000000) by (apply Rmult_le_compat_l; lra).
  assert (HaLd : aL * delta <= bpow 900 * delta) by (apply Rmult_le_compat_r; lra).
  assert (Hbd : bpow 900 * delta <= bpow 900 * / 1000000000)
    by (apply Rmult_le_compat_l; lra).
  assert (Hf2d : f2 * delta <= (2 * W + eta) * delta) by (apply Rmult_le_compat_r; lra).
  destruct (add_value p lo F2 Flo) as [FD HD].
  { fold f2 L S. lra. }
  fold f2 L S in HD. split; [exact FD|].
  set (D := B2R (p + lo)) in *.
  assert (HD1 : D - S <= Rabs (D - S)) by apply Rle_abs.
  assert (HD2 : - (D - S) <= Rabs (D - S)) by (rewrite <- Rabs_Ropp; apply Rle_abs).
  assert (HWMd : W * delta <= (aL + aH) * delta) by (apply Rmult_le_compat_r; lra).
  assert (HaLM : aL * delta <= (aL + aH) * delta) by (apply Rmult_le_compat_r; lra).
  apply Rabs_le. unfold S in *. lra.
Qed.

Lemma leb_true_fin x y :
  is_fin (Prim2SF x) = true -> is_fin (Prim2SF y) = true ->
  (x <=? y)%float = true -> B2R x <= B2R y.
Proof.
  intros Fx Fy. rewrite leb_spec. unfold SFleb.
  assert (H := SFcompare_fin _ _ Fx Fy (Prim2SF_valid x) (Prim2SF_valid y)).
  unfold B2R. destruct (SFcompare (Prim2SF x) (Prim2SF y)) as [[| |]|];
    try discriminate; intros _; lra.
Qed.

(** A float between two finite floats is finite. *)
Lemma between_finite v lo hi :
  is_fin (Prim2SF lo) = true -> is_fin (Prim2SF hi) = true ->
  (lo <=? v)%float = true -> (v <=? hi)%float = true ->
  is_fin (Prim2SF v) = true.
Proof.
  intros Flo Fhi. rewrite !leb_spec. unfold SFleb.
  destruct (Prim2SF v) as [s|[|]| |s m e]; try reflexivity.
  - destruct (Prim2SF lo) as [s1|s1| |s1 m1 e1]; try discriminate Flo;
      cbn; discriminate.
  - intros _. destruct (Prim2SF hi) as [s1|s1| |s1 m1 e1]; try discriminate Fhi;
      cbn; discriminate.
  - destruct (Prim2SF lo) as [s1|s1| |s1 m1 e1]; cbn; discriminate.
Qed.

(** Inside the range [np.clip] returns its input, up to the sign of zero. *)
Lemma np_clip_id v lo hi :
  is_fin (Prim2SF v) = true -> is_fin (Prim2SF lo) = true -> is_fin (Prim2SF hi) = true ->
  B2R lo <= B2R v <= B2R hi ->
  is_fin (Prim2SF (np_clip v lo hi)) = true /\ B2R (np_clip v lo hi) = B2R v.
Proof.
  intros Fv Flo Fhi [H1 H2].
  unfold np_clip, np_maximum, np_minimum.
  rewrite (is_fin_not_nan _ Fv), (is_fin_not_nan _ Flo), (is_fin_not_nan _ Fhi).
  cbn [orb].
  destruct (v <? lo)%float eqn:E1.
  - apply ltb_true_fin in E1; try assumption. lra.
  - rewrite (is_fin_not_nan _ Fv). destruct (v <? hi)%float eqn:E2.
    + split; [exact Fv|reflexivity].
    + apply ltb_false_fin in E2; try assumption. split; [exact Fhi|lra].
Qed.

Lemma bpow_m900 : B2R (-0x1p+900) = - bpow 900.
Proof.
  unfold B2R.
  replace (Prim2SF (-0x1p+900)) with (S754_finite true 4503599627370496 848) by reflexivity.
  cbn [SF2R]. rewrite IZR_cond_Zopp.
  replace 4503599627370496%Z with (2 ^ 52)%Z by reflexivity.
  rewrite <- bpow_IZR by lia.
  replace 900%Z with (52 + 848)%Z by lia. rewrite bpow_add. lra.
Qed.

Lemma fin_m900 : is_fin (Prim2SF (-0x1p+900)) = true.
Proof. reflexivity. Qed.

(** The round trip through the codec in binary64: within one step plus the
    rounding of the seven operations. *)
Theorem round_trip_bound v lo hi :
  is_finite lo = true -> is_finite hi = true -> (lo <? hi)%float = true ->
  (-0x1p+900 <? lo)%float = true -> (hi <? 0x1p+900)%float = true ->
  (lo <=? v)%float = true -> (v <=? hi)%float = true ->
  exists n,
    scale_value_to_u16 v lo hi = Ok n /\ (0 <= n <= 65535)%Z /\
    is_finite (unscale_u16_to_float n lo hi) = true /\
    Rabs (B2R (unscale_u16_to_float n lo hi) - B2R v)
      <= (B2R hi - B2R lo) / 65535
         + bpow (-48) * (Rabs (B2R lo) + Rabs (B2R hi)) + bpow emin.
Proof.
  intros Flo Fhi Hlt Hlo Hhi H1 H2.
  apply is_finite_spec in Flo, Fhi.
  assert (Fv := between_finite v lo hi Flo Fhi H1 H2).
  apply leb_true_fin in H1, H2; try assumption.
  apply ltb_true_fin in Hlt; try assumption.
  apply ltb_true_fin in Hlo; [|exact fin_m900|exact Flo].
  apply ltb_true_fin in Hhi; [|exact Fhi|exact fin_900].
  rewrite bpow_m900 in Hlo. rewrite bpow_900 in Hhi.
  destruct (np_clip_id v lo hi Fv Flo Fhi (conj H1 H2)) as [Fc Ec].
  destruct (scale_quotient (np_clip v lo hi) lo hi Fc Flo Fhi ltac:(lra) Hlt ltac:(rewrite bpow_901; lra))
    as (n & En & Hn & Q1 & Q2).
  rewrite Ec in Q1, Q2.
  destruct (unscale_close n lo hi Flo Fhi Hlt Hlo Hhi Hn) as [FD HD].
  exists n. split; [exact En|]. split; [exact Hn|]. split.
  { unfold is_finite. rewrite (is_fin_not_nan _ FD), (is_infinity_false _ FD). reflexivity. }
  destruct delta_small as [Hd0 Hd1]. destruct eta_small as [Ht0 Ht1].
  assert (Hed := eta_delta).
  assert (E48 : bpow (-48) = 32 * delta).
  { unfold delta. replace (-48)%Z with (5 + - prec)%Z by (unfold prec; lia).
    rewrite bpow_add. replace (bpow 5) with 32 by (rewrite bpow_IZR by lia; reflexivity).
    reflexivity. }
  assert (Emin : bpow emin = 2 * eta).
  { unfold eta. rewrite bpow_pred. lra. }
  rewrite E48, Emin.
  set (L := B2R lo) in *. set (H := B2R hi) in *. set (V := B2R v) in *.
  set (D := B2R (unscale_u16_to_float n lo hi)) in *.
  assert (HaL : L <= Rabs L /\ - L <= Rabs L).
  { split; [apply Rle_abs|]. rewrite <- Rabs_Ropp. apply Rle_abs. }
  assert (HaH : H <= Rabs H /\ - H <= Rabs H).
  { split; [apply Rle_abs|]. rewrite <- Rabs_Ropp. apply Rle_abs. }
  set (aL := Rabs L) in *. set (aH := Rabs H) in *.
  set (W := H - L) in *. set (A := V - L) in *.
  set (G := IZR n * W / 65535) in *.
  assert (HW0 : 0 < W) by (unfold W; lra).
  assert (HA : 0 <= A <= W) by (unfold A, W; lra).
  assert (HWM : W <= aL + aH) by (unfold W; lra).
  assert (HD1 : D - (G + L) <= Rabs (D - (G + L))) by apply Rle_abs.
  assert (HD2 : - (D - (G + L)) <= Rabs (D - (G + L))) by (rewrite <- Rabs_Ropp; apply Rle_abs).
  assert (HAd : A * delta <= W * delta) by (apply Rmult_le_compat_r; lra).
  assert (HWd : W * delta <= (aL + aH) * delta) by (apply Rmult_le_compat_r; lra).
  assert (HeW : eta * W <= delta * W) by (apply Rmult_le_compat_r; lra).
  assert (EG : 65535 * G = IZR n * W) by (unfold G; field).
  assert (EnW : (IZR n + 1) * W = IZR n * W + W) by ring.
  assert (HAp : 0 <= A * delta) by (apply Rmult_le_pos; lra).
  assert (Hep : 0 <= eta * W) by (apply Rmult_le_pos; lra).
  apply Rabs_le. unfold A in *. lra.
Qed.

(** [F2Q] and [B2R] give the same number. *)
Lemma Q2R_F2Q x : Q2R (F2Q x) = B2R x.
Proof.
  unfold F2Q, B2R. destruct (Prim2SF x) as [s|s| |s m e]; cbn [SF2R];
    try (unfold Q2R; simpl; lra).
  destruct (Z.leb_spec 0 e) as [He|He].
  - unfold Q2R, inject_Z. cbn [Qnum Qden].
    rewrite mult_IZR, <- bpow_IZR by lia. rewrite Rinv_1. lra.
  - unfold Q2R. cbn [Qnum Qden].
    rewrite Pos2Z.inj_pow, Z2Pos.id by lia.
    rewrite <- bpow_IZR by lia. rewrite <- bpow_opp, Z.opp_involutive. reflexivity.
Qed.

Lemma Q2R_Qabs q : Q2R (Qabs q) = Rabs (Q2R q).
Proof.
  destruct (Qlt_le_dec q 0) as [H|H].
  - rewrite Qabs_neg by (apply Qlt_le_weak; exact H).
    rewrite Q2R_opp. apply Qlt_Rlt in H. rewrite RMicromega.Q2R_0 in H.
    rewrite Rabs_left by exact H. reflexivity.
  - rewrite Qabs_pos by exact H.
    apply Qle_Rle in H. rewrite RMicromega.Q2R_0 in H.
    rewrite Rabs_right by lra. reflexivity.
Qed.


(** ** The order of binary64 values, infinities included *)

Lemma finite_below_1024 s m e :
  is_valid (S754_finite s m e) -> - bpow 1024 < SF2R (S754_finite s m e) < bpow 1024.
Proof.
  intros V. destruct (valid_finite _ _ _ V) as (He & Hd & _).
  assert (Hm := digits2_bpow m). assert (Hp := bpow_gt_0 e).
  assert (H53 : bpow (Zpos (digits2_pos m)) <= bpow 53) by (apply bpow_le; unfold prec in Hd; lia).
  assert (H971 : bpow e <= bpow 971) by (apply bpow_le; unfold emax, prec in He; lia).
  assert (E : bpow 1024 = bpow 53 * bpow 971) by (rewrite <- bpow_add; reflexivity).
  assert (Hm0 : 0 < IZR (Zpos m)) by (apply IZR_lt; lia).
  assert (Hv : IZR (Zpos m) * bpow e < bpow 1024).
  { rewrite E. apply Rlt_le_trans with (bpow 53 * bpow e).
    - apply Rmult_lt_compat_r; lra.
    - apply Rmult_le_compat_l; [|exact H971]. left. apply bpow_gt_0. }
  cbn [SF2R]. rewrite IZR_cond_Zopp. destruct s; nra.
Qed.

(** [SFcompare] on data that are not NaN is the order of the extended
    real line. *)
Lemma compare_ordR x y :
  is_nan x = false -> is_nan y = false ->
  match SFcompare (Prim2SF x) (Prim2SF y) with
  | Some Lt => ordR x < ordR y
  | Some Eq => ordR x = ordR y
  | Some Gt => ordR y < ordR x
  | None => False
  end.
Proof.
  intros Nx Ny. apply is_nan_spec in Nx, Ny.
  assert (Vx := Prim2SF_valid x). assert (Vy := Prim2SF_valid y).
  assert (Hp := bpow_gt_0 1024).
  unfold ordR.
  destruct (Prim2SF x) as [sx|sx| |sx mx ex] eqn:Ex; try congruence;
  destruct (Prim2SF y) as [sy|sy| |sy my ey] eqn:Ey; try congruence.
  - exact (SFcompare_fin (S754_zero sx) (S754_zero sy) eq_refl eq_refl Vx Vy).
  - destruct sy; cbn [SFcompare SF2R]; lra.
  - exact (SFcompare_fin (S754_zero sx) (S754_finite sy my ey) eq_refl eq_refl Vx Vy).
  - destruct sx; cbn [SFcompare SF2R]; lra.
  - destruct sx, sy; cbn [SFcompare SF2R]; lra.
  - pose proof (finite_below_1024 _ _ _ Vy). destruct sx; cbn [SFcompare]; lra.
  - exact (SFcompare_fin (S754_finite sx mx ex) (S754_zero sy) eq_refl eq_refl Vx Vy).
  - pose proof (finite_below_1024 _ _ _ Vx). destruct sy; cbn [SFcompare]; lra.
  - exact (SFcompare_fin (S754_finite sx mx ex) (S754_finite sy my ey) eq_refl eq_refl Vx Vy).
Qed.

Lemma ltb_ordR x y :
  is_nan x = false -> is_nan y = false ->
  if (x <? y)%float then ordR x < ordR y else ordR y <= ordR x.
Proof.
  intros Nx Ny. assert (H := compare_ordR x y Nx Ny).
  rewrite FloatAxioms.ltb_spec. unfold SFltb.
  destruct (SFcompare (Prim2SF x) (Prim2SF y)) as [[| |]|]; try contradiction; lra.
Qed.

Lemma leb_ordR x y :
  is_nan x = false -> is_nan y = false ->
  if (x <=? y)%float then ordR x <= ordR y else ordR y < ordR x.
Proof.
  intros Nx Ny. assert (H := compare_ordR x y Nx Ny).
  rewrite leb_spec. unfold SFleb.
  destruct (SFcompare (Prim2SF x) (Prim2SF y)) as [[| |]|]; try contradiction; lra.
Qed.

Lemma ltb_of_ordR x y :
  is_nan x = false -> is_nan y = false -> ordR x < ordR y -> (x <? y)%float = true.
Proof.
  intros Nx Ny H. assert (K := ltb_ordR x y Nx Ny).
  destruct (x <? y)%float; [reflexivity|lra].
Qed.

Lemma ltb_false_of_ordR x y :
  is_nan x = false -> is_nan y = false -> ordR y <= ordR x -> (x <? y)%float = false.
Proof.
  intros Nx Ny H. assert (K := ltb_ordR x y Nx Ny).
  destruct (x <? y)%float; [lra|reflexivity].
Qed.

Lemma leb_of_ordR x y :
  is_nan x = false -> is_nan y = false -> ordR x <= ordR y -> (x <=? y)%float = true.
Proof.
  intros Nx Ny H. assert (K := leb_ordR x y Nx Ny).
  destruct (x <=? y)%float; [reflexivity|lra].
Qed.

Lemma is_finite_not_nan x : is_finite x = true -> is_nan x = false.
Proof. intros H. apply is_fin_not_nan, is_finite_spec, H. Qed.

Lemma ordR_fin x : is_fin (Prim2SF x) = true -> ordR x = B2R x.
Proof.
  unfold ordR, B2R. destruct (Prim2SF x) as [s|s| |s m e]; try discriminate; reflexivity.
Qed.

Lemma ordR_fin_bounds x :
  is_fin (Prim2SF x) = true -> - bpow 1024 < ordR x < bpow 1024.
Proof.
  intros F. assert (V := Prim2SF_valid x). unfold ordR.
  assert (Hp := bpow_gt_0 1024).
  destruct (Prim2SF x) as [s|s| |s m e]; try discriminate.
  - cbn [SF2R]. lra.
  - apply finite_below_1024. exact V.
Qed.

Lemma fin_of_ordR x :
  is_nan x = false -> - bpow 1024 < ordR x < bpow 1024 -> is_fin (Prim2SF x) = true.
Proof.
  intros N. apply is_nan_spec in N. unfold ordR.
  destruct (Prim2SF x) as [s|[|]| |s m e]; try reflexivity; try congruence; lra.
Qed.

(** [np.clip] saturates: at or below the range it returns a value equal to
    [lo], at or above it returns [hi] itself. *)
Lemma np_clip_below v lo hi :
  is_nan v = false -> is_finite lo = true -> is_finite hi = true ->
  (lo <? hi)%float = true -> (v <=? lo)%float = true ->
  is_fin (Prim2SF (np_clip v lo hi)) = true /\ B2R (np_clip v lo hi) = B2R lo.
Proof.
  intros Nv Flo Fhi Hlt Hle.
  assert (Nlo := is_finite_not_nan _ Flo). assert (Nhi := is_finite_not_nan _ Fhi).
  apply is_finite_spec in Flo, Fhi.
  assert (O1 := ltb_ordR lo hi Nlo Nhi). rewrite Hlt in O1.
  assert (O2 := leb_ordR v lo Nv Nlo). rewrite Hle in O2.
  unfold np_clip, np_maximum, np_minimum. rewrite Nv, Nlo, Nhi. cbn [orb].
  destruct (v <? lo)%float eqn:E.
  - rewrite Nlo, Hlt. auto.
  - assert (O3 := ltb_ordR v lo Nv Nlo). rewrite E in O3.
    rewrite Nv. rewrite (ltb_of_ordR v hi Nv Nhi ltac:(lra)).
    assert (Fv : is_fin (Prim2SF v) = true).
    { apply fin_of_ordR; [exact Nv|]. pose proof (ordR_fin_bounds lo Flo). lra. }
    split; [exact Fv|]. rewrite <- !ordR_fin by assumption. lra.
Qed.

Lemma np_clip_above v lo hi :
  is_nan v = false -> is_finite lo = true -> is_finite hi = true ->
  (lo <? hi)%float = true -> (hi <=? v)%float = true ->
  np_clip v lo hi = hi.
Proof.
  intros Nv Flo Fhi Hlt Hle.
  assert (Nlo := is_finite_not_nan _ Flo). assert (Nhi := is_finite_not_nan _ Fhi).
  assert (O1 := ltb_ordR lo hi Nlo Nhi). rewrite Hlt in O1.
  assert (O2 := leb_ordR hi v Nhi Nv). rewrite Hle in O2.
  unfold np_clip, np_maximum, np_minimum. rewrite Nv, Nlo, Nhi. cbn [orb].
  rewrite (ltb_false_of_ordR v lo Nv Nlo ltac:(lra)).
  rewrite Nv. rewrite (ltb_false_of_ordR v hi Nv Nhi ltac:(lra)). reflexivity.
Qed.

(** Decoding raw value 0 gives the lower end of the range, exactly. *)
Lemma unscale_zero lo hi :
  is_fin (Prim2SF lo) = true -> is_fin (Prim2SF hi) = true ->
  B2R lo < B2R hi -> B2R hi - B2R lo < bpow 901 ->
  B2R (unscale_u16_to_float 0 lo hi) = B2R lo.
Proof.
  intros Flo Fhi Hw Hbig.
  destruct delta_small as [Hd0 Hd1].
  assert (H972 := bpow_972). assert (H902 := bpow_902). assert (H901 := bpow_901).
  assert (Hge1 : 1 <= bpow 900) by (apply bpow_ge_1; lia).
  assert (HWd : (B2R hi - B2R lo) * delta <= (B2R hi - B2R lo) * / 1000000000)
    by (apply Rmult_le_compat_l; lra).
  destruct (sub_pos_value hi lo Fhi Flo Hw ltac:(lra)) as [Fw _].
  destruct (py_float_spec 0 ltac:(lia)) as [[_ E0]|(m0 & e0 & _ & V0)].
  2:{ exfalso. assert (Hp := bpow_gt_0 e0).
      assert (0 < IZR (Zpos m0)) by (apply IZR_lt; lia). nra. }
  assert (E1 : Prim2SF (py_float 0 / 65535) = S754_zero false).
  { rewrite div_spec, E0, Prim2SF_65535. reflexivity. }
  assert (E2 : exists s, Prim2SF (py_float 0 / 65535 * (hi - lo)) = S754_zero s).
  { rewrite mul_spec, E1. unfold SF64mul.
    destruct (Prim2SF (hi - lo)) as [s|s| |s m e]; try discriminate; cbn [SFmul]; eauto. }
  destruct E2 as [s E2].
  unfold unscale_u16_to_float, B2R. rewrite add_spec, E2. unfold SF64add.
  destruct (Prim2SF lo) as [sl|sl| |sl ml el]; try discriminate.
  - destruct s, sl; reflexivity.
  - reflexivity.
Qed.

(** *** The range tracker of [findangles.py] *)

Lemma py_min_spec a b :
  is_nan a = false ->
  is_nan (FindAngles.py_min a b) = false /\
  ordR (FindAngles.py_min a b) <= ordR a /\
  (is_nan b = false -> ordR (FindAngles.py_min a b) <= ordR b) /\
  (is_nan b = true -> FindAngles.py_min a b = a).
Proof.
  intros Na. unfold FindAngles.py_min. destruct (is_nan b) eqn:Nb.
  - rewrite (ltb_nan_l b a Nb). repeat split; auto; try lra; discriminate.
  - assert (H := ltb_ordR b a Nb Na). destruct (b <? a)%float.
    + repeat split; auto; try lra; discriminate.
    + repeat split; auto; try lra; discriminate.
Qed.

Lemma py_max_spec a b :
  is_nan a = false ->
  is_nan (FindAngles.py_max a b) = false /\
  ordR a <= ordR (FindAngles.py_max a b) /\
  (is_nan b = false -> ordR b <= ordR (FindAngles.py_max a b)) /\
  (is_nan b = true -> FindAngles.py_max a b = a).
Proof.
  intros Na. unfold FindAngles.py_max. destruct (is_nan b) eqn:Nb.
  - rewrite (ltb_nan_r a b Nb). repeat split; auto; try lra; discriminate.
  - assert (H := ltb_ordR a b Na Nb). destruct (a <? b)%float.
    + repeat split; auto; try lra; discriminate.
    + repeat split; auto; try lra; discriminate.
Qed.

(** The recorded range only widens, never holds a NaN, and contains every
    reading that was taken into account. *)
Lemma track_fold readings : forall r,
  is_nan (fst r) = false -> is_nan (snd r) = false ->
  let r' := fold_left (fun r p => FindAngles.track r (fst p) (snd p)) readings r in
  is_nan (fst r') = false /\ is_nan (snd r') = false /\
  ordR (fst r') <= ordR (fst r) /\ ordR (snd r) <= ordR (snd r') /\
  (forall rad v, In (Some rad, Some v) readings -> is_nan rad = false ->
   ordR (fst r') <= ordR rad <= ordR (snd r')) /\
  ((forall rad v, In (Some rad, Some v) readings -> is_nan rad = true) -> r' = r).
Proof.
  induction readings as [|[a v] rs IH]; intros r N1 N2; cbv zeta.
  - cbn [fold_left].
    split; [exact N1|]. split; [exact N2|]. split; [lra|]. split; [lra|].
    split; [intros rad v []|reflexivity].
  - cbn [fold_left fst snd].
    assert (S : is_nan (fst (FindAngles.track r a v)) = false /\
                is_nan (snd (FindAngles.track r a v)) = false /\
                ordR (fst (FindAngles.track r a v)) <= ordR (fst r) /\
                ordR (snd r) <= ordR (snd (FindAngles.track r a v)) /\
                (forall rad, a = Some rad -> v <> None -> is_nan rad = false ->
                 ordR (fst (FindAngles.track r a v)) <= ordR rad
                 <= ordR (snd (FindAngles.track r a v))) /\
                ((forall rad, a = Some rad -> v <> None -> is_nan rad = true) ->
                 FindAngles.track r a v = r)).
    { unfold FindAngles.track. destruct a as [x|], v as [vel|];
        try (split; [exact N1|]; split; [exact N2|]; split; [lra|]; split; [lra|];
             split; [intros rad E1 E2; congruence|reflexivity]).
      cbn [fst snd].
      destruct (py_min_spec (fst r) x N1) as (A1 & A2 & A3 & A4).
      destruct (py_max_spec (snd r) x N2) as (B1 & B2 & B3 & B4).
      split; [exact A1|]. split; [exact B1|]. split; [exact A2|]. split; [exact B2|].
      split.
      - intros rad E _ Hn. injection E as <-. split; [apply A3|apply B3]; exact Hn.
      - intros H. assert (Hn : is_nan x = true) by (apply (H x eq_refl); discriminate).
        rewrite (A4 Hn), (B4 Hn). destruct r; reflexivity. }
    destruct S as (S1 & S2 & S3 & S4 & S5 & S6).
    destruct (IH (FindAngles.track r a v) S1 S2) as (I1 & I2 & I3 & I4 & I5 & I6).
    cbv zeta in *.
    split; [exact I1|]. split; [exact I2|]. split; [lra|]. split; [lra|]. split.
    + intros rad v0 [E|Hin] Hn; [|apply (I5 rad v0 Hin Hn)].
      injection E as -> ->.
      destruct (S5 rad eq_refl ltac:(discriminate) Hn). lra.
    + intros H. rewrite I6.
      * apply S6. intros rad -> Hv. destruct v as [v0|]; [|congruence].
        apply (H rad v0). left. reflexivity.
      * intros rad v' Hin. apply (H rad v'). right. exact Hin.
Qed.

End Binary64.

(** * The claims *)

(** ** UnitCodec *)

Lemma land_u16 r : 0 <= r <= 65535 -> Z.land r 0xFFFF = r.
Proof.
  intros H. change 0xFFFF with (Z.ones 16).
  rewrite Z.land_ones by lia. apply Z.mod_small. change (2 ^ 16) with 65536. lia.
Qed.

Lemma shipped_max_encodes lo hi :
  In (lo, hi) shipped_ranges -> scale_value_to_u16 hi lo hi = Ok 65535.
Proof.
  unfold shipped_ranges. cbn [flat_map map snd MOTOR_TYPE_PARAMS ranges app].
  cbn [O2 O3 O5 P_MIN P_MAX V_MIN V_MAX T_MIN T_MAX KP_MIN KP_MAX KD_MIN KD_MAX].
  intros H.
  repeat (destruct H as [H|H]; [injection H as <- <-; vm_compute; reflexivity|]).
  destruct H.
Qed.

(** C1, amended.  For every finite range with [min < max] and every float
    [v], [scale_value_to_u16] (of [fast.py] and of [mit.py]) is the
    truncation toward zero of the binary64 value of
    [65535 * (clamp(v) - min) / (max - min)]; [encode(min)] is [0]; and
    [encode(max)] is [65535] or [65534] (whenever the width is below
    [2^900]), [65535] for every range of the shipped motor profiles. *)
Theorem C1_encode_is_truncated_affine_map (v lo hi : float) :
  is_finite lo = true -> is_finite hi = true -> (lo <? hi)%float = true ->
  scale_value_to_u16 v lo hi = encode_spec v lo hi /\
  Mit.scale_value_to_u16 v lo hi = encode_spec v lo hi /\
  scale_value_to_u16 lo lo hi = Ok 0 /\
  ((hi - lo <? 0x1p+900)%float = true ->
   scale_value_to_u16 hi lo hi = Ok 65535 \/ scale_value_to_u16 hi lo hi = Ok 65534) /\
  (In (lo, hi) shipped_ranges -> scale_value_to_u16 hi lo hi = Ok 65535).
Proof.
  intros Hlo Hhi Hlt.
  split; [apply scale_refines_spec; assumption|].
  split; [apply scale_refines_spec; assumption|].
  split; [apply scale_at_min; assumption|].
  split; [|apply shipped_max_encodes].
  intros Hth.
  destruct (scale_at_max lo hi Hlo Hhi Hlt) as [[H|H]|[Hinf _]]; auto.
  exfalso.
  assert (Hn : is_nan hi = false).
  { apply is_fin_not_nan, is_finite_spec, Hhi. }
  assert (Hf := product_finite hi lo hi Hn Hlo Hhi Hlt Hth).
  rewrite (np_clip_at_max lo hi Hlo Hhi Hlt) in Hf. congruence.
Qed.

Lemma C1_witness :
  (is_finite (-12.57) = true /\ is_finite 12.57 = true /\ (-12.57 <? 12.57)%float = true) /\
  scale_value_to_u16 (-12.57) (-12.57) 12.57 = Ok 0.
Proof.
  split; [repeat split; reflexivity|].
  apply (C1_encode_is_truncated_affine_map 1.0 (-12.57) 12.57); reflexivity.
Defined.

(** C1 as stated fails: on the range [0, 1.1] the upper end encodes to
    [65534], because [65535.0 * 1.1 / 1.1] rounds below [65535] in binary64. *)
Lemma C1_counterexample :
  is_finite 0.0 = true /\ is_finite 1.1 = true /\ (0.0 <? 1.1)%float = true /\
  scale_value_to_u16 1.1 0.0 1.1 = Ok 65534 /\
  scale_value_to_u16 1.1 0.0 1.1 <> Ok 65535.
Proof.
  repeat split; try reflexivity.
  intros H. vm_compute in H. discriminate.
Qed.

(** C9, amended.  For every finite range with [min < max] and every input
    that is not a NaN, [encode] either returns a value in [0, 65535], which
    masking with [0xFFFF] leaves unchanged, or raises because the scaled
    difference overflowed binary64; below a width of [2^900] it always
    returns. *)
Theorem C9_encode_fits_u16 (v lo hi : float) :
  is_nan v = false -> is_finite lo = true -> is_finite hi = true ->
  (lo <? hi)%float = true ->
  ((exists r, scale_value_to_u16 v lo hi = Ok r /\ 0 <= r <= 65535 /\ Z.land r 0xFFFF = r) \/
   (is_infinity (65535 * (np_clip v lo hi - lo)) = true /\
    exists e, scale_value_to_u16 v lo hi = Raise e)) /\
  ((hi - lo <? 0x1p+900)%float = true ->
   exists r, scale_value_to_u16 v lo hi = Ok r /\ 0 <= r <= 65535 /\ Z.land r 0xFFFF = r).
Proof.
  intros Hv Hlo Hhi Hlt.
  assert (H := scale_range v lo hi Hv Hlo Hhi Hlt).
  split.
  - destruct H as [(r & Er & Hr)|H]; [left|right; exact H].
    exists r. split; [exact Er|]. split; [exact Hr|apply land_u16, Hr].
  - intros Hth. destruct H as [(r & Er & Hr)|[Hinf _]].
    + exists r. split; [exact Er|]. split; [exact Hr|apply land_u16, Hr].
    + rewrite (product_finite v lo hi Hv Hlo Hhi Hlt Hth) in Hinf. discriminate.
Qed.

Lemma C9_witness :
  (is_nan 1e9 = false /\ is_finite 0.0 = true /\ is_finite 500.0 = true /\
   (0.0 <? 500.0)%float = true /\ (500.0 - 0.0 <? 0x1p+900)%float = true) /\
  exists r, scale_value_to_u16 1e9 0.0 500.0 = Ok r /\ 0 <= r <= 65535 /\ Z.land r 0xFFFF = r.
Proof.
  split; [repeat split; reflexivity|].
  apply (C9_encode_fits_u16 1e9 0.0 500.0); reflexivity.
Defined.

(** C9 as stated fails for very wide ranges: on [0, 1e305] the product
    [65535.0 * 1e305] is infinite and [int] raises [OverflowError]. *)
Lemma C9_counterexample :
  is_finite 1e305 = true /\ is_finite 0.0 = true /\ (0.0 <? 1e305)%float = true /\
  scale_value_to_u16 1e305 0.0 1e305 = Raise OverflowError /\
  ~ (exists r, scale_value_to_u16 1e305 0.0 1e305 = Ok r /\ 0 <= r <= 65535).
Proof.
  repeat split; try reflexivity.
  intros (r & H & _). vm_compute in H. discriminate.
Qed.

Lemma shipped_profiles_ok : forallb params_ok (map snd MOTOR_TYPE_PARAMS) = true.
Proof. reflexivity. Qed.

Lemma send_control_command_degenerate motor_id pos vel kp kd torque params w :
  P_MIN params = P_MAX params ->
  send_control_command motor_id pos vel kp kd torque params w = (Raise ValueError, w).
Proof.
  intros E. unfold send_control_command, bind, of_result.
  rewrite E, scale_degenerate. reflexivity.
Qed.

Lemma py_int_raises x e : py_int x = Raise e -> e = ValueError \/ e = OverflowError.
Proof.
  unfold py_int. destruct (Prim2SF x); intros H; try discriminate; injection H as <-; auto.
Qed.

(** A degenerate range anywhere in the profile stops [send_control_command]
    before the frame is built, whatever is asked. *)
Lemma send_control_command_degenerate_range motor_id pos vel kp kd torque params w m :
  In (m, m) (ranges params) ->
  exists e,
    (e = ValueError \/ e = OverflowError) /\
    send_control_command motor_id pos vel kp kd torque params w = (Raise e, w) /\
    Mit.send_control_command motor_id pos vel kp kd torque params w = (Raise e, w).
Proof.
  intros Hin.
  assert (D : P_MIN params = P_MAX params \/ V_MIN params = V_MAX params \/
              T_MIN params = T_MAX params \/ KP_MIN params = KP_MAX params \/
              KD_MIN params = KD_MAX params).
  { unfold ranges in Hin. cbn [In] in Hin.
    destruct Hin as [H|[H|[H|[H|[H|[]]]]]]; injection H as H1 H2;
      rewrite <- H2 in H1; auto 6. }
  assert (Dp := scale_degenerate pos (P_MAX params)).
  assert (Dv := scale_degenerate vel (V_MAX params)).
  assert (Dt := scale_degenerate torque (T_MAX params)).
  assert (Dkp := scale_degenerate kp (KP_MAX params)).
  assert (Dkd := scale_degenerate kd (KD_MAX params)).
  unfold send_control_command, Mit.send_control_command, Mit.scale_value_to_u16, bind,
    of_result.
  cbv zeta.
  fold (scale_value_to_u16 pos (P_MIN params) (P_MAX params)).
  fold (scale_value_to_u16 vel (V_MIN params) (V_MAX params)).
  fold (scale_value_to_u16 kp (KP_MIN params) (KP_MAX params)).
  fold (scale_value_to_u16 kd (KD_MIN params) (KD_MAX params)).
  fold (scale_value_to_u16 torque (T_MIN params) (T_MAX params)).
  destruct (scale_value_to_u16 pos (P_MIN params) (P_MAX params)) as [a|e] eqn:Ea;
    [|exists e; split; [apply (py_int_raises _ _ Ea)|split; reflexivity]].
  destruct (scale_value_to_u16 vel (V_MIN params) (V_MAX params)) as [b|e] eqn:Eb;
    [|exists e; split; [apply (py_int_raises _ _ Eb)|split; reflexivity]].
  destruct (scale_value_to_u16 kp (KP_MIN params) (KP_MAX params)) as [c|e] eqn:Ec;
    [|exists e; split; [apply (py_int_raises _ _ Ec)|split; reflexivity]].
  destruct (scale_value_to_u16 kd (KD_MIN params) (KD_MAX params)) as [d|e] eqn:Ed;
    [|exists e; split; [apply (py_int_raises _ _ Ed)|split; reflexivity]].
  destruct (scale_value_to_u16 torque (T_MIN params) (T_MAX params)) as [t|e] eqn:Et;
    [|exists e; split; [apply (py_int_raises _ _ Et)|split; reflexivity]].
  exfalso. destruct D as [H|[H|[H|[H|H]]]]; rewrite H in *; congruence.
Qed.

(** C8, amended.  The scripts validate nothing when a profile is
    written down.  Every range of the shipped profiles is finite with
    [MIN < MAX]; for a degenerate range ([max == min]) the failure comes at
    codec call time: [scale_value_to_u16] raises [ValueError] for every
    input ([0.0 / 0.0] is a NaN, which [int] refuses), so
    [send_control_command], of [fast.py] and of [mit.py], raises before any
    frame is sent, whichever of the five ranges of the profile is the
    degenerate one; with a degenerate position range, the first to be
    encoded, what it raises is that [ValueError]. *)
Theorem C8_degenerate_range_fails_at_call_time (v m : float) :
  forallb params_ok (map snd MOTOR_TYPE_PARAMS) = true /\
  scale_value_to_u16 v m m = Raise ValueError /\
  Mit.scale_value_to_u16 v m m = Raise ValueError /\
  (forall motor_id pos vel kp kd torque params w,
     In (m, m) (ranges params) ->
     exists e,
       (e = ValueError \/ e = OverflowError) /\
       send_control_command motor_id pos vel kp kd torque params w = (Raise e, w) /\
       Mit.send_control_command motor_id pos vel kp kd torque params w = (Raise e, w)) /\
  (forall motor_id pos vel kp kd torque params w,
     P_MIN params = P_MAX params ->
     send_control_command motor_id pos vel kp kd torque params w = (Raise ValueError, w)).
Proof.
  split; [exact shipped_profiles_ok|].
  split; [apply scale_degenerate|].
  split; [apply scale_degenerate|].
  split.
  - intros motor_id pos vel kp kd torque params w H.
    exact (send_control_command_degenerate_range motor_id pos vel kp kd torque params w m H).
  - intros. apply send_control_command_degenerate. assumption.
Qed.

Lemma C8_witness :
  In (5.0%float, 5.0%float) (ranges degenerate_gain_profile) /\
  exists e,
    (e = ValueError \/ e = OverflowError) /\
    send_control_command 1 0.0 0.0 20.0 1.0 0.0 degenerate_gain_profile idle_world
    = (Raise e, idle_world) /\
    Mit.send_control_command 1 0.0 0.0 20.0 1.0 0.0 degenerate_gain_profile idle_world
    = (Raise e, idle_world).
Proof.
  assert (H : In (5.0%float, 5.0%float) (ranges degenerate_gain_profile)).
  { right. right. right. right. left. reflexivity. }
  split; [exact H|].
  destruct (C8_degenerate_range_fails_at_call_time 0.0 5.0) as (_ & _ & _ & G & _).
  exact (G 1 0.0%float 0.0%float 20.0%float 1.0%float 0.0%float degenerate_gain_profile
           idle_world H).
Defined.

(** C8 as stated fails: a profile with [P_MAX == P_MIN] is built like any
    other, and the division by zero happens when the codec is called. *)
Lemma C8_counterexample :
  params_ok degenerate_profile = false /\
  P_MIN degenerate_profile = P_MAX degenerate_profile /\
  fst (send_control_command 1 0.0 0.0 20.0 1.0 0.0 degenerate_profile idle_world)
  = Raise ValueError /\
  scale_value_to_u16 0.0 (P_MIN degenerate_profile) (P_MAX degenerate_profile)
  = Raise ValueError.
Proof. repeat split; reflexivity. Qed.

(** ** FrameCodec: the control frame *)

Lemma Z_of_byte_of_Z z : 0 <= z <= 255 -> Z_of_byte (byte_of_Z z) = z.
Proof.
  intros H. unfold Z_of_byte, byte_of_Z.
  destruct (Byte.of_N (Z.to_N z)) as [b|] eqn:E.
  - apply Byte.to_of_N in E. rewrite E. lia.
  - apply Byte.of_N_None_iff in E. lia.
Qed.

Lemma Z_of_byte_range b : 0 <= Z_of_byte b <= 255.
Proof. unfold Z_of_byte. pose proof (Byte.to_N_bounded b). lia. Qed.

Lemma lor_shiftl_8 hi lo : 0 <= lo <= 255 -> Z.lor (Z.shiftl hi 8) lo = 256 * hi + lo.
Proof.
  intros H.
  assert (E := Z.add_lor_land (Z.shiftl hi 8) lo).
  assert (L : Z.land (Z.shiftl hi 8) lo = 0).
  { apply Z.bits_inj'. intros n Hn.
    rewrite Z.land_spec, Z.bits_0. destruct (Z.ltb_spec n 8).
    - rewrite Z.shiftl_spec_low by lia. reflexivity.
    - replace (Z.testbit lo n) with false; [apply andb_false_r|].
      assert (Hm : lo mod 2 ^ 8 = lo) by (apply Z.mod_small; change (2 ^ 8) with 256; lia).
      rewrite <- Hm. symmetry. apply Z.mod_pow2_bits_high. lia. }
  rewrite L, Z.add_0_r in E. rewrite E, Z.shiftl_mul_pow2 by lia.
  change (2 ^ 8) with 256. lia.
Qed.

Lemma unpack_be16 x : 0 <= x <= 65535 -> struct_unpack_H (be16 x) = Ok x.
Proof.
  intros H. unfold be16, struct_unpack_H.
  assert (H1 : 0 <= Z.shiftr x 8 <= 255).
  { rewrite Z.shiftr_div_pow2 by lia. change (2 ^ 8) with 256.
    split; [apply Z.div_pos; lia|]. apply Z.lt_succ_r, Z.div_lt_upper_bound; lia. }
  assert (H2 : Z.land x 255 = x mod 256).
  { change 255 with (Z.ones 8). rewrite Z.land_ones by lia. reflexivity. }
  assert (H3 : 0 <= x mod 256 < 256) by (apply Z.mod_pos_bound; lia).
  rewrite !Z_of_byte_of_Z by lia.
  rewrite lor_shiftl_8 by lia. rewrite H2, Z.shiftr_div_pow2 by lia.
  change (2 ^ 8) with 256. f_equal. symmetry. apply Z.div_mod. lia.
Qed.

Lemma pack_H_ok x : 0 <= x <= 65535 -> pack_H x = Ok (be16 x).
Proof.
  intros H. unfold pack_H.
  replace ((0 <=? x) && (x <=? 65535)) with true; [reflexivity|].
  symmetry. apply andb_true_iff. split; apply Z.leb_le; lia.
Qed.

Lemma struct_pack_ok a b c d :
  0 <= a <= 65535 -> 0 <= b <= 65535 -> 0 <= c <= 65535 -> 0 <= d <= 65535 ->
  struct_pack_HHHH a b c d = Ok (be16 a ++ be16 b ++ be16 c ++ be16 d).
Proof.
  intros Ha Hb Hc Hd. unfold struct_pack_HHHH.
  rewrite !pack_H_ok by assumption. reflexivity.
Qed.

Lemma scale_nan v lo hi : is_nan v = true -> scale_value_to_u16 v lo hi = Raise ValueError.
Proof.
  intros Nv.
  assert (Ec : np_clip v lo hi = nan).
  { unfold np_clip, np_maximum. rewrite Nv. cbn [orb]. unfold np_minimum.
    replace (is_nan nan) with true by reflexivity. rewrite orb_true_r. reflexivity. }
  unfold scale_value_to_u16, py_int. rewrite Ec, div_spec, mul_spec, sub_spec.
  replace (Prim2SF nan) with S754_nan by reflexivity.
  unfold SF64div, SF64mul, SF64sub. cbn [SFsub].
  destruct (Prim2SF 65535); reflexivity.
Qed.

(** Whatever a well-formed range makes [scale_value_to_u16] return fits 16
    bits. *)
Lemma scale_ok_u16 v lo hi r :
  range_ok (lo, hi) = true -> scale_value_to_u16 v lo hi = Ok r -> 0 <= r <= 65535.
Proof.
  unfold range_ok. cbn [fst snd]. rewrite !andb_true_iff. intros [[Hlo Hhi] Hlt] E.
  destruct (is_nan v) eqn:Nv.
  - rewrite scale_nan in E by assumption. discriminate.
  - destruct (scale_range v lo hi Nv Hlo Hhi Hlt) as [(r' & E' & Hr)|[_ [e E']]];
      rewrite E' in E; [injection E as <-; exact Hr|discriminate].
Qed.

Lemma params_ok_ranges p :
  params_ok p = true ->
  range_ok (P_MIN p, P_MAX p) = true /\ range_ok (V_MIN p, V_MAX p) = true /\
  range_ok (T_MIN p, T_MAX p) = true /\ range_ok (KP_MIN p, KP_MAX p) = true /\
  range_ok (KD_MIN p, KD_MAX p) = true.
Proof.
  unfold params_ok, ranges. cbn [forallb]. rewrite !andb_true_iff. tauto.
Qed.

(** C2.  For every motor id, command and well-formed profile: when the five
    encodings return and the bus accepts the frame, [send_control_command]
    (of [fast.py] and of [mit.py]) sends exactly one extended frame whose
    arbitration id is [(0x01 << 24) | ((torque_u16 & 0xFFFF) << 8) |
    (motor_id & 0xFF)] and whose 8-byte payload holds position, velocity,
    position gain and velocity gain, in this order, as big-endian 16-bit
    fields; for motor id 5 and torque raw value [0x1234] the arbitration id
    is [0x01123405]. *)
Theorem C2_control_frame_layout (motor_id : Z) (pos vel kp kd torque : float)
  (params : Params) (w : World) (angle_u16 vel_u16 kp_u16 kd_u16 torque_u16 : Z) :
  params_ok params = true ->
  scale_value_to_u16 pos (P_MIN params) (P_MAX params) = Ok angle_u16 ->
  scale_value_to_u16 vel (V_MIN params) (V_MAX params) = Ok vel_u16 ->
  scale_value_to_u16 kp (KP_MIN params) (KP_MAX params) = Ok kp_u16 ->
  scale_value_to_u16 kd (KD_MIN params) (KD_MAX params) = Ok kd_u16 ->
  scale_value_to_u16 torque (T_MIN params) (T_MAX params) = Ok torque_u16 ->
  send_accepted w = true ->
  exists msg,
    send_control_command motor_id pos vel kp kd torque params w
      = (Ok tt, set_tx w (tl (tx_script w)) (tx_log w ++ [msg])) /\
    Mit.send_control_command motor_id pos vel kp kd torque params w
      = (Ok tt, set_tx w (tl (tx_script w)) (tx_log w ++ [msg])) /\
    arbitration_id msg
      = Z.lor (Z.lor (Z.shiftl 0x01 24) (Z.shiftl (Z.land torque_u16 0xFFFF) 8))
              (Z.land motor_id 0xFF) /\
    Z.land torque_u16 0xFFFF = torque_u16 /\
    data msg = be16 angle_u16 ++ be16 vel_u16 ++ be16 kp_u16 ++ be16 kd_u16 /\
    List.length (data msg) = 8%nat /\
    struct_unpack_H (slice (data msg) 0 2) = Ok angle_u16 /\
    struct_unpack_H (slice (data msg) 2 4) = Ok vel_u16 /\
    struct_unpack_H (slice (data msg) 4 6) = Ok kp_u16 /\
    struct_unpack_H (slice (data msg) 6 8) = Ok kd_u16 /\
    is_extended_id msg = true /\ dlc msg = 8 /\
    (motor_id = 5 -> torque_u16 = 0x1234 -> arbitration_id msg = 0x01123405).
Proof.
  intros Hp Ea Ev Ekp Ekd Et Hs.
  destruct (params_ok_ranges params Hp) as (Rp & Rv & Rt & Rkp & Rkd).
  assert (Ha := scale_ok_u16 _ _ _ _ Rp Ea).
  assert (Hv := scale_ok_u16 _ _ _ _ Rv Ev).
  assert (Hkp := scale_ok_u16 _ _ _ _ Rkp Ekp).
  assert (Hkd := scale_ok_u16 _ _ _ _ Rkd Ekd).
  assert (Ht := scale_ok_u16 _ _ _ _ Rt Et).
  set (msg := {| arbitration_id :=
                   Z.lor (Z.lor (Z.shiftl (Z.land MUX_CONTROL 0xFF) 24)
                                (Z.shiftl (Z.land torque_u16 0xFFFF) 8))
                         (Z.land motor_id 0xFF);
                 data := be16 angle_u16 ++ be16 vel_u16 ++ be16 kp_u16 ++ be16 kd_u16;
                 is_extended_id := true; dlc := 8; is_error_frame := false |}).
  assert (Hsend : bus_send msg w = (Ok tt, set_tx w (tl (tx_script w)) (tx_log w ++ [msg]))).
  { unfold bus_send. unfold send_accepted in Hs.
    destruct (tx_script w) as [|[e|] ts]; try discriminate; reflexivity. }
  exists msg.
  split.
  { unfold send_control_command, bind, of_result.
    rewrite Ea, Ev, Ekp, Ekd, Et, struct_pack_ok by assumption. exact Hsend. }
  split.
  { unfold Mit.send_control_command, Mit.scale_value_to_u16, bind, of_result.
    fold (scale_value_to_u16 pos (P_MIN params) (P_MAX params)).
    fold (scale_value_to_u16 vel (V_MIN params) (V_MAX params)).
    fold (scale_value_to_u16 kp (KP_MIN params) (KP_MAX params)).
    fold (scale_value_to_u16 kd (KD_MIN params) (KD_MAX params)).
    fold (scale_value_to_u16 torque (T_MIN params) (T_MAX params)).
    rewrite Ea, Ev, Ekp, Ekd, Et, struct_pack_ok by assumption. exact Hsend. }
  split; [reflexivity|].
  split; [apply land_u16, Ht|].
  split; [reflexivity|].
  split; [reflexivity|].
  split; [apply (unpack_be16 angle_u16 Ha)|].
  split; [apply (unpack_be16 vel_u16 Hv)|].
  split; [apply (unpack_be16 kp_u16 Hkp)|].
  split; [apply (unpack_be16 kd_u16 Hkd)|].
  split; [reflexivity|]. split; [reflexivity|].
  intros -> ->. reflexivity.
Qed.

Lemma C2_witness :
  (params_ok O5 = true /\
   scale_value_to_u16 (-4.7177) (T_MIN O5) (T_MAX O5) = Ok 0x1234 /\
   send_accepted idle_world = true) /\
  exists msg,
    send_control_command 5 0.0 0.0 20.0 1.0 (-4.7177) O5 idle_world
      = (Ok tt, set_tx idle_world [] [msg]) /\
    arbitration_id msg = 0x01123405.
Proof.
  split; [repeat split; reflexivity|].
  destruct (C2_control_frame_layout 5 0.0 0.0 20.0 1.0 (-4.7177) O5 idle_world
              32767 32767 2621 13107 0x1234
              eq_refl eq_refl eq_refl eq_refl eq_refl eq_refl eq_refl)
    as (msg & H & _ & _ & _ & _ & _ & _ & _ & _ & _ & _ & _ & Hid).
  exists msg. split; [exact H|]. apply Hid; reflexivity.
Defined.

(** ** FrameCodec: the feedback parser *)

Lemma time_time_eq w : time_time w = (Ok (next_time w), tick_clock w).
Proof. unfold time_time, next_time, tick_clock. destruct (clock w); reflexivity. Qed.

Lemma bits_8_15 x : Z.shiftr (Z.land x 0xFF00) 8 = (x / 256) mod 256.
Proof.
  change 256 with (2 ^ 8). rewrite <- Z.shiftr_div_pow2, <- Z.land_ones by lia.
  apply Z.bits_inj'. intros n Hn.
  rewrite Z.shiftr_spec, !Z.land_spec, Z.shiftr_spec by lia.
  f_equal. change 0xFF00 with (Z.shiftl (Z.ones 8) 8).
  rewrite Z.shiftl_spec by lia. f_equal. lia.
Qed.

Lemma bits_0_7 x : Z.land x 0xFF = x mod 256.
Proof. change 0xFF with (Z.ones 8). rewrite Z.land_ones by lia. reflexivity. Qed.

Lemma be16_value b0 b1 :
  struct_unpack_H [b0; b1] = Ok (256 * Z_of_byte b0 + Z_of_byte b1) /\
  0 <= 256 * Z_of_byte b0 + Z_of_byte b1 <= 65535.
Proof.
  pose proof (Z_of_byte_range b0). pose proof (Z_of_byte_range b1).
  split; [|lia]. unfold struct_unpack_H. rewrite lor_shiftl_8 by lia. reflexivity.
Qed.

Lemma state_eta (s : Fast.State) :
  {| Fast.world := Fast.world s;
     Fast.current_motor_state := Fast.current_motor_state s;
     Fast.history := Fast.history s |} = s.
Proof. destruct s; reflexivity. Qed.

Lemma checkpoint_calm w : signals w = [] -> checkpoint w = (Ok tt, w).
Proof. intros H. unfold checkpoint. rewrite H. reflexivity. Qed.

(** With no interrupt pending the three fields are assigned one after the
    other. *)
Lemma update_from_long params m s b0 b1 b2 b3 rest :
  signals (Fast.world s) = [] ->
  data m = b0 :: b1 :: b2 :: b3 :: rest ->
  Fast.update_from params m s
  = (Ok tt, updated params (256 * Z_of_byte b0 + Z_of_byte b1)
                          (256 * Z_of_byte b2 + Z_of_byte b3) s).
Proof.
  intros Hs E. destruct s as [w st h]. cbn [Fast.world] in Hs.
  unfold Fast.update_from, bind, of_result, slice, Fast.lift, Fast.set_state, modify.
  cbn [Fast.world Fast.current_motor_state Fast.history].
  rewrite E. cbn [Nat.sub skipn firstn].
  rewrite (proj1 (be16_value b0 b1)), (proj1 (be16_value b2 b3)).
  repeat (rewrite (checkpoint_calm w Hs);
          cbn [Fast.world Fast.current_motor_state Fast.history]).
  rewrite time_time_eq. reflexivity.
Qed.

(** An interrupt delivered between the assignments of lines 82 and 83
    leaves the new position beside the old velocity and the old time. *)
Lemma update_from_torn params m s b0 b1 b2 b3 rest e sg :
  signals (Fast.world s) = None :: Some e :: sg ->
  data m = b0 :: b1 :: b2 :: b3 :: rest ->
  Fast.update_from params m s
  = (Raise e,
     {| Fast.world := set_signals (Fast.world s) sg;
        Fast.current_motor_state :=
          {| Fast.pos := unscale_u16_to_float (256 * Z_of_byte b0 + Z_of_byte b1)
                           (P_MIN params) (P_MAX params);
             Fast.vel := Fast.vel (Fast.current_motor_state s);
             Fast.last_update := Fast.last_update (Fast.current_motor_state s) |};
        Fast.history := Fast.history s |}).
Proof.
  intros Hs E. destruct s as [w st h]. cbn [Fast.world] in Hs.
  unfold Fast.update_from, bind, of_result, slice, Fast.lift, Fast.set_state, modify, checkpoint.
  cbn [Fast.world Fast.current_motor_state Fast.history].
  rewrite E, Hs. cbn [Nat.sub skipn firstn].
  rewrite (proj1 (be16_value b0 b1)), (proj1 (be16_value b2 b3)).
  cbn [Fast.world Fast.current_motor_state Fast.history signals set_signals].
  reflexivity.
Qed.

(** An interrupt delivered after line 83, or during [time.time()], leaves
    the new position and velocity beside the old time. *)
Lemma update_from_stale_time params m s b0 b1 b2 b3 rest e sg :
  signals (Fast.world s) = None :: None :: Some e :: sg ->
  data m = b0 :: b1 :: b2 :: b3 :: rest ->
  Fast.update_from params m s
  = (Raise e,
     {| Fast.world := set_signals (Fast.world s) sg;
        Fast.current_motor_state :=
          {| Fast.pos := unscale_u16_to_float (256 * Z_of_byte b0 + Z_of_byte b1)
                           (P_MIN params) (P_MAX params);
             Fast.vel := unscale_u16_to_float (256 * Z_of_byte b2 + Z_of_byte b3)
                           (V_MIN params) (V_MAX params);
             Fast.last_update := Fast.last_update (Fast.current_motor_state s) |};
        Fast.history := Fast.history s |}).
Proof.
  intros Hs E. destruct s as [w st h]. cbn [Fast.world] in Hs.
  unfold Fast.update_from, bind, of_result, slice, Fast.lift, Fast.set_state, modify, checkpoint.
  cbn [Fast.world Fast.current_motor_state Fast.history].
  rewrite E, Hs. cbn [Nat.sub skipn firstn].
  rewrite (proj1 (be16_value b0 b1)), (proj1 (be16_value b2 b3)).
  cbn [Fast.world Fast.current_motor_state Fast.history signals set_signals].
  reflexivity.
Qed.

(** A payload too short to unpack: whatever is raised, nothing was
    assigned. *)
Lemma update_from_short params m s :
  (List.length (data m) < 4)%nat ->
  exists e,
    Fast.update_from params m s
    = (Raise e, {| Fast.world := snd (checkpoint (Fast.world s));
                   Fast.current_motor_state := Fast.current_motor_state s;
                   Fast.history := Fast.history s |}).
Proof.
  intros H. unfold Fast.update_from, bind, of_result, slice, Fast.lift.
  destruct (checkpoint (Fast.world s)) as [[[]|e] w1]; cbn [snd]; [|eauto].
  destruct (data m) as [|b0 [|b1 [|b2 [|b3 rest]]]]; cbn [List.length] in H; try lia;
    eexists; reflexivity.
Qed.

Lemma handle_frame_match params m s :
  is_error_frame m = false -> Fast.extract_motor_id m = Fast.MOTOR_ID ->
  Fast.handle_frame params m s
  = try_except (fun _ => true) (Fast.update_from params m) (fun _ => ret tt) s.
Proof.
  intros He Hid. unfold Fast.handle_frame. rewrite He, Hid, Z.eqb_refl. reflexivity.
Qed.

Lemma handle_frame_no_match params m s :
  Fast.extract_motor_id m <> Fast.MOTOR_ID -> Fast.handle_frame params m s = (Ok tt, s).
Proof.
  intros H. unfold Fast.handle_frame. destruct (is_error_frame m); [reflexivity|].
  apply Z.eqb_neq in H. rewrite H. reflexivity.
Qed.

Lemma handle_frame_never_raises params m s : fst (Fast.handle_frame params m s) = Ok tt.
Proof.
  unfold Fast.handle_frame. destruct (is_error_frame m); [reflexivity|].
  destruct (Fast.extract_motor_id m =? Fast.MOTOR_ID); [|reflexivity].
  unfold try_except.
  destruct (Fast.update_from params m s) as [[[]|e] s']; reflexivity.
Qed.

Lemma extract_motor_id_eq m :
  Fast.extract_motor_id m
  = (if (arbitration_id m / 256) mod 256 =? Fast.MOTOR_ID
     then (arbitration_id m / 256) mod 256 else arbitration_id m mod 256).
Proof.
  unfold Fast.extract_motor_id. rewrite bits_8_15, bits_0_7.
  destruct ((arbitration_id m / 256) mod 256 =? Fast.MOTOR_ID); reflexivity.
Qed.

(** *** [read_feedback] hands every queued frame to the parser *)

(** Handling a frame neither reads nor changes the receive side of the bus. *)
Lemma handle_frame_with_rx params m s rx log :
  Fast.handle_frame params m (with_rx s rx log)
  = (fst (Fast.handle_frame params m s),
     with_rx (snd (Fast.handle_frame params m s)) rx log).
Proof.
  destruct s as [[rx0 ts ss ck cs tl rl so bo sg] st h]. unfold Fast.handle_frame.
  destruct (is_error_frame m); [reflexivity|].
  destruct (Fast.extract_motor_id m =? Fast.MOTOR_ID); [|reflexivity].
  unfold try_except, Fast.update_from, bind, of_result, Fast.lift, checkpoint, with_rx.
  cbn [Fast.world Fast.current_motor_state Fast.history signals].
  destruct sg as [|[e1|] sg]; try reflexivity;
    (destruct (struct_unpack_H (slice (data m) 0 2)) as [p|e]; [|reflexivity]);
    (destruct (struct_unpack_H (slice (data m) 2 4)) as [v|e']; [|reflexivity]);
    unfold Fast.set_state, modify, time_time;
    cbn [Fast.world Fast.current_motor_state Fast.history signals set_signals clock fst snd].
  - destruct ck; reflexivity.
  - destruct sg as [|[e2|] sg]; try reflexivity;
      cbn [Fast.world Fast.current_motor_state Fast.history signals set_signals clock fst snd].
    + destruct ck; reflexivity.
    + destruct sg as [|[e3|] sg]; try reflexivity;
        cbn [Fast.world Fast.current_motor_state Fast.history signals set_signals clock
             fst snd];
        destruct ck; reflexivity.
Qed.

Lemma process_with_rx params ms : forall s rx log,
  process params ms (with_rx s rx log) = with_rx (process params ms s) rx log.
Proof.
  induction ms as [|m ms IH]; intros s rx log; [reflexivity|].
  unfold process in *. cbn [fold_left]. rewrite handle_frame_with_rx. cbn [snd]. apply IH.
Qed.

Lemma recv_as_with_rx (s : Fast.State) rx t :
  {| Fast.world := set_rx (Fast.world s) rx t;
     Fast.current_motor_state := Fast.current_motor_state s;
     Fast.history := Fast.history s |}
  = with_rx s rx (recv_log (Fast.world s) ++ [t]).
Proof. reflexivity. Qed.

Lemma read_feedback_loop_spec params fuel : forall s,
  (leading_frames (rx_script (Fast.world s)) < fuel)%nat ->
  Fast.read_feedback_loop fuel params s
  = (drain_outcome (rx_script (Fast.world s)),
     with_rx (process params (leading_msgs (rx_script (Fast.world s))) s)
             (drain (rx_script (Fast.world s)))
             (recv_log (Fast.world s)
              ++ repeat 0%Q (S (leading_frames (rx_script (Fast.world s)))))).
Proof.
  induction fuel as [|fuel IH]; intros s H; [lia|].
  cbn [Fast.read_feedback_loop]. unfold bind at 1. unfold Fast.lift, bus_recv.
  destruct (rx_script (Fast.world s)) as [|[m| |e] rx] eqn:E;
    cbn [leading_frames leading_msgs drain drain_outcome] in *;
    try (rewrite recv_as_with_rx; reflexivity).
  rewrite recv_as_with_rx. unfold bind.
  rewrite handle_frame_with_rx.
  rewrite (surjective_pairing (Fast.handle_frame params m s)) at 1.
  rewrite handle_frame_never_raises. cbn [fst snd].
  rewrite IH by (cbn [with_rx Fast.world rx_script]; lia).
  cbn [with_rx Fast.world rx_script recv_log].
  rewrite process_with_rx. unfold with_rx at 1.
  cbn [Fast.world Fast.current_motor_state Fast.history rx_script tx_script sleep_script
       clock client_script tx_log recv_log stdout bus_open signals].
  rewrite <- app_assoc. unfold process. cbn [fold_left]. reflexivity.
Qed.

Lemma leading_frames_le rx : (leading_frames rx <= List.length rx)%nat.
Proof.
  induction rx as [|[m| |e] rx IH]; cbn [leading_frames List.length]; lia.
Qed.

(** [read_feedback] receives with timeout [0] until a receive returns
    nothing (or fails), and handles every frame it received, in order. *)
Lemma read_feedback_spec (params : Params) (s : Fast.State) :
  Fast.read_feedback params s
  = (drain_outcome (rx_script (Fast.world s)),
     with_rx (process params (leading_msgs (rx_script (Fast.world s))) s)
             (drain (rx_script (Fast.world s)))
             (recv_log (Fast.world s)
              ++ repeat 0%Q (S (leading_frames (rx_script (Fast.world s)))))).
Proof.
  unfold Fast.read_feedback. apply read_feedback_loop_spec.
  pose proof (leading_frames_le (rx_script (Fast.world s))). lia.
Qed.

(** What the feedback state can be after a matching frame with four
    payload bytes or more: untouched, the position alone replaced, the
    position and the velocity replaced, or all three fields replaced. *)
Lemma handle_frame_outcomes params m s b0 b1 b2 b3 rest :
  is_error_frame m = false -> Fast.extract_motor_id m = Fast.MOTOR_ID ->
  data m = b0 :: b1 :: b2 :: b3 :: rest ->
  let new_pos := unscale_u16_to_float (256 * Z_of_byte b0 + Z_of_byte b1)
                   (P_MIN params) (P_MAX params) in
  let new_vel := unscale_u16_to_float (256 * Z_of_byte b2 + Z_of_byte b3)
                   (V_MIN params) (V_MAX params) in
  let st := Fast.current_motor_state s in
  let st' := Fast.current_motor_state (snd (Fast.handle_frame params m s)) in
  st' = st \/
  st' = {| Fast.pos := new_pos; Fast.vel := Fast.vel st;
           Fast.last_update := Fast.last_update st |} \/
  st' = {| Fast.pos := new_pos; Fast.vel := new_vel;
           Fast.last_update := Fast.last_update st |} \/
  st' = {| Fast.pos := new_pos; Fast.vel := new_vel;
           Fast.last_update := next_time (Fast.world s) |}.
Proof.
  intros He Hid E. cbv zeta.
  rewrite (handle_frame_match params m s He Hid). unfold try_except.
  assert (Full : forall sg,
            signals (Fast.world s) = None :: None :: None :: sg \/
            signals (Fast.world s) = [None; None] \/
            signals (Fast.world s) = [None] ->
            Fast.current_motor_state (snd (Fast.update_from params m s))
            = {| Fast.pos := unscale_u16_to_float (256 * Z_of_byte b0 + Z_of_byte b1)
                               (P_MIN params) (P_MAX params);
                 Fast.vel := unscale_u16_to_float (256 * Z_of_byte b2 + Z_of_byte b3)
                               (V_MIN params) (V_MAX params);
                 Fast.last_update := next_time (Fast.world s) |} /\
            fst (Fast.update_from params m s) = Ok tt).
  { intros sg Hs. destruct s as [w st h]. cbn [Fast.world] in Hs.
    unfold Fast.update_from, bind, of_result, slice, Fast.lift, Fast.set_state, modify,
      checkpoint.
    cbn [Fast.world Fast.current_motor_state Fast.history].
    rewrite E. cbn [Nat.sub skipn firstn].
    rewrite (proj1 (be16_value b0 b1)), (proj1 (be16_value b2 b3)).
    destruct Hs as [Hs|[Hs|Hs]]; rewrite Hs;
      cbn [Fast.world Fast.current_motor_state Fast.history signals set_signals];
      rewrite time_time_eq; split; reflexivity. }
  destruct (signals (Fast.world s)) as [|[e1|] sg1] eqn:Hs.
  - rewrite (update_from_long params m s b0 b1 b2 b3 rest Hs E). auto.
  - left. destruct s as [w st h]. cbn [Fast.world] in Hs.
    unfold Fast.update_from, bind, Fast.lift, checkpoint. cbn [Fast.world]. rewrite Hs.
    reflexivity.
  - destruct sg1 as [|[e2|] sg2].
    + destruct (Full [] (or_intror (or_intror eq_refl))) as [F1 F2].
      destruct (Fast.update_from params m s) as [[[]|e] s']; cbn [fst snd] in *;
        [auto|discriminate].
    + rewrite (update_from_torn params m s b0 b1 b2 b3 rest e2 sg2 Hs E). auto.
    + destruct sg2 as [|[e3|] sg3].
      * destruct (Full [] (or_intror (or_introl eq_refl))) as [F1 F2].
        destruct (Fast.update_from params m s) as [[[]|e] s']; cbn [fst snd] in *;
          [auto|discriminate].
      * rewrite (update_from_stale_time params m s b0 b1 b2 b3 rest e3 sg3 Hs E). auto.
      * destruct (Full sg3 (or_introl eq_refl)) as [F1 F2].
        destruct (Fast.update_from params m s) as [[[]|e] s']; cbn [fst snd] in *;
          [auto|discriminate].
Qed.

(** C3.  [read_feedback] hands every frame it receives to the parser, in
    the order received: it returns as the receive that ends the drain
    turns out, in the state reached by handling the queued frames one after
    the other.  For every such frame: a frame with the error flag is
    dropped before any identity check or decoding; the identity is read
    from bits 8-15 of the arbitration id, and from the low 8 bits only when
    bits 8-15 do not name this motor; a frame that matches in neither place
    is ignored, with no error and no change of state; on a match bytes 0-1
    give the position and bytes 2-3 the velocity, each a big-endian unsigned
    16-bit value decoded against the profile (whatever the parser assigns
    is the decoded value; with no interrupt pending it assigns both).  The
    parser never raises. *)
Theorem C3_feedback_parser (params : Params) (s : Fast.State) :
  Fast.read_feedback params s
  = (drain_outcome (rx_script (Fast.world s)),
     with_rx (process params (leading_msgs (rx_script (Fast.world s))) s)
             (drain (rx_script (Fast.world s)))
             (recv_log (Fast.world s)
              ++ repeat 0%Q (S (leading_frames (rx_script (Fast.world s)))))) /\
  forall (m : Message) (s0 : Fast.State),
    let id_hi := (arbitration_id m / 256) mod 256 in
    let id_lo := arbitration_id m mod 256 in
    process params [m] s0 = snd (Fast.handle_frame params m s0) /\
    fst (Fast.handle_frame params m s0) = Ok tt /\
    (is_error_frame m = true -> Fast.handle_frame params m s0 = (Ok tt, s0)) /\
    Fast.extract_motor_id m = (if id_hi =? Fast.MOTOR_ID then id_hi else id_lo) /\
    (id_hi <> Fast.MOTOR_ID -> id_lo <> Fast.MOTOR_ID ->
     Fast.handle_frame params m s0 = (Ok tt, s0)) /\
    (is_error_frame m = false -> id_hi = Fast.MOTOR_ID \/ id_lo = Fast.MOTOR_ID ->
     forall b0 b1 b2 b3 rest, data m = b0 :: b1 :: b2 :: b3 :: rest ->
     let p_raw := 256 * Z_of_byte b0 + Z_of_byte b1 in
     let v_raw := 256 * Z_of_byte b2 + Z_of_byte b3 in
     let st' := Fast.current_motor_state (snd (Fast.handle_frame params m s0)) in
     0 <= p_raw <= 65535 /\ 0 <= v_raw <= 65535 /\
     struct_unpack_H (slice (data m) 0 2) = Ok p_raw /\
     struct_unpack_H (slice (data m) 2 4) = Ok v_raw /\
     (Fast.pos st' = unscale_u16_to_float p_raw (P_MIN params) (P_MAX params) \/
      Fast.pos st' = Fast.pos (Fast.current_motor_state s0)) /\
     (Fast.vel st' = unscale_u16_to_float v_raw (V_MIN params) (V_MAX params) \/
      Fast.vel st' = Fast.vel (Fast.current_motor_state s0)) /\
     (signals (Fast.world s0) = [] ->
      Fast.handle_frame params m s0 = (Ok tt, updated params p_raw v_raw s0) /\
      Fast.pos st' = unscale_u16_to_float p_raw (P_MIN params) (P_MAX params) /\
      Fast.vel st' = unscale_u16_to_float v_raw (V_MIN params) (V_MAX params))).
Proof.
  split; [apply read_feedback_spec|].
  intros m s0 id_hi id_lo.
  assert (Hid : Fast.extract_motor_id m = (if id_hi =? Fast.MOTOR_ID then id_hi else id_lo))
    by apply extract_motor_id_eq.
  split; [reflexivity|].
  split; [apply handle_frame_never_raises|].
  split; [intros He; unfold Fast.handle_frame; rewrite He; reflexivity|].
  split; [exact Hid|].
  split.
  - intros H1 H2. apply handle_frame_no_match. rewrite Hid.
    destruct (Z.eqb_spec id_hi Fast.MOTOR_ID); congruence.
  - intros He Hm b0 b1 b2 b3 rest Ed p_raw v_raw st'.
    assert (Hx : Fast.extract_motor_id m = Fast.MOTOR_ID).
    { rewrite Hid. destruct (Z.eqb_spec id_hi Fast.MOTOR_ID) as [E|N]; [exact E|].
      destruct Hm; congruence. }
    split; [apply be16_value|]. split; [apply be16_value|].
    split; [rewrite Ed; apply be16_value|]. split; [rewrite Ed; apply be16_value|].
    pose proof (handle_frame_outcomes params m s0 b0 b1 b2 b3 rest He Hx Ed) as Ho.
    cbv zeta in Ho. fold p_raw v_raw st' in Ho.
    split; [|split].
    + destruct Ho as [Ho|[Ho|[Ho|Ho]]]; rewrite Ho; cbn [Fast.pos]; auto.
    + destruct Ho as [Ho|[Ho|[Ho|Ho]]]; rewrite Ho; cbn [Fast.vel]; auto.
    + intros Hs.
      assert (Hr : Fast.handle_frame params m s0 = (Ok tt, updated params p_raw v_raw s0)).
      { rewrite (handle_frame_match params m s0 He Hx). unfold try_except.
        rewrite (update_from_long params m s0 b0 b1 b2 b3 rest Hs Ed). reflexivity. }
      split; [exact Hr|]. unfold st'. rewrite Hr. split; reflexivity.
Qed.

Lemma C3_witness :
  Fast.read_feedback O2 (Fast.init mixed_traffic)
  = (Ok tt, with_rx (updated O2 32768 32768 (Fast.init mixed_traffic))
                    [] [0%Q; 0%Q; 0%Q; 0%Q]).
Proof.
  destruct (C3_feedback_parser O2 (Fast.init mixed_traffic)) as [L P].
  rewrite L. cbn [mixed_traffic Fast.init Fast.world rx_script leading_msgs leading_frames
                  drain drain_outcome recv_log repeat app].
  unfold process. cbn [fold_left].
  match goal with
  | |- context [Fast.handle_frame O2 ?m (Fast.init ?w)] =>
      destruct (P m (Fast.init w)) as (_ & _ & H1 & _); rewrite (H1 eq_refl)
  end.
  cbn [snd].
  match goal with
  | |- context [Fast.handle_frame O2 ?m (Fast.init ?w)] =>
      destruct (P m (Fast.init w)) as (_ & _ & _ & _ & H2 & _);
      rewrite (H2 ltac:(discriminate) ltac:(discriminate))
  end.
  cbn [snd].
  match goal with
  | |- context [Fast.handle_frame O2 ?m (Fast.init ?w)] =>
      destruct (P m (Fast.init w)) as (_ & _ & _ & _ & _ & H3);
      destruct (H3 eq_refl (or_intror eq_refl) x80 x00 x80 x00 [] eq_refl)
        as (_ & _ & _ & _ & _ & _ & H4);
      destruct (H4 eq_refl) as [H5 _]; rewrite H5
  end.
  reflexivity.
Defined.

(** C10.  [read_feedback] hands every frame it receives to the parser.  For
    every frame that matches this motor the parser raises nothing; a
    payload shorter than four bytes leaves the three fields as they were;
    with four bytes or more and no interrupt pending the three fields are
    replaced together.  But the fields are assigned one after the other
    inside a [try] whose bare [except: pass] also swallows the operator's
    Ctrl+C: an interrupt delivered between the first two assignments
    leaves the new position beside the old velocity and the old time, one
    delivered before the third leaves the new position and velocity beside
    the old time, and [read_feedback] carries on as if nothing had
    happened.  The run [interrupted_update] shows it: nothing is raised,
    the position is the decoded [12.57], the velocity and the time of the
    last update are still [0.0]. *)
Theorem C10_interrupt_tears_feedback_update (params : Params) (s : Fast.State) :
  Fast.read_feedback params s
  = (drain_outcome (rx_script (Fast.world s)),
     with_rx (process params (leading_msgs (rx_script (Fast.world s))) s)
             (drain (rx_script (Fast.world s)))
             (recv_log (Fast.world s)
              ++ repeat 0%Q (S (leading_frames (rx_script (Fast.world s)))))) /\
  (forall (m : Message) (s0 : Fast.State),
     is_error_frame m = false -> Fast.extract_motor_id m = Fast.MOTOR_ID ->
     let st := Fast.current_motor_state s0 in
     let st' := Fast.current_motor_state (snd (Fast.handle_frame params m s0)) in
     process params [m] s0 = snd (Fast.handle_frame params m s0) /\
     fst (Fast.handle_frame params m s0) = Ok tt /\
     ((List.length (data m) < 4)%nat -> st' = st) /\
     ((4 <= List.length (data m))%nat ->
      exists p_raw v_raw,
        struct_unpack_H (slice (data m) 0 2) = Ok p_raw /\
        struct_unpack_H (slice (data m) 2 4) = Ok v_raw /\
        let new_pos := unscale_u16_to_float p_raw (P_MIN params) (P_MAX params) in
        let new_vel := unscale_u16_to_float v_raw (V_MIN params) (V_MAX params) in
        (signals (Fast.world s0) = [] ->
         st' = {| Fast.pos := new_pos; Fast.vel := new_vel;
                  Fast.last_update := next_time (Fast.world s0) |}) /\
        (forall e sg, signals (Fast.world s0) = None :: Some e :: sg ->
         st' = {| Fast.pos := new_pos; Fast.vel := Fast.vel st;
                  Fast.last_update := Fast.last_update st |}) /\
        (forall e sg, signals (Fast.world s0) = None :: None :: Some e :: sg ->
         st' = {| Fast.pos := new_pos; Fast.vel := new_vel;
                  Fast.last_update := Fast.last_update st |}))) /\
  fst (Fast.read_feedback O2 (Fast.init interrupted_update)) = Ok tt /\
  Fast.current_motor_state (snd (Fast.read_feedback O2 (Fast.init interrupted_update)))
  = {| Fast.pos := 12.57; Fast.vel := 0.0; Fast.last_update := 0.0 |}.
Proof.
  split; [apply read_feedback_spec|]. split.
  - intros m s0 He Hid st st'.
    split; [reflexivity|]. split; [apply handle_frame_never_raises|]. split.
    + intros H. unfold st'. rewrite (handle_frame_match params m s0 He Hid).
      unfold try_except.
      destruct (update_from_short params m s0 H) as [e Hu]. rewrite Hu. reflexivity.
    + intros H. destruct (data m) as [|b0 [|b1 [|b2 [|b3 rest]]]] eqn:Ed;
        cbn [List.length] in H; try lia.
      exists (256 * Z_of_byte b0 + Z_of_byte b1), (256 * Z_of_byte b2 + Z_of_byte b3).
      unfold slice. cbn [Nat.sub skipn firstn].
      split; [apply be16_value|]. split; [apply be16_value|].
      cbv zeta. unfold st'. rewrite (handle_frame_match params m s0 He Hid).
      unfold try_except. split; [|split].
      * intros Hs. rewrite (update_from_long params m s0 b0 b1 b2 b3 rest Hs Ed).
        reflexivity.
      * intros e sg Hs. rewrite (update_from_torn params m s0 b0 b1 b2 b3 rest e sg Hs Ed).
        reflexivity.
      * intros e sg Hs.
        rewrite (update_from_stale_time params m s0 b0 b1 b2 b3 rest e sg Hs Ed).
        reflexivity.
  - split; vm_compute; reflexivity.
Qed.

Lemma C10_witness :
  (is_error_frame (feedback_frame 0x02000100 [xff; xff; xff; xff]) = false /\
   Fast.extract_motor_id (feedback_frame 0x02000100 [xff; xff; xff; xff]) = Fast.MOTOR_ID /\
   signals (Fast.world (Fast.init interrupted_update)) = [None; Some KeyboardInterrupt]) /\
  exists p_raw,
    struct_unpack_H [xff; xff] = Ok p_raw /\
    Fast.current_motor_state
      (snd (Fast.handle_frame O2 (feedback_frame 0x02000100 [xff; xff; xff; xff])
              (Fast.init interrupted_update)))
    = {| Fast.pos := unscale_u16_to_float p_raw (P_MIN O2) (P_MAX O2);
         Fast.vel := 0.0; Fast.last_update := 0.0 |}.
Proof.
  split; [repeat split; reflexivity|].
  destruct (C10_interrupt_tears_feedback_update O2 (Fast.init interrupted_update))
    as (_ & H & _).
  destruct (H (feedback_frame 0x02000100 [xff; xff; xff; xff])
              (Fast.init interrupted_update) eq_refl eq_refl) as (_ & _ & _ & Hl).
  destruct (Hl ltac:(cbn; lia)) as (p_raw & v_raw & Ep & _ & _ & Ht & _).
  exists p_raw. split; [exact Ep|].
  exact (Ht KeyboardInterrupt [] eq_refl).
Defined.

(** ** ParamChannel *)

Lemma flush_loop_healthy fuel : forall w,
  rx_faultless w = true ->
  exists w', FindAngles.flush_bus_loop fuel w = (Ok tt, w') /\
             rx_faultless w' = true /\
             client_script w' = client_script w /\ stdout w' = stdout w.
Proof.
  induction fuel as [|fuel IH]; intros w H.
  - exists w. repeat split; assumption.
  - cbn [FindAngles.flush_bus_loop]. unfold bind, bus_recv.
    unfold rx_faultless in H.
    destruct (rx_script w) as [|[m| |e] rx] eqn:E; cbn [forallb] in H.
    + exists (set_rx w [] (1 # 100)). repeat split; reflexivity.
    + destruct (IH (set_rx w rx (1 # 100)) H) as (w' & E' & H1 & H2 & H3).
      exists w'. rewrite E'. repeat split; assumption.
    + exists (set_rx w rx (1 # 100)). repeat split; try reflexivity; exact H.
    + discriminate.
Qed.

Lemma flush_healthy w cs out :
  channel w cs out ->
  exists w', FindAngles.flush_bus w = (Ok tt, w') /\ channel w' cs out.
Proof.
  intros (H & Hc & Ho). unfold FindAngles.flush_bus.
  destruct (flush_loop_healthy (S (List.length (rx_script w))) w H) as (w' & E & H1 & H2 & H3).
  exists w'. split; [exact E|]. unfold channel. rewrite H2, H3. auto.
Qed.

Lemma read_from_fail attempt k motor_id param_name retries w e cs out :
  channel w (Raise e :: cs) out -> is_Exception e = true ->
  exists w2,
    channel w2 cs (out ++ [ErrorLine OpRead (attempt + 1) motor_id param_name e]) /\
    FindAngles.safe_read_param_from attempt (S k) motor_id param_name retries w
    = FindAngles.safe_read_param_from (S attempt) k motor_id param_name retries w2.
Proof.
  intros Hch He.
  destruct (flush_healthy w _ _ Hch) as (w1 & Ef & (H1 & Hc1 & Ho1)).
  exists (set_stdout (set_client w1 cs)
            (out ++ [ErrorLine OpRead (attempt + 1) motor_id param_name e])).
  split; [repeat split; exact H1|].
  cbn [FindAngles.safe_read_param_from]. unfold try_except at 1. unfold bind at 1.
  rewrite Ef. unfold bind at 1. unfold client_read_param, client_call.
  rewrite Hc1, He. unfold bind at 1, print, modify. cbn [stdout set_client].
  rewrite Ho1. reflexivity.
Qed.

Lemma read_from_ok attempt k motor_id param_name retries w v cs out :
  channel w (Ok v :: cs) out ->
  exists w2,
    channel w2 cs out /\
    FindAngles.safe_read_param_from attempt (S k) motor_id param_name retries w
    = (Ok (Some v), w2).
Proof.
  intros Hch.
  destruct (flush_healthy w _ _ Hch) as (w1 & Ef & (H1 & Hc1 & Ho1)).
  exists (set_client w1 cs). split; [repeat split; assumption|].
  cbn [FindAngles.safe_read_param_from]. unfold try_except, bind.
  rewrite Ef. unfold client_read_param, client_call. rewrite Hc1. reflexivity.
Qed.

Lemma write_from_fail attempt k motor_id param_name value retries w e cs out :
  channel w (Raise e :: cs) out -> is_Exception e = true ->
  exists w2,
    channel w2 cs (out ++ [ErrorLine OpWrite (attempt + 1) motor_id param_name e]) /\
    FindAngles.safe_write_param_from attempt (S k) motor_id param_name value retries w
    = FindAngles.safe_write_param_from (S attempt) k motor_id param_name value retries w2.
Proof.
  intros Hch He.
  destruct (flush_healthy w _ _ Hch) as (w1 & Ef & (H1 & Hc1 & Ho1)).
  exists (set_stdout (set_client w1 cs)
            (out ++ [ErrorLine OpWrite (attempt + 1) motor_id param_name e])).
  split; [repeat split; exact H1|].
  cbn [FindAngles.safe_write_param_from]. unfold try_except at 1. unfold bind at 1.
  rewrite Ef. unfold client_write_param, client_call. unfold bind at 1.
  rewrite Hc1, He. unfold bind at 1, print, modify. cbn [stdout set_client].
  rewrite Ho1. reflexivity.
Qed.

(** Exceptions of class [Exception] never leave the retrying helpers. *)
Lemma flush_loop_only_Exceptions fuel : forall w,
  only_Exceptions w = true ->
  only_Exceptions (snd (FindAngles.flush_bus_loop fuel w)) = true /\
  (forall e, fst (FindAngles.flush_bus_loop fuel w) = Raise e -> is_Exception e = true).
Proof.
  induction fuel as [|fuel IH]; intros w H.
  - split; [exact H|]. cbn. discriminate.
  - cbn [FindAngles.flush_bus_loop]. unfold bind, bus_recv.
    unfold only_Exceptions in H.
    destruct (rx_script w) as [|[m| |e] rx] eqn:E; cbn [forallb] in H.
    + split; [|cbn; discriminate]. unfold only_Exceptions. cbn. exact H.
    + apply (IH (set_rx w rx (1 # 100))). exact H.
    + split; [|cbn; discriminate]. exact H.
    + apply andb_true_iff in H. destruct H as [H Hc].
      apply andb_true_iff in H. destruct H as [He H].
      split.
      * unfold only_Exceptions. cbn. rewrite H, Hc. reflexivity.
      * cbn. intros e' Ee. injection Ee as <-. exact He.
Qed.

Lemma client_call_only_Exceptions w :
  only_Exceptions w = true ->
  only_Exceptions (snd (client_call w)) = true /\
  (forall e, fst (client_call w) = Raise e -> is_Exception e = true).
Proof.
  intros H. unfold client_call. unfold only_Exceptions in *.
  destruct (client_script w) as [|r cs] eqn:E.
  - cbn [fst snd]. split; [rewrite E; exact H|].
    intros e Ee. injection Ee as <-. reflexivity.
  - cbn [forallb] in H. apply andb_true_iff in H. destruct H as [Hr H].
    apply andb_true_iff in H. destruct H as [Hx Hc].
    cbn [fst snd]. split.
    + cbn [rx_script client_script set_client]. rewrite Hr, Hc. reflexivity.
    + intros e Ee. subst r. exact Hx.
Qed.

Lemma print_only_Exceptions l w :
  only_Exceptions w = true -> only_Exceptions (snd (print l w)) = true.
Proof. intros H. exact H. Qed.

Lemma read_from_never_raises k : forall attempt motor_id param_name retries w,
  only_Exceptions w = true ->
  exists r w', FindAngles.safe_read_param_from attempt k motor_id param_name retries w
               = (Ok r, w').
Proof.
  induction k as [|k IH]; intros attempt motor_id param_name retries w H.
  - cbn [FindAngles.safe_read_param_from]. unfold bind, print, modify, ret. eauto.
  - cbn [FindAngles.safe_read_param_from]. unfold try_except.
    destruct (flush_loop_only_Exceptions (S (List.length (rx_script w))) w H) as [Hf1 Hf2].
    unfold bind at 1. unfold FindAngles.flush_bus at 1.
    destruct (FindAngles.flush_bus_loop (S (List.length (rx_script w))) w) as [[[]|e] w1].
    + cbn [fst snd] in *. unfold bind at 1. unfold client_read_param.
      destruct (client_call_only_Exceptions w1 Hf1) as [Hc1 Hc2].
      destruct (client_call w1) as [[v|e] w2]; cbn [fst snd] in *.
      * cbn. eauto.
      * rewrite (Hc2 e eq_refl). unfold bind at 1, print, modify.
        apply IH. exact Hc1.
    + cbn [fst snd] in *. rewrite (Hf2 e eq_refl). unfold bind at 1, print, modify.
      apply IH. exact Hf1.
Qed.

Lemma write_from_never_raises k : forall attempt motor_id param_name value retries w,
  only_Exceptions w = true ->
  exists w', FindAngles.safe_write_param_from attempt k motor_id param_name value retries w
             = (Ok tt, w').
Proof.
  induction k as [|k IH]; intros attempt motor_id param_name value retries w H.
  - cbn [FindAngles.safe_write_param_from]. unfold print, modify. eauto.
  - cbn [FindAngles.safe_write_param_from]. unfold try_except.
    destruct (flush_loop_only_Exceptions (S (List.length (rx_script w))) w H) as [Hf1 Hf2].
    unfold bind at 1. unfold FindAngles.flush_bus at 1.
    destruct (FindAngles.flush_bus_loop (S (List.length (rx_script w))) w) as [[[]|e] w1].
    + cbn [fst snd] in *. unfold client_write_param. unfold bind at 1.
      destruct (client_call_only_Exceptions w1 Hf1) as [Hc1 Hc2].
      destruct (client_call w1) as [[v|e] w2]; cbn [fst snd] in *.
      * cbn. eauto.
      * rewrite (Hc2 e eq_refl). unfold bind at 1, print, modify.
        apply IH. exact Hc1.
    + cbn [fst snd] in *. rewrite (Hf2 e eq_refl). unfold bind at 1, print, modify.
      apply IH. exact Hf1.
Qed.

(** C4.  With [retries = 3] on a healthy bus: when the read primitive fails
    on the first two attempts and answers on the third, [safe_read_param]
    returns the answer and prints exactly the two failed attempts; when it
    fails on all three, [safe_read_param] returns [None] after printing
    exactly three failed attempts (and the closing line).  Whatever the
    number of retries, neither [safe_read_param] nor [safe_write_param]
    raises when the primitive and the bus raise instances of [Exception]. *)
Theorem C4_param_channel_retries (motor_id : Z) (param_name : string) (w : World) :
  (rx_faultless w = true ->
   forall e1 e2 v cs,
     client_script w = Raise e1 :: Raise e2 :: Ok v :: cs ->
     is_Exception e1 = true -> is_Exception e2 = true ->
     exists w',
       FindAngles.safe_read_param motor_id param_name 3 w = (Ok (Some v), w') /\
       stdout w' = stdout w ++ [ErrorLine OpRead 1 motor_id param_name e1;
                                ErrorLine OpRead 2 motor_id param_name e2]) /\
  (rx_faultless w = true ->
   forall e1 e2 e3 cs,
     client_script w = Raise e1 :: Raise e2 :: Raise e3 :: cs ->
     is_Exception e1 = true -> is_Exception e2 = true -> is_Exception e3 = true ->
     exists w',
       FindAngles.safe_read_param motor_id param_name 3 w = (Ok None, w') /\
       stdout w' = stdout w ++ [ErrorLine OpRead 1 motor_id param_name e1;
                                ErrorLine OpRead 2 motor_id param_name e2;
                                ErrorLine OpRead 3 motor_id param_name e3;
                                FailedLine OpRead motor_id param_name 3]) /\
  (only_Exceptions w = true ->
   forall retries value,
     (exists r w', FindAngles.safe_read_param motor_id param_name retries w = (Ok r, w')) /\
     (exists w', FindAngles.safe_write_param motor_id param_name value retries w = (Ok tt, w'))).
Proof.
  split; [|split].
  - intros H e1 e2 v cs Ec H1 H2. unfold FindAngles.safe_read_param.
    destruct (read_from_fail 0 2 motor_id param_name 3 w e1 _ (stdout w)
                (conj H (conj Ec eq_refl)) H1) as (w1 & C1 & E1).
    destruct (read_from_fail 1 1 motor_id param_name 3 w1 e2 _ _ C1 H2) as (w2 & C2 & E2).
    destruct (read_from_ok 2 0 motor_id param_name 3 w2 v _ _ C2) as (w3 & C3 & E3).
    exists w3. rewrite E1, E2, E3. split; [reflexivity|].
    destruct C3 as (_ & _ & Ho). rewrite Ho, <- app_assoc. reflexivity.
  - intros H e1 e2 e3 cs Ec H1 H2 H3. unfold FindAngles.safe_read_param.
    destruct (read_from_fail 0 2 motor_id param_name 3 w e1 _ (stdout w)
                (conj H (conj Ec eq_refl)) H1) as (w1 & C1 & E1).
    destruct (read_from_fail 1 1 motor_id param_name 3 w1 e2 _ _ C1 H2) as (w2 & C2 & E2).
    destruct (read_from_fail 2 0 motor_id param_name 3 w2 e3 _ _ C2 H3) as (w3 & C3 & E3).
    rewrite E1, E2, E3. cbn [FindAngles.safe_read_param_from].
    unfold bind, print, modify, ret.
    eexists. split; [reflexivity|].
    destruct C3 as (_ & _ & Ho). cbn [stdout set_stdout]. rewrite Ho, <- !app_assoc. reflexivity.
  - intros H retries value. split.
    + apply read_from_never_raises. exact H.
    + apply write_from_never_raises. exact H.
Qed.

Lemma C4_witness :
  (rx_faultless flaky_world = true /\ only_Exceptions flaky_world = true) /\
  exists w',
    FindAngles.safe_read_param 1 "mechpos" 3 flaky_world = (Ok (Some 3.5%float), w') /\
    stdout w' = [ErrorLine OpRead 1 1 "mechpos" ClientError;
                 ErrorLine OpRead 2 1 "mechpos" ClientError].
Proof.
  split; [split; reflexivity|].
  destruct (C4_param_channel_retries 1 "mechpos" flaky_world) as (H & _ & _).
  apply (H eq_refl ClientError ClientError 3.5%float [] eq_refl eq_refl eq_refl).
Defined.

(** *** The flush before every attempt *)

Lemma repeat_snoc {A : Type} (x : A) n : repeat x n ++ [x] = x :: repeat x n.
Proof. induction n as [|n IH]; cbn; [reflexivity|]. rewrite IH. reflexivity. Qed.

Lemma flush_loop_log_findangles fuel : forall w,
  (leading_frames (rx_script w) < fuel)%nat ->
  recv_log (snd (FindAngles.flush_bus_loop fuel w))
  = recv_log w ++ repeat (1 # 100) (S (leading_frames (rx_script w))) /\
  rx_script (snd (FindAngles.flush_bus_loop fuel w)) = drain (rx_script w).
Proof.
  induction fuel as [|fuel IH]; intros w H; [lia|].
  cbn [FindAngles.flush_bus_loop]. unfold bind, bus_recv.
  destruct (rx_script w) as [|[m| |e] rx] eqn:E; cbn [leading_frames drain] in *;
    try (split; reflexivity).
  destruct (IH (set_rx w rx (1 # 100)) ltac:(cbn; lia)) as [H1 H2].
  cbn [rx_script recv_log set_rx] in H1, H2.
  rewrite H1, H2, <- app_assoc. split; reflexivity.
Qed.

Lemma flush_loop_log_findmotorid fuel : forall w,
  (leading_frames (rx_script w) < fuel)%nat ->
  recv_log (snd (FindMotorId.flush_bus_loop fuel w))
  = recv_log w ++ repeat 0%Q (S (leading_frames (rx_script w))) /\
  rx_script (snd (FindMotorId.flush_bus_loop fuel w)) = drain (rx_script w).
Proof.
  induction fuel as [|fuel IH]; intros w H; [lia|].
  cbn [FindMotorId.flush_bus_loop]. unfold bind, bus_recv.
  destruct (rx_script w) as [|[m| |e] rx] eqn:E; cbn [leading_frames drain] in *;
    try (split; reflexivity).
  destruct (IH (set_rx w rx 0%Q) ltac:(cbn; lia)) as [H1 H2].
  cbn [rx_script recv_log set_rx] in H1, H2.
  rewrite H1, H2, <- app_assoc. split; reflexivity.
Qed.

Lemma flush_loop_log_setpermzeros fuel : forall w,
  (leading_frames (rx_script w) < fuel)%nat ->
  recv_log (snd (SetPermZeros.flush_bus_loop fuel w))
  = recv_log w ++ repeat 0%Q (S (leading_frames (rx_script w))) /\
  rx_script (snd (SetPermZeros.flush_bus_loop fuel w)) = drain (rx_script w).
Proof.
  induction fuel as [|fuel IH]; intros w H; [lia|].
  cbn [SetPermZeros.flush_bus_loop]. unfold bind, bus_recv.
  destruct (rx_script w) as [|[m| |e] rx] eqn:E; cbn [leading_frames drain] in *;
    try (split; reflexivity).
  destruct (IH (set_rx w rx 0%Q) ltac:(cbn; lia)) as [H1 H2].
  cbn [rx_script recv_log set_rx] in H1, H2.
  rewrite H1, H2, <- app_assoc. split; reflexivity.
Qed.

(** C5 on the code.  Every flush drains the frames queued ahead of the
    first empty receive and makes one receive call more than it drains
    frames.  In [findmotorid.py] and [setpermzeros.py] every one of these
    calls has timeout [0]; in [findangles.py], whose helpers flush before
    every read and write attempt, every one has timeout [0.01]: the flush
    of the retrying parameter channel waits up to 10 ms in each call. *)
Theorem C5_flush_receive_timeouts (w : World) :
  let n := leading_frames (rx_script w) in
  recv_log (snd (FindMotorId.flush_bus w)) = recv_log w ++ repeat 0%Q (S n) /\
  recv_log (snd (SetPermZeros.flush_bus w)) = recv_log w ++ repeat 0%Q (S n) /\
  recv_log (snd (FindAngles.flush_bus w)) = recv_log w ++ repeat (1 # 100) (S n) /\
  rx_script (snd (FindMotorId.flush_bus w)) = drain (rx_script w) /\
  rx_script (snd (SetPermZeros.flush_bus w)) = drain (rx_script w) /\
  rx_script (snd (FindAngles.flush_bus w)) = drain (rx_script w) /\
  ~ (1 # 100 == 0)%Q.
Proof.
  intros n. pose proof (leading_frames_le (rx_script w)) as Hn.
  unfold FindMotorId.flush_bus, SetPermZeros.flush_bus, FindAngles.flush_bus.
  destruct (flush_loop_log_findmotorid (S (List.length (rx_script w))) w ltac:(lia)) as [A1 A2].
  destruct (flush_loop_log_setpermzeros (S (List.length (rx_script w))) w ltac:(lia)) as [B1 B2].
  destruct (flush_loop_log_findangles (S (List.length (rx_script w))) w ltac:(lia)) as [C1 C2].
  repeat split; try assumption. discriminate.
Qed.

(** The receive calls of a read that gives up after three attempts on a
    silent bus: one flush per attempt, each with timeout [0.01]. *)
Lemma C5_flush_before_every_attempt :
  recv_log (snd (FindAngles.safe_read_param 1 "mechpos" 3 silent_world))
  = [1 # 100; 1 # 100; 1 # 100] /\
  fst (FindAngles.safe_read_param 1 "mechpos" 3 silent_world) = Ok None /\
  recv_log (snd (FindAngles.flush_bus idle_world)) = [1 # 100].
Proof. repeat split; reflexivity. Qed.

(** *** The exit paths of the control loop *)

Lemma quiet_refl w : quiet w w.
Proof. split; reflexivity. Qed.

Lemma quiet_trans w1 w2 w3 : quiet w1 w2 -> quiet w2 w3 -> quiet w1 w3.
Proof. intros [A1 A2] [B1 B2]. split; congruence. Qed.

Lemma preserves_ret {A : Type} (a : A) : preserves (ret a).
Proof. intros s. apply quiet_refl. Qed.

Lemma preserves_of_result {A : Type} (r : result A) : preserves (of_result r).
Proof. intros s. apply quiet_refl. Qed.

Lemma preserves_bind {A B : Type} (c : M Fast.State A) (k : A -> M Fast.State B) :
  preserves c -> (forall a, preserves (k a)) -> preserves (bind c k).
Proof.
  intros Hc Hk s. unfold bind. specialize (Hc s).
  destruct (c s) as [[a|e] s1]; cbn [snd] in *; [|exact Hc].
  eapply quiet_trans; [exact Hc|apply Hk].
Qed.

Lemma preserves_lift {A : Type} (c : M World A) :
  (forall w, quiet w (snd (c w))) -> preserves (Fast.lift c).
Proof.
  intros H s. unfold Fast.lift. specialize (H (Fast.world s)).
  destruct (c (Fast.world s)) as [r w']. exact H.
Qed.

Lemma preserves_try_except {A : Type} catches (body : M Fast.State A) handler :
  preserves body -> (forall e, preserves (handler e)) ->
  preserves (try_except catches body handler).
Proof.
  intros Hb Hh s. unfold try_except. specialize (Hb s).
  destruct (body s) as [[a|e] s1]; cbn [snd] in *; [exact Hb|].
  destruct (catches e); [|exact Hb].
  eapply quiet_trans; [exact Hb|apply Hh].
Qed.

Lemma quiet_time_time w : quiet w (snd (time_time w)).
Proof. unfold time_time. destruct (clock w); split; reflexivity. Qed.

Lemma quiet_checkpoint w : quiet w (snd (checkpoint w)).
Proof. unfold checkpoint. destruct (signals w) as [|[e|] sg]; split; reflexivity. Qed.

Lemma quiet_time_sleep d w : quiet w (snd (time_sleep d w)).
Proof. unfold time_sleep. destruct (sleep_script w) as [|[e|] ss]; split; reflexivity. Qed.

Lemma quiet_bus_recv t w : quiet w (snd (bus_recv t w)).
Proof. unfold bus_recv. destruct (rx_script w) as [|[m| |e] rx]; split; reflexivity. Qed.

Lemma disable_frames_snoc log m :
  disable_frames (log ++ [m])
  = (disable_frames log + (if is_disable m then 1 else 0))%nat.
Proof.
  unfold disable_frames. rewrite filter_app, length_app. cbn [filter].
  destruct (is_disable m); reflexivity.
Qed.

Lemma quiet_bus_send m w : is_disable m = false -> quiet w (snd (bus_send m w)).
Proof.
  intros H. unfold bus_send.
  destruct (tx_script w) as [|[e|] ts]; split; cbn [snd bus_open tx_log set_tx];
    try reflexivity; rewrite disable_frames_snoc, H; lia.
Qed.

Lemma land_small x k : 0 <= k -> 0 <= Z.land x (Z.ones k) < 2 ^ k.
Proof. intros Hk. rewrite Z.land_ones by lia. apply Z.mod_pos_bound. lia. Qed.

(** A control frame carries communication type 1 whatever its torque field
    and its motor id. *)
Lemma mux_of_control torque_u16 motor_id payload :
  mux_of {| arbitration_id :=
              Z.lor (Z.lor (Z.shiftl (Z.land MUX_CONTROL 0xFF) 24)
                           (Z.shiftl (Z.land torque_u16 0xFFFF) 8))
                    (Z.land motor_id 0xFF);
            data := payload; is_extended_id := true; dlc := 8;
            is_error_frame := false |} = MUX_CONTROL.
Proof.
  unfold mux_of. cbn [arbitration_id]. rewrite !Z.shiftr_lor.
  rewrite (Z.shiftr_shiftl_r (Z.land torque_u16 0xFFFF) 8 24) by lia.
  pose proof (land_small torque_u16 16 ltac:(lia)) as Ht.
  pose proof (land_small motor_id 8 ltac:(lia)) as Hi.
  change (Z.ones 16) with 0xFFFF in Ht. change (Z.ones 8) with 0xFF in Hi.
  rewrite (Z.shiftr_div_pow2 (Z.land torque_u16 0xFFFF)) by lia.
  rewrite (Z.shiftr_div_pow2 (Z.land motor_id 0xFF)) by lia.
  rewrite (Z.div_small (Z.land torque_u16 0xFFFF)) by (change (2 ^ (24 - 8)) with 65536; change (2 ^ 16) with 65536 in Ht; lia).
  rewrite (Z.div_small (Z.land motor_id 0xFF)) by (change (2 ^ 24) with 16777216; change (2 ^ 8) with 256 in Hi; lia).
  reflexivity.
Qed.

Lemma quiet_send_control_command motor_id pos vel kp kd torque params w :
  quiet w (snd (send_control_command motor_id pos vel kp kd torque params w)).
Proof.
  unfold send_control_command, bind, of_result.
  destruct (scale_value_to_u16 pos _ _); [|apply quiet_refl].
  destruct (scale_value_to_u16 vel _ _); [|apply quiet_refl].
  destruct (scale_value_to_u16 kp _ _); [|apply quiet_refl].
  destruct (scale_value_to_u16 kd _ _); [|apply quiet_refl].
  destruct (scale_value_to_u16 torque _ _); [|apply quiet_refl].
  destruct (struct_pack_HHHH _ _ _ _); [|apply quiet_refl].
  apply quiet_bus_send. unfold is_disable. rewrite mux_of_control. reflexivity.
Qed.

Lemma preserves_set_state f : preserves (Fast.set_state f).
Proof. intros s. apply quiet_refl. Qed.

Lemma preserves_update_from params m : preserves (Fast.update_from params m).
Proof.
  unfold Fast.update_from.
  repeat first
    [ apply preserves_bind; [|intros ?]
    | apply preserves_of_result
    | apply preserves_set_state
    | apply preserves_lift; apply quiet_time_time
    | apply preserves_lift; apply quiet_checkpoint ].
Qed.

Lemma preserves_handle_frame params m : preserves (Fast.handle_frame params m).
Proof.
  unfold Fast.handle_frame.
  destruct (is_error_frame m); [apply preserves_ret|].
  destruct (Fast.extract_motor_id m =? Fast.MOTOR_ID); [|apply preserves_ret].
  apply preserves_try_except; [apply preserves_update_from|].
  intros e. apply preserves_ret.
Qed.

Lemma preserves_read_feedback_loop params fuel :
  preserves (Fast.read_feedback_loop fuel params).
Proof.
  induction fuel as [|fuel IH]; cbn [Fast.read_feedback_loop]; [apply preserves_ret|].
  apply preserves_bind; [apply preserves_lift; apply quiet_bus_recv|].
  intros [m|]; [|apply preserves_ret].
  apply preserves_bind; [apply preserves_handle_frame|]. intros _. exact IH.
Qed.

Lemma preserves_read_feedback params : preserves (Fast.read_feedback params).
Proof. intros s. unfold Fast.read_feedback. apply preserves_read_feedback_loop. Qed.

Lemma preserves_record t x : preserves (Fast.record t x).
Proof. intros s. apply quiet_refl. Qed.

Lemma preserves_tick py_sin py_cos params start_time :
  preserves (Fast.tick py_sin py_cos params start_time).
Proof.
  unfold Fast.tick.
  apply preserves_bind; [apply preserves_lift; apply quiet_time_time|]. intros loop_start.
  apply preserves_bind; [apply preserves_read_feedback|]. intros _.
  apply preserves_bind;
    [apply preserves_lift; intros w; apply quiet_send_control_command|]. intros _.
  apply preserves_bind; [apply preserves_record|]. intros _.
  apply preserves_bind; [apply preserves_of_result|]. intros _.
  apply preserves_bind; [apply preserves_lift; apply quiet_time_time|]. intros now.
  destruct (0 <? _)%float; [|apply preserves_ret].
  apply preserves_lift. apply quiet_time_sleep.
Qed.

Lemma while_true_quiet body : preserves body ->
  forall fuel s e s', Fast.while_true fuel body s = Some (e, s') ->
  quiet (Fast.world s) (Fast.world s').
Proof.
  intros Hb. induction fuel as [|fuel IH]; intros s e s' H; [discriminate|].
  cbn [Fast.while_true] in H. specialize (Hb s).
  destruct (body s) as [[[]|e1] s1]; cbn [snd] in Hb.
  - eapply quiet_trans; [exact Hb|]. eapply IH. exact H.
  - injection H as _ <-. exact Hb.
Qed.

Lemma try_block_quiet py_sin py_cos params fuel s e s' :
  Fast.try_block py_sin py_cos params fuel s = Some (e, s') ->
  quiet (Fast.world s) (Fast.world s').
Proof.
  unfold Fast.try_block.
  assert (P : preserves (Fast.lift (bus_send (command_frame MUX_ENABLE Fast.MOTOR_ID)) ;;
                         Fast.lift (time_sleep 1) ;; Fast.lift time_time)).
  { apply preserves_bind;
      [apply preserves_lift; intros w; apply quiet_bus_send; reflexivity|]. intros _.
    apply preserves_bind; [apply preserves_lift; apply quiet_time_sleep|]. intros _.
    apply preserves_lift. apply quiet_time_time. }
  specialize (P s).
  destruct ((Fast.lift (bus_send (command_frame MUX_ENABLE Fast.MOTOR_ID)) ;;
             Fast.lift (time_sleep 1) ;; Fast.lift time_time) s) as [[t|e1] s1];
    cbn [snd] in P; intros H.
  - eapply quiet_trans; [exact P|].
    eapply while_true_quiet; [apply preserves_tick|exact H].
  - injection H as _ <-. exact P.
Qed.

(** The [finally] block: it completes, or leaves the bus open. *)
Lemma finally_block_cases s :
  match Fast.finally_block s with
  | (Ok _, s') =>
      tx_log (Fast.world s')
      = tx_log (Fast.world s) ++ [command_frame MUX_DISABLE Fast.MOTOR_ID] /\
      bus_open (Fast.world s') = false
  | (Raise e, s') =>
      bus_open (Fast.world s') = bus_open (Fast.world s) /\
      (tx_log (Fast.world s') = tx_log (Fast.world s) \/
       tx_log (Fast.world s')
       = tx_log (Fast.world s) ++ [command_frame MUX_DISABLE Fast.MOTOR_ID])
  end.
Proof.
  unfold Fast.finally_block, bind, Fast.lift, bus_send, time_sleep, bus_shutdown, modify.
  destruct s as [w st h]. cbn [Fast.world].
  destruct (tx_script w) as [|[e|] ts]; cbn [Fast.world tx_log bus_open set_tx sleep_script];
    destruct (sleep_script w) as [|[e'|] ss]; cbn; auto.
Qed.


(** A refused frame ends [send_control_command] with the log unchanged. *)
Lemma send_control_command_refused motor_id pos vel kp kd torque params w e ts :
  tx_script w = Some e :: ts ->
  exists e' w',
    send_control_command motor_id pos vel kp kd torque params w = (Raise e', w') /\
    tx_log w' = tx_log w /\ bus_open w' = bus_open w /\
    sleep_script w' = sleep_script w /\
    (tx_script w' = Some e :: ts \/ e' = e /\ tx_script w' = ts).
Proof.
  intros H. unfold send_control_command, bind, of_result.
  destruct (scale_value_to_u16 pos _ _) as [a|e1]; [|exists e1, w; auto 6].
  destruct (scale_value_to_u16 vel _ _) as [b|e1]; [|exists e1, w; auto 6].
  destruct (scale_value_to_u16 kp _ _) as [c|e1]; [|exists e1, w; auto 6].
  destruct (scale_value_to_u16 kd _ _) as [d|e1]; [|exists e1, w; auto 6].
  destruct (scale_value_to_u16 torque _ _) as [t|e1]; [|exists e1, w; auto 6].
  destruct (struct_pack_HHHH _ _ _ _) as [bs|e1]; [|exists e1, w; auto 6].
  unfold bus_send. rewrite H. eexists _, _. split; [reflexivity|]. cbn. auto 6.
Qed.

Lemma main_bus_lost_mid_run py_sin py_cos fuel :
  exists s', Fast.main py_sin py_cos (S fuel) bus_lost_mid_run = Some (Raise CanError, s') /\
     bus_open (Fast.world s') = true /\
     tx_log (Fast.world s') = [command_frame MUX_ENABLE Fast.MOTOR_ID].
Proof.
  unfold Fast.main. cbn [dict_get MOTOR_ID_TO_TYPE_MAP Fast.MOTOR_ID Z.eqb Pos.eqb].
  cbn [dict_get MOTOR_TYPE_PARAMS String.eqb Ascii.eqb Bool.eqb].
  unfold Fast.try_block.
  cbn [bind Fast.lift bus_send time_sleep time_time Fast.init Fast.world bus_lost_mid_run
       tx_script sleep_script clock set_tx tx_log rx_script client_script recv_log stdout bus_open
       Fast.current_motor_state Fast.history Fast.while_true].
  unfold Fast.tick at 1.
  cbn [bind Fast.lift bus_send time_sleep time_time Fast.init Fast.world bus_lost_mid_run
       tx_script sleep_script clock set_tx tx_log rx_script client_script recv_log stdout bus_open
       Fast.current_motor_state Fast.history Fast.read_feedback Fast.read_feedback_loop
       List.length bus_recv set_rx ret app].
  unfold bind at 1. unfold Fast.lift at 1. cbn [Fast.world].
  match goal with
  | |- context [send_control_command ?i ?p ?v ?kp ?kd ?t ?ps ?w] =>
      destruct (send_control_command_refused i p v kp kd t ps w CanError [Some CanError] eq_refl)
        as (e' & w' & E & L & B & Sl & T)
  end.
  rewrite E.
  unfold try_finally, Fast.finally_block, bind, Fast.lift, ret, raise.
  cbn [Fast.world].
  destruct (Fast.handled e'); cbn [Fast.world]; unfold bus_send;
    destruct T as [T|[_ T]]; rewrite T;
    (eexists; split; [reflexivity|]; cbn [Fast.world bus_open tx_log set_tx];
     split; [exact B|exact L]).
Qed.

Lemma main_interrupted_twice py_sin py_cos fuel :
  exists s',
    Fast.main py_sin py_cos fuel interrupted_twice = Some (Raise KeyboardInterrupt, s') /\
    bus_open (Fast.world s') = true /\
    tx_log (Fast.world s')
    = [command_frame MUX_ENABLE Fast.MOTOR_ID; command_frame MUX_DISABLE Fast.MOTOR_ID].
Proof. eexists. repeat split; reflexivity. Qed.

Lemma main_shutdown_sends_one_disable py_sin py_cos fuel w r s' :
  Fast.main py_sin py_cos fuel w = Some (r, s') -> bus_open w = true ->
  (r = Ok tt -> bus_open (Fast.world s') = false) /\
  (bus_open (Fast.world s') = false ->
   disable_frames (tx_log (Fast.world s')) = S (disable_frames (tx_log w)) /\
   exists log,
     tx_log (Fast.world s') = log ++ [command_frame MUX_DISABLE Fast.MOTOR_ID]).
Proof.
  unfold Fast.main. cbn [dict_get MOTOR_ID_TO_TYPE_MAP Fast.MOTOR_ID Z.eqb Pos.eqb].
  cbn [dict_get MOTOR_TYPE_PARAMS String.eqb Ascii.eqb Bool.eqb].
  destruct (Fast.try_block py_sin py_cos O2 fuel (Fast.init w)) as [[e s1]|] eqn:E;
    [|discriminate].
  apply try_block_quiet in E. destruct E as [Q1 Q2]. cbn [Fast.world Fast.init] in Q1, Q2.
  intros H Hopen. injection H as H. unfold try_finally in H.
  pose proof (finally_block_cases s1) as F.
  assert (B : exists r0, (if Fast.handled e then ret tt else raise e) s1 = (r0, s1)
                         /\ (r0 = Ok tt \/ exists e0, r0 = Raise e0)).
  { destruct (Fast.handled e); eexists; (split; [reflexivity|]); eauto. }
  destruct B as (r0 & B & _). rewrite B in H.
  destruct (Fast.finally_block s1) as [[[]|e2] s2]; injection H as <- <-.
  - destruct F as [F1 F2]. split; [intros _; exact F2|]. intros _.
    rewrite F1, disable_frames_snoc, Q2. split; [cbn; lia|eauto].
  - destruct F as [F1 _]. split; [discriminate|]. congruence.
Qed.

(** C6 on the code.  Whatever [math.sin] and [math.cos] return: (1) on every
    exit of the main program that does shut the bus down, exactly one
    disable frame was sent, and it is the last frame the bus accepted; an
    exit with no pending exception has shut the bus down.  (2) When the bus
    accepts the enable frame and then refuses every send, the fault of the
    control frame is caught, the [finally] block runs, its own [bus.send]
    raises, and the program ends with no disable frame sent and the bus
    still open.  (3) When the operator interrupts the start-up delay and
    again the settle delay, the disable frame is sent once and the bus is
    left open.  The [finally] block does not guard its statements. *)
Theorem C6_exit_paths (py_sin py_cos : float -> float) :
  (forall fuel w r s',
     Fast.main py_sin py_cos fuel w = Some (r, s') -> bus_open w = true ->
     (r = Ok tt -> bus_open (Fast.world s') = false) /\
     (bus_open (Fast.world s') = false ->
      disable_frames (tx_log (Fast.world s')) = S (disable_frames (tx_log w)) /\
      exists log,
        tx_log (Fast.world s') = log ++ [command_frame MUX_DISABLE Fast.MOTOR_ID])) /\
  (forall fuel, exists s',
     Fast.main py_sin py_cos (S fuel) bus_lost_mid_run = Some (Raise CanError, s') /\
     bus_open (Fast.world s') = true /\
     disable_frames (tx_log (Fast.world s')) = 0%nat) /\
  (forall fuel, exists s',
     Fast.main py_sin py_cos fuel interrupted_twice = Some (Raise KeyboardInterrupt, s') /\
     bus_open (Fast.world s') = true /\
     disable_frames (tx_log (Fast.world s')) = 1%nat).
Proof.
  split; [|split].
  - intros fuel w r s'. apply main_shutdown_sends_one_disable.
  - intros fuel. destruct (main_bus_lost_mid_run py_sin py_cos fuel) as (s' & A & B & C).
    exists s'. rewrite C. repeat split; assumption || reflexivity.
  - intros fuel. destruct (main_interrupted_twice py_sin py_cos fuel) as (s' & A & B & C).
    exists s'. rewrite C. repeat split; assumption || reflexivity.
Qed.

Lemma C6_witness :
  exists s',
    Fast.main (fun x => x) (fun x => x) 7 interrupted_once = Some (Ok tt, s') /\
    bus_open interrupted_once = true /\
    bus_open (Fast.world s') = false /\
    disable_frames (tx_log (Fast.world s')) = 1%nat.
Proof.
  eexists. split; [reflexivity|]. split; [reflexivity|].
  match goal with
  | |- bus_open (Fast.world ?s) = false /\ _ =>
      destruct (C6_exit_paths (fun x => x) (fun x => x)) as (H & _ & _);
      destruct (H 7%nat interrupted_once (Ok tt) s eq_refl eq_refl) as [A B]
  end.
  split; [exact (A eq_refl)|exact (proj1 (B (A eq_refl)))].
Defined.

(** *** The round trip through the codec *)

(** At [v = -4.19] in the position range [[-12.57, 12.57]] of every shipped
    profile the code encodes 21844 (the scaled value rounds to just below
    21845) and decodes to a value further from [v] than one step, whether
    the distance is measured exactly or in binary64. *)
Lemma C7_counterexample :
  (-12.57 <=? -4.19)%float = true /\ (-4.19 <=? 12.57)%float = true /\
  scale_value_to_u16 (-4.19) (-12.57) 12.57 = Ok 21844 /\
  ~ (Qabs (F2Q (unscale_u16_to_float 21844 (-12.57) 12.57) - F2Q (-4.19))
     <= (F2Q 12.57 - F2Q (-12.57)) / 65535)%Q /\
  (abs (unscale_u16_to_float 21844 (-12.57) 12.57 - -4.19)
   <=? (12.57 - -12.57) / 65535)%float = false.
Proof.
  split; [reflexivity|]. split; [reflexivity|]. split; [vm_compute; reflexivity|].
  split; [|vm_compute; reflexivity].
  intros H. apply Qle_bool_iff in H. vm_compute in H. discriminate.
Qed.

Lemma exact_clip_in_range (v lo hi : Q) :
  (lo <= v)%Q -> (v <= hi)%Q -> (Exact.np_clip v lo hi == v)%Q.
Proof.
  intros H1 H2. unfold Exact.np_clip.
  rewrite (Q.max_l v lo) by exact H1. apply Q.min_r. exact H2.
Qed.

Lemma exact_py_int_floor (q : Q) : (0 <= q)%Q -> Exact.py_int q = Qfloor q.
Proof.
  intros H. unfold Exact.py_int. destruct q as [n d]. cbn [Qnum Qden Qfloor].
  apply Z.quot_div_nonneg; [|lia].
  unfold Qle in H. cbn in H. lia.
Qed.

(** With every operation exact the decoded value lies below [v], by less
    than one step. *)
Lemma exact_round_trip (lo hi v : Q) :
  (lo < hi)%Q -> (lo <= v)%Q -> (v <= hi)%Q ->
  let n := Exact.scale_value_to_u16 v lo hi in
  (0 <= n <= 65535)%Z /\
  (Exact.unscale_u16_to_float n lo hi <= v)%Q /\
  (v - Exact.unscale_u16_to_float n lo hi < (hi - lo) / 65535)%Q.
Proof.
  intros Hw H1 H2 n.
  set (x := (65535 * (Exact.np_clip v lo hi - lo) / (hi - lo))%Q).
  assert (Hx : (x * (hi - lo) == 65535 * (v - lo))%Q).
  { unfold x. rewrite exact_clip_in_range by assumption.
    field. lra. }
  assert (Hx0 : (0 <= x)%Q).
  { destruct (Qlt_le_dec x 0) as [Hneg|]; [|assumption]. exfalso. nra. }
  assert (Hn : n = Qfloor x) by (apply exact_py_int_floor; exact Hx0).
  pose proof (Qfloor_le x) as F1. pose proof (Qlt_floor x) as F2.
  rewrite <- Hn in F1, F2. rewrite inject_Z_plus in F2.
  assert (Hx1 : (x <= 65535)%Q).
  { destruct (Qlt_le_dec 65535 x) as [Hbig|]; [|assumption]. exfalso. nra. }
  split.
  - split.
    + rewrite Hn. change 0 with (Qfloor 0). apply Qfloor_resp_le. exact Hx0.
    + rewrite Hn. change 65535 with (Qfloor 65535). apply Qfloor_resp_le. exact Hx1.
  - unfold Exact.unscale_u16_to_float.
    set (N := inject_Z n) in *. clearbody N. clearbody x.
    set (D := (N / 65535 * (hi - lo) + lo)%Q).
    assert (E : (65535 * (v - D) == 65535 * (v - lo) - N * (hi - lo))%Q)
      by (unfold D; field).
    set (step := ((hi - lo) / 65535)%Q).
    assert (E3 : (65535 * step == hi - lo)%Q) by (unfold step; field).
    clearbody D step. change (inject_Z 1) with 1%Q in F2.
    split; nra.
Qed.

(** In exact arithmetic the claim of C7 holds as stated: the decoded value
    differs from the value by at most one step, and the encoded value lies
    in 0..65535. *)
Lemma exact_round_trip_within_step (lo hi v : Q) :
  (lo < hi)%Q -> (lo <= v)%Q -> (v <= hi)%Q ->
  (0 <= Exact.scale_value_to_u16 v lo hi <= 65535)%Z /\
  (Qabs (Exact.unscale_u16_to_float (Exact.scale_value_to_u16 v lo hi) lo hi - v)
   <= (hi - lo) / 65535)%Q.
Proof.
  intros Hw H1 H2. destruct (exact_round_trip lo hi v Hw H1 H2) as (A & B & C).
  split; [exact A|]. apply Qabs_Qle_condition. split; lra.
Qed.

(** C7, amended.  For every finite range inside [(-2^900, 2^900)] with
    [min < max] and every [v] with [min <= v <= max], the code encodes [v]
    to some [n] in 0..65535, decodes [n] to a finite float, and the decoded
    value differs from [v] by at most one step [(max - min) / 65535] plus
    the rounding of the seven binary64 operations, which is at most
    [2^-48 * (|min| + |max|) + 2^-1074].  Distances are between the exact
    values of the floats. *)
Theorem C7_round_trip_within_step_and_rounding (v lo hi : float) :
  is_finite lo = true -> is_finite hi = true -> (lo <? hi)%float = true ->
  (-0x1p+900 <? lo)%float = true -> (hi <? 0x1p+900)%float = true ->
  (lo <=? v)%float = true -> (v <=? hi)%float = true ->
  exists n,
    scale_value_to_u16 v lo hi = Ok n /\ (0 <= n <= 65535)%Z /\
    is_finite (unscale_u16_to_float n lo hi) = true /\
    (Qabs (F2Q (unscale_u16_to_float n lo hi) - F2Q v)
     <= (F2Q hi - F2Q lo) / 65535
        + (1 # 2 ^ 48) * (Qabs (F2Q lo) + Qabs (F2Q hi)) + (1 # 2 ^ 1074))%Q.
Proof.
  intros Flo Fhi Hlt Hlo Hhi H1 H2.
  destruct (round_trip_bound v lo hi Flo Fhi Hlt Hlo Hhi H1 H2) as (n & En & Hn & FD & HD).
  exists n. split; [exact En|]. split; [exact Hn|]. split; [exact FD|].
  apply Rle_Qle.
  rewrite !Q2R_plus, Q2R_mult, Q2R_plus, Q2R_div by discriminate.
  rewrite !Q2R_Qabs, !Q2R_minus, !Q2R_F2Q.
  replace (Q2R 65535) with 65535%R by (unfold Q2R; simpl; lra).
  replace (Q2R (1 # 2 ^ 48)) with (bpow (-48)).
  2:{ unfold Q2R. cbn [Qnum Qden]. rewrite Pos2Z.inj_pow, <- bpow_IZR by lia.
      change (-48)%Z with (Z.opp 48). rewrite bpow_opp. lra. }
  replace (Q2R (1 # 2 ^ 1074)) with (bpow emin).
  2:{ unfold Q2R. cbn [Qnum Qden]. rewrite Pos2Z.inj_pow, <- bpow_IZR by lia.
      change emin with (Z.opp 1074). rewrite bpow_opp. lra. }
  exact HD.
Qed.

Lemma C7_witness :
  (is_finite (-12.57) = true /\ is_finite 12.57 = true /\
   (-12.57 <? 12.57)%float = true /\
   (-0x1p+900 <? -12.57)%float = true /\ (12.57 <? 0x1p+900)%float = true /\
   (-12.57 <=? -4.19)%float = true /\ (-4.19 <=? 12.57)%float = true) /\
  exists n,
    scale_value_to_u16 (-4.19) (-12.57) 12.57 = Ok n /\ (0 <= n <= 65535)%Z /\
    is_finite (unscale_u16_to_float n (-12.57) 12.57) = true /\
    (Qabs (F2Q (unscale_u16_to_float n (-12.57) 12.57) - F2Q (-4.19))
     <= (F2Q 12.57 - F2Q (-12.57)) / 65535
        + (1 # 2 ^ 48) * (Qabs (F2Q (-12.57)) + Qabs (F2Q 12.57)) + (1 # 2 ^ 1074))%Q.
Proof.
  split; [repeat split; reflexivity|].
  apply (C7_round_trip_within_step_and_rounding (-4.19) (-12.57) 12.57); reflexivity.
Defined.

(** * Further properties of the code *)

(** ** UnitCodec: saturation and decoding accuracy *)

(** X1.  The encoder saturates.  For every finite range with [min < max] and
    every input that is not a NaN, the infinities included: an input at or
    below [min] encodes to [0], and an input at or above [max] encodes to
    what [max] itself encodes to. *)
Theorem scale_value_to_u16_saturates (v lo hi : float) :
  is_nan v = false -> is_finite lo = true -> is_finite hi = true ->
  (lo <? hi)%float = true ->
  ((v <=? lo)%float = true -> scale_value_to_u16 v lo hi = Ok 0) /\
  ((hi <=? v)%float = true ->
   scale_value_to_u16 v lo hi = scale_value_to_u16 hi lo hi).
Proof.
  intros Nv Flo Fhi Hlt. split; intros H.
  - destruct (np_clip_below v lo hi Nv Flo Fhi Hlt H) as [Fc Ec].
    unfold scale_value_to_u16. apply scale_zero_num; try assumption.
    + apply is_finite_spec, Flo.
    + apply is_finite_spec, Fhi.
    + apply ltb_true_fin; try assumption; apply is_finite_spec; assumption.
  - unfold scale_value_to_u16.
    rewrite (np_clip_above v lo hi Nv Flo Fhi Hlt H).
    rewrite (np_clip_at_max lo hi Flo Fhi Hlt). reflexivity.
Qed.

Lemma scale_value_to_u16_saturates_witness :
  scale_value_to_u16 neg_infinity (-12.57) 12.57 = Ok 0 /\
  scale_value_to_u16 infinity (-12.57) 12.57 = scale_value_to_u16 12.57 (-12.57) 12.57 /\
  scale_value_to_u16 1e9 (-44.0) 44.0 = scale_value_to_u16 44.0 (-44.0) 44.0.
Proof.
  split; [|split].
  - apply (scale_value_to_u16_saturates neg_infinity (-12.57) 12.57); reflexivity.
  - apply (scale_value_to_u16_saturates infinity (-12.57) 12.57); reflexivity.
  - apply (scale_value_to_u16_saturates 1e9 (-44.0) 44.0); reflexivity.
Defined.

(** X6.  The decoder against the exact affine map.  For every finite range
    inside [(-2^900, 2^900)] with [min < max] and every raw value [n] in
    0..65535, [unscale_u16_to_float] returns a finite float whose exact
    value differs from [n * (max - min) / 65535 + min] by at most
    [19 * 2^-53 * (|min| + |max|) + 2^-1074]; raw value 0 decodes to [min]
    exactly. *)
Theorem unscale_u16_to_float_accuracy (n : Z) (lo hi : float) :
  is_finite lo = true -> is_finite hi = true -> (lo <? hi)%float = true ->
  (-0x1p+900 <? lo)%float = true -> (hi <? 0x1p+900)%float = true ->
  0 <= n <= 65535 ->
  is_finite (unscale_u16_to_float n lo hi) = true /\
  (Qabs (F2Q (unscale_u16_to_float n lo hi)
         - (inject_Z n * (F2Q hi - F2Q lo) / 65535 + F2Q lo))
   <= (19 # 2 ^ 53) * (Qabs (F2Q lo) + Qabs (F2Q hi)) + (1 # 2 ^ 1074))%Q /\
  (F2Q (unscale_u16_to_float 0 lo hi) == F2Q lo)%Q.
Proof.
  intros Flo Fhi Hlt Hlo Hhi Hn.
  apply is_finite_spec in Flo, Fhi.
  apply ltb_true_fin in Hlt; try assumption.
  apply ltb_true_fin in Hlo; [|exact fin_m900|exact Flo].
  apply ltb_true_fin in Hhi; [|exact Fhi|exact fin_900].
  rewrite bpow_m900 in Hlo. rewrite bpow_900 in Hhi.
  destruct (unscale_close n lo hi Flo Fhi Hlt Hlo Hhi Hn) as [FD HD].
  split; [|split].
  - unfold is_finite. rewrite (is_fin_not_nan _ FD), (is_infinity_false _ FD). reflexivity.
  - apply Rle_Qle.
    rewrite !Q2R_plus, !Q2R_mult, Q2R_plus by discriminate.
    rewrite !Q2R_Qabs, Q2R_minus, Q2R_plus, Q2R_div, Q2R_mult, Q2R_minus by discriminate.
    rewrite !Q2R_F2Q.
    replace (Q2R 65535) with 65535%R by (unfold Q2R; simpl; lra).
    replace (Q2R (inject_Z n)) with (IZR n)
      by (unfold Q2R, inject_Z; cbn [Qnum Qden]; rewrite Rinv_1; lra).
    replace (Q2R (19 # 2 ^ 53)) with (19 * delta)%R.
    2:{ unfold Q2R, delta. cbn [Qnum Qden]. rewrite Pos2Z.inj_pow, <- bpow_IZR by lia.
        change (- prec)%Z with (Z.opp 53). rewrite bpow_opp. reflexivity. }
    replace (Q2R (1 # 2 ^ 1074)) with (2 * eta)%R.
    2:{ unfold Q2R, eta. cbn [Qnum Qden]. rewrite Pos2Z.inj_pow, <- bpow_IZR by lia.
        rewrite bpow_pred. change emin with (Z.opp 1074). rewrite bpow_opp. lra. }
    exact HD.
  - apply eqR_Qeq. rewrite !Q2R_F2Q. apply unscale_zero; try assumption.
    rewrite bpow_901. lra.
Qed.

Lemma unscale_u16_to_float_accuracy_witness :
  is_finite (unscale_u16_to_float 21844 (-12.57) 12.57) = true /\
  (F2Q (unscale_u16_to_float 0 (-12.57) 12.57) == F2Q (-12.57))%Q.
Proof.
  destruct (unscale_u16_to_float_accuracy 21844 (-12.57) 12.57) as (A & _ & B);
    try reflexivity; [lia|]. split; assumption.
Defined.

(** ** FrameCodec: what [send_control_command] does to the bus *)

(** X2.  A NaN among the five command values makes [send_control_command]
    raise before anything reaches the bus: the world is left untouched; a
    NaN position raises [ValueError]. *)
Theorem send_control_command_nan_sends_nothing
  (motor_id : Z) (pos vel kp kd torque : float) (params : Params) (w : World) :
  is_nan pos || is_nan vel || is_nan kp || is_nan kd || is_nan torque = true ->
  (exists e, send_control_command motor_id pos vel kp kd torque params w = (Raise e, w)) /\
  (is_nan pos = true ->
   send_control_command motor_id pos vel kp kd torque params w = (Raise ValueError, w)).
Proof.
  intros H. unfold send_control_command, bind, of_result. split.
  - destruct (is_nan pos) eqn:Np; [rewrite (scale_nan pos _ _ Np); eauto|].
    destruct (scale_value_to_u16 pos _ _) as [a|e]; [|eauto].
    destruct (is_nan vel) eqn:Nv; [rewrite (scale_nan vel _ _ Nv); eauto|].
    destruct (scale_value_to_u16 vel _ _) as [b|e]; [|eauto].
    destruct (is_nan kp) eqn:Nkp; [rewrite (scale_nan kp _ _ Nkp); eauto|].
    destruct (scale_value_to_u16 kp _ _) as [c|e]; [|eauto].
    destruct (is_nan kd) eqn:Nkd; [rewrite (scale_nan kd _ _ Nkd); eauto|].
    destruct (scale_value_to_u16 kd _ _) as [d|e]; [|eauto].
    cbn [orb] in H. rewrite (scale_nan torque _ _ H). eauto.
  - intros Np. rewrite (scale_nan pos _ _ Np). reflexivity.
Qed.

Lemma send_control_command_nan_sends_nothing_witness :
  send_control_command 1 nan 0.0 20.0 1.0 0.0 O2 idle_world = (Raise ValueError, idle_world).
Proof.
  apply (send_control_command_nan_sends_nothing 1 nan 0.0 20.0 1.0 0.0 O2 idle_world);
    reflexivity.
Defined.

Lemma lor_shiftl_add h l k :
  0 <= k -> 0 <= l < 2 ^ k -> Z.lor (Z.shiftl h k) l = h * 2 ^ k + l.
Proof.
  intros Hk Hl.
  assert (E := Z.add_lor_land (Z.shiftl h k) l).
  assert (L : Z.land (Z.shiftl h k) l = 0).
  { apply Z.bits_inj'. intros n Hn.
    rewrite Z.land_spec, Z.bits_0. destruct (Z.ltb_spec n k).
    - rewrite Z.shiftl_spec_low by lia. reflexivity.
    - replace (Z.testbit l n) with false; [apply andb_false_r|].
      assert (Hm : l mod 2 ^ k = l) by (apply Z.mod_small; lia).
      rewrite <- Hm. symmetry. apply Z.mod_pow2_bits_high. lia. }
  rewrite L, Z.add_0_r in E. rewrite E, Z.shiftl_mul_pow2 by lia. reflexivity.
Qed.

(** The arbitration id of a control frame as a sum of its three fields. *)
Lemma control_id_sum torque_u16 motor_id :
  Z.lor (Z.lor (Z.shiftl (Z.land MUX_CONTROL 0xFF) 24)
               (Z.shiftl (Z.land torque_u16 0xFFFF) 8))
        (Z.land motor_id 0xFF)
  = 16777216 + 256 * Z.land torque_u16 0xFFFF + Z.land motor_id 0xFF.
Proof.
  pose proof (land_small torque_u16 16 ltac:(lia)) as Ht.
  pose proof (land_small motor_id 8 ltac:(lia)) as Hi.
  change (Z.ones 16) with 0xFFFF in Ht. change (Z.ones 8) with 0xFF in Hi.
  change (2 ^ 16) with 65536 in Ht. change (2 ^ 8) with 256 in Hi.
  change (Z.shiftl (Z.land MUX_CONTROL 255) 24) with (Z.shiftl (Z.shiftl 1 16) 8).
  rewrite <- Z.shiftl_lor.
  rewrite (lor_shiftl_add 1 (Z.land torque_u16 65535) 16) by (change (2 ^ 16) with 65536; lia).
  rewrite lor_shiftl_add by (change (2 ^ 8) with 256; lia).
  change (2 ^ 16) with 65536. change (2 ^ 8) with 256. lia.
Qed.

Lemma id_fields_of_sum (m : Message) (mux d l : Z) :
  arbitration_id m = 16777216 * mux + 256 * d + l ->
  0 <= mux -> 0 <= d <= 65535 -> 0 <= l <= 255 ->
  mux_of m = mux /\ id_data m = d /\ id_low m = l.
Proof.
  intros E Hm Hd Hl. unfold mux_of, id_data, id_low. rewrite E.
  rewrite !Z.shiftr_div_pow2 by lia.
  change 0xFFFF with (Z.ones 16). change 0xFF with (Z.ones 8).
  rewrite !Z.land_ones by lia.
  change (2 ^ 24) with 16777216. change (2 ^ 8) with 256. change (2 ^ 16) with 65536.
  split; [|split].
  - symmetry. apply Z.div_unique with (256 * d + l); lia.
  - assert (E1 : (16777216 * mux + 256 * d + l) / 256 = 65536 * mux + d).
    { symmetry. apply Z.div_unique with l; lia. }
    rewrite E1. symmetry. apply Z.mod_unique with mux; lia.
  - symmetry. apply Z.mod_unique with (65536 * mux + d); lia.
Qed.

(** Everything [send_control_command] can do, in one statement. *)
Lemma send_control_command_cases
  (motor_id : Z) (pos vel kp kd torque : float) (params : Params) (w : World) :
  let out := send_control_command motor_id pos vel kp kd torque params w in
  (rx_script (snd out) = rx_script w /\ recv_log (snd out) = recv_log w /\
   sleep_script (snd out) = sleep_script w /\ clock (snd out) = clock w /\
   client_script (snd out) = client_script w /\ stdout (snd out) = stdout w /\
   bus_open (snd out) = bus_open w /\ signals (snd out) = signals w) /\
  match fst out with
  | Ok _ =>
      exists msg torque_u16,
        tx_log (snd out) = tx_log w ++ [msg] /\
        scale_value_to_u16 torque (T_MIN params) (T_MAX params) = Ok torque_u16 /\
        arbitration_id msg
        = 16777216 * MUX_CONTROL + 256 * Z.land torque_u16 0xFFFF + Z.land motor_id 0xFF /\
        List.length (data msg) = 8%nat /\ dlc msg = 8 /\
        is_extended_id msg = true /\ send_accepted w = true
  | Raise e => tx_log (snd out) = tx_log w
  end.
Proof.
  cbv zeta. unfold send_control_command, bind, of_result.
  destruct (scale_value_to_u16 pos _ _) as [a|e]; [|cbn; repeat split; reflexivity].
  destruct (scale_value_to_u16 vel _ _) as [b|e]; [|cbn; repeat split; reflexivity].
  destruct (scale_value_to_u16 kp _ _) as [c|e]; [|cbn; repeat split; reflexivity].
  destruct (scale_value_to_u16 kd _ _) as [d|e]; [|cbn; repeat split; reflexivity].
  destruct (scale_value_to_u16 torque _ _) as [t|e]; [|cbn; repeat split; reflexivity].
  destruct (struct_pack_HHHH a b c d) as [bs|e] eqn:Ep; [|cbn; repeat split; reflexivity].
  assert (Hlen : List.length bs = 8%nat).
  { unfold struct_pack_HHHH, pack_H in Ep.
    destruct ((0 <=? a) && (a <=? 65535)); [|discriminate].
    destruct ((0 <=? b) && (b <=? 65535)); [|discriminate].
    destruct ((0 <=? c) && (c <=? 65535)); [|discriminate].
    destruct ((0 <=? d) && (d <=? 65535)); [|discriminate].
    injection Ep as <-. reflexivity. }
  unfold bus_send, send_accepted.
  destruct (tx_script w) as [|[e|] ts]; cbn [fst snd rx_script recv_log sleep_script clock
    client_script stdout bus_open signals tx_log set_tx]; repeat split; try reflexivity;
    eexists; exists t; cbn [arbitration_id data dlc is_extended_id];
    rewrite control_id_sum; repeat split; try reflexivity; exact Hlen.
Qed.

(** X4.  The fields packed into the arbitration id of a control frame can
    be read back: whenever [send_control_command] returns, the frame it
    logged has communication type 1, the encoded torque masked to 16 bits
    in bits 8-23 (the encoded torque itself for a well-formed profile), the
    low byte of the motor id in bits 0-7, and an id that fits the 29 bits
    of an extended CAN id. *)
Theorem control_frame_id_round_trip
  (motor_id : Z) (pos vel kp kd torque : float) (params : Params) (w w' : World) :
  send_control_command motor_id pos vel kp kd torque params w = (Ok tt, w') ->
  exists msg torque_u16,
    tx_log w' = tx_log w ++ [msg] /\
    scale_value_to_u16 torque (T_MIN params) (T_MAX params) = Ok torque_u16 /\
    mux_of msg = MUX_CONTROL /\
    id_data msg = Z.land torque_u16 0xFFFF /\
    id_low msg = Z.land motor_id 0xFF /\
    0 <= arbitration_id msg < 2 ^ 29 /\
    (params_ok params = true -> id_data msg = torque_u16).
Proof.
  intros E.
  pose proof (send_control_command_cases motor_id pos vel kp kd torque params w) as H.
  cbv zeta in H. rewrite E in H. cbn [fst snd] in H.
  destruct H as [_ (msg & t & Hlog & Et & Eid & _)].
  pose proof (land_small t 16 ltac:(lia)) as Ht.
  pose proof (land_small motor_id 8 ltac:(lia)) as Hi.
  change (Z.ones 16) with 0xFFFF in Ht. change (Z.ones 8) with 0xFF in Hi.
  change (2 ^ 16) with 65536 in Ht. change (2 ^ 8) with 256 in Hi.
  destruct (id_fields_of_sum msg MUX_CONTROL (Z.land t 0xFFFF) (Z.land motor_id 0xFF) Eid)
    as (F1 & F2 & F3); try lia; [unfold MUX_CONTROL; lia|].
  exists msg, t. split; [exact Hlog|]. split; [exact Et|].
  split; [exact F1|]. split; [exact F2|]. split; [exact F3|]. split.
  - rewrite Eid. unfold MUX_CONTROL. change (2 ^ 29) with 536870912. lia.
  - intros Hok. rewrite F2. apply land_u16.
    destruct (params_ok_ranges params Hok) as (_ & _ & Hr & _).
    exact (scale_ok_u16 torque _ _ t Hr Et).
Qed.

Lemma control_frame_id_round_trip_witness :
  exists msg,
    tx_log (snd (send_control_command 5 0.0 0.0 20.0 1.0 (-4.7177) O5 idle_world)) = [msg] /\
    mux_of msg = 1 /\ id_data msg = 0x1234 /\ id_low msg = 5.
Proof.
  destruct (control_frame_id_round_trip 5 0.0 0.0 20.0 1.0 (-4.7177) O5 idle_world
              (snd (send_control_command 5 0.0 0.0 20.0 1.0 (-4.7177) O5 idle_world))
              eq_refl) as (msg & t & Hlog & Et & F1 & _ & F3 & _ & F2).
  exists msg. split; [exact Hlog|]. split; [exact F1|]. split; [|exact F3].
  rewrite (F2 eq_refl). vm_compute in Et. injection Et as <-. reflexivity.
Defined.

(** X5.  The enable and disable frames: for a communication type below 32
    and a motor id that fits a byte, the id carries the type, the host id
    [0xFD] in the data area and the motor id in the low byte, fits 29 bits,
    and the frame has no payload.  The motor id is not masked. *)
Theorem command_frame_id_fields (mux motor_id : Z) :
  0 <= mux < 32 -> 0 <= motor_id <= 255 ->
  mux_of (command_frame mux motor_id) = mux /\
  id_data (command_frame mux motor_id) = HOST_ID /\
  id_low (command_frame mux motor_id) = motor_id /\
  0 <= arbitration_id (command_frame mux motor_id) < 2 ^ 29 /\
  data (command_frame mux motor_id) = [] /\
  dlc (command_frame mux motor_id) = 8.
Proof.
  intros Hm Hi.
  assert (Eid : arbitration_id (command_frame mux motor_id)
                = 16777216 * mux + 256 * HOST_ID + motor_id).
  { unfold command_frame. cbn [arbitration_id].
    replace (Z.shiftl mux 24) with (Z.shiftl (Z.shiftl mux 16) 8)
      by (rewrite Z.shiftl_shiftl by lia; reflexivity).
    rewrite <- Z.shiftl_lor.
    rewrite (lor_shiftl_add mux HOST_ID 16) by (unfold HOST_ID; change (2 ^ 16) with 65536; lia).
    rewrite lor_shiftl_add by (change (2 ^ 8) with 256; lia).
    change (2 ^ 16) with 65536. change (2 ^ 8) with 256. lia. }
  destruct (id_fields_of_sum _ mux HOST_ID motor_id Eid) as (F1 & F2 & F3);
    try lia; [unfold HOST_ID; lia|].
  repeat split; try assumption; rewrite Eid; unfold HOST_ID;
    change (2 ^ 29) with 536870912; lia.
Qed.

Lemma command_frame_id_fields_witness :
  mux_of (command_frame MUX_DISABLE 1) = 4 /\ id_low (command_frame MUX_ENABLE 127) = 127.
Proof.
  split.
  - apply (command_frame_id_fields MUX_DISABLE 1); unfold MUX_DISABLE; lia.
  - apply (command_frame_id_fields MUX_ENABLE 127); unfold MUX_ENABLE; lia.
Defined.

(** ** The drain of the receive queue *)

Lemma process_app params ms ms' s :
  process params (ms ++ ms') s = process params ms' (process params ms s).
Proof. unfold process. apply fold_left_app. Qed.

Lemma process_cons params m ms s :
  process params (m :: ms) s = process params ms (snd (Fast.handle_frame params m s)).
Proof. reflexivity. Qed.

Lemma handle_frame_foreign params m s :
  foreign m = true -> Fast.handle_frame params m s = (Ok tt, s).
Proof.
  unfold foreign. intros H. destruct (is_error_frame m) eqn:He.
  { unfold Fast.handle_frame. rewrite He. reflexivity. }
  cbn [orb] in H. apply negb_true_iff, Z.eqb_neq in H.
  apply handle_frame_no_match. exact H.
Qed.

Lemma process_foreign params ms : forall s,
  forallb foreign ms = true -> process params ms s = s.
Proof.
  induction ms as [|m ms IH]; intros s H; [reflexivity|].
  cbn [forallb] in H. apply andb_true_iff in H. destruct H as [H1 H2].
  rewrite process_cons, (handle_frame_foreign params m s H1). cbn [snd]. apply IH. exact H2.
Qed.

Lemma handle_frame_not_effective params m s :
  signals (Fast.world s) = [] ->
  effective m = false -> Fast.handle_frame params m s = (Ok tt, s).
Proof.
  unfold effective. intros Hs H.
  destruct (is_error_frame m) eqn:He.
  { unfold Fast.handle_frame. rewrite He. reflexivity. }
  destruct (Z.eqb_spec (Fast.extract_motor_id m) Fast.MOTOR_ID) as [Hid|Hid].
  2:{ apply handle_frame_no_match. exact Hid. }
  cbn [negb andb] in H. apply Nat.leb_gt in H.
  rewrite (handle_frame_match params m s He Hid). unfold try_except.
  destruct (update_from_short params m s H) as [e Hu]. rewrite Hu.
  rewrite (checkpoint_calm _ Hs). cbn [snd]. rewrite state_eta. reflexivity.
Qed.

Lemma process_not_effective params ms : forall s,
  signals (Fast.world s) = [] ->
  forallb (fun m => negb (effective m)) ms = true -> process params ms s = s.
Proof.
  induction ms as [|m ms IH]; intros s Hs H; [reflexivity|].
  cbn [forallb] in H. apply andb_true_iff in H. destruct H as [H1 H2].
  apply negb_true_iff in H1.
  rewrite process_cons, (handle_frame_not_effective params m s Hs H1). cbn [snd].
  apply IH; assumption.
Qed.

Lemma handle_frame_effective params m s :
  signals (Fast.world s) = [] ->
  effective m = true ->
  exists b0 b1 b2 b3 rest,
    data m = b0 :: b1 :: b2 :: b3 :: rest /\
    Fast.handle_frame params m s
    = (Ok tt, updated params (256 * Z_of_byte b0 + Z_of_byte b1)
                             (256 * Z_of_byte b2 + Z_of_byte b3) s).
Proof.
  unfold effective. rewrite !andb_true_iff, negb_true_iff, Z.eqb_eq, Nat.leb_le.
  intros Hs [[He Hid] Hlen].
  destruct (data m) as [|b0 [|b1 [|b2 [|b3 rest]]]] eqn:Ed; cbn [List.length] in Hlen; try lia.
  exists b0, b1, b2, b3, rest. split; [reflexivity|].
  rewrite (handle_frame_match params m s He Hid). unfold try_except.
  rewrite (update_from_long params m s b0 b1 b2 b3 rest Hs Ed). reflexivity.
Qed.

Lemma tick_clock_signals w : signals (tick_clock w) = signals w.
Proof. unfold tick_clock. destruct (clock w); reflexivity. Qed.

(** With no interrupt pending, handling frames leaves none pending. *)
Lemma process_calm params ms : forall s,
  signals (Fast.world s) = [] -> signals (Fast.world (process params ms s)) = [].
Proof.
  induction ms as [|m ms IH]; intros s Hs; [exact Hs|].
  rewrite process_cons. apply IH.
  destruct (effective m) eqn:E.
  - destruct (handle_frame_effective params m s Hs E) as (b0 & b1 & b2 & b3 & rest & _ & Eh).
    rewrite Eh. cbn [snd updated Fast.world]. rewrite tick_clock_signals. exact Hs.
  - rewrite (handle_frame_not_effective params m s Hs E). exact Hs.
Qed.

(** X8.  The newest frame wins.  When the frames drained by
    [read_feedback] contain a frame [m] addressed to this motor with four
    payload bytes or more, followed only by error frames, frames of other
    motors and frames too short to decode, and no interrupt is delivered,
    the position and the velocity after the drain are those decoded from
    [m], whatever was queued before it. *)
Theorem read_feedback_newest_frame_wins
  (params : Params) (s : Fast.State) (before after : list Message) (m : Message) :
  signals (Fast.world s) = [] ->
  leading_msgs (rx_script (Fast.world s)) = before ++ m :: after ->
  effective m = true ->
  forallb (fun m' => negb (effective m')) after = true ->
  exists p_raw v_raw,
    struct_unpack_H (slice (data m) 0 2) = Ok p_raw /\
    struct_unpack_H (slice (data m) 2 4) = Ok v_raw /\
    Fast.pos (Fast.current_motor_state (snd (Fast.read_feedback params s)))
    = unscale_u16_to_float p_raw (P_MIN params) (P_MAX params) /\
    Fast.vel (Fast.current_motor_state (snd (Fast.read_feedback params s)))
    = unscale_u16_to_float v_raw (V_MIN params) (V_MAX params).
Proof.
  intros Hs Hq Hm Hafter.
  rewrite read_feedback_spec. cbn [snd]. rewrite Hq.
  rewrite process_app, process_cons.
  pose proof (process_calm params before s Hs) as Hb.
  destruct (handle_frame_effective params m (process params before s) Hb Hm)
    as (b0 & b1 & b2 & b3 & rest & Ed & Eh).
  rewrite Eh. cbn [snd].
  rewrite (process_not_effective params after _); [| |exact Hafter].
  2:{ cbn [updated Fast.world]. rewrite tick_clock_signals. exact Hb. }
  cbn [with_rx Fast.current_motor_state updated Fast.pos Fast.vel].
  exists (256 * Z_of_byte b0 + Z_of_byte b1), (256 * Z_of_byte b2 + Z_of_byte b3).
  rewrite Ed. unfold slice. cbn [Nat.sub skipn firstn struct_unpack_H].
  rewrite !lor_shiftl_8 by apply Z_of_byte_range. auto.
Qed.

Lemma read_feedback_newest_frame_wins_witness :
  exists p_raw v_raw,
    struct_unpack_H [xff; xff] = Ok p_raw /\
    struct_unpack_H [x80; x00] = Ok v_raw /\
    Fast.pos (Fast.current_motor_state (snd (Fast.read_feedback O2 (Fast.init queued_world))))
    = unscale_u16_to_float p_raw (P_MIN O2) (P_MAX O2) /\
    Fast.vel (Fast.current_motor_state (snd (Fast.read_feedback O2 (Fast.init queued_world))))
    = unscale_u16_to_float v_raw (V_MIN O2) (V_MAX O2).
Proof.
  exact (read_feedback_newest_frame_wins O2 (Fast.init queued_world)
           [feedback_frame 0x02000100 [x00; x00; x00; x00]]
           [feedback_frame 0x02000300 [x11; x11; x22; x22];
            feedback_frame 0x02000100 [x01]]
           (feedback_frame 0x02000100 [xff; xff; x80; x00; x00; x00; x00; x00])
           eq_refl eq_refl eq_refl eq_refl).
Defined.

(** X9.  Frames that are none of this motor's business change nothing.
    When every frame drained by [read_feedback] is an error frame or a
    frame of another motor, the feedback state, the clock, the pending
    interrupts and the history are what they were: only the receive queue
    and the receive log moved. *)
Theorem read_feedback_ignores_foreign_frames (params : Params) (s : Fast.State) :
  forallb foreign (leading_msgs (rx_script (Fast.world s))) = true ->
  snd (Fast.read_feedback params s)
  = with_rx s (drain (rx_script (Fast.world s)))
           (recv_log (Fast.world s)
            ++ repeat 0%Q (S (leading_frames (rx_script (Fast.world s))))).
Proof.
  intros H. rewrite read_feedback_spec. cbn [snd].
  rewrite process_foreign by exact H. reflexivity.
Qed.

Lemma read_feedback_ignores_foreign_frames_witness :
  snd (Fast.read_feedback O2 (Fast.init foreign_traffic))
  = with_rx (Fast.init foreign_traffic) [] [0%Q; 0%Q; 0%Q].
Proof.
  exact (read_feedback_ignores_foreign_frames O2 (Fast.init foreign_traffic) eq_refl).
Defined.

Lemma same_out_refl s : same_out s s.
Proof. split; reflexivity. Qed.

Lemma same_out_trans s1 s2 s3 : same_out s1 s2 -> same_out s2 s3 -> same_out s1 s3.
Proof. intros [A1 A2] [B1 B2]. split; congruence. Qed.

Lemma silent_ret {A : Type} (a : A) : silent (ret a).
Proof. intros s. apply same_out_refl. Qed.

Lemma silent_of_result {A : Type} (r : result A) : silent (of_result r).
Proof. intros s. apply same_out_refl. Qed.

Lemma silent_bind {A B : Type} (c : M Fast.State A) (k : A -> M Fast.State B) :
  silent c -> (forall a, silent (k a)) -> silent (bind c k).
Proof.
  intros Hc Hk s. unfold bind. specialize (Hc s).
  destruct (c s) as [[a|e] s1]; cbn [snd] in *; [|exact Hc].
  eapply same_out_trans; [exact Hc|apply Hk].
Qed.

Lemma silent_try_except {A : Type} catches (body : M Fast.State A) handler :
  silent body -> (forall e, silent (handler e)) -> silent (try_except catches body handler).
Proof.
  intros Hb Hh s. unfold try_except. specialize (Hb s).
  destruct (body s) as [[a|e] s1]; cbn [snd] in *; [exact Hb|].
  destruct (catches e); [|exact Hb].
  eapply same_out_trans; [exact Hb|apply Hh].
Qed.

Lemma silent_lift {A : Type} (c : M World A) :
  (forall w, tx_log (snd (c w)) = tx_log w) -> silent (Fast.lift c).
Proof.
  intros H s. unfold Fast.lift. specialize (H (Fast.world s)).
  destruct (c (Fast.world s)) as [r w']. split; [exact H|reflexivity].
Qed.

Lemma tx_log_time_time w : tx_log (snd (time_time w)) = tx_log w.
Proof. unfold time_time. destruct (clock w); reflexivity. Qed.

Lemma tx_log_checkpoint w : tx_log (snd (checkpoint w)) = tx_log w.
Proof. unfold checkpoint. destruct (signals w) as [|[e|] sg]; reflexivity. Qed.

Lemma tx_log_time_sleep d w : tx_log (snd (time_sleep d w)) = tx_log w.
Proof. unfold time_sleep. destruct (sleep_script w) as [|[e|] ss]; reflexivity. Qed.

Lemma tx_log_bus_recv t w : tx_log (snd (bus_recv t w)) = tx_log w.
Proof. unfold bus_recv. destruct (rx_script w) as [|[m| |e] rx]; reflexivity. Qed.

Lemma silent_set_state f : silent (Fast.set_state f).
Proof. intros s. split; reflexivity. Qed.

Lemma silent_handle_frame params m : silent (Fast.handle_frame params m).
Proof.
  unfold Fast.handle_frame.
  destruct (is_error_frame m); [apply silent_ret|].
  destruct (Fast.extract_motor_id m =? Fast.MOTOR_ID); [|apply silent_ret].
  apply silent_try_except; [|intros e; apply silent_ret].
  unfold Fast.update_from.
  repeat first
    [ apply silent_bind; [|intros ?]
    | apply silent_of_result
    | apply silent_set_state
    | apply silent_lift; apply tx_log_time_time
    | apply silent_lift; apply tx_log_checkpoint ].
Qed.

Lemma silent_read_feedback_loop params fuel : silent (Fast.read_feedback_loop fuel params).
Proof.
  induction fuel as [|fuel IH]; cbn [Fast.read_feedback_loop]; [apply silent_ret|].
  apply silent_bind; [apply silent_lift; apply tx_log_bus_recv|].
  intros [m|]; [|apply silent_ret].
  apply silent_bind; [apply silent_handle_frame|]. intros _. exact IH.
Qed.

Lemma silent_read_feedback params : silent (Fast.read_feedback params).
Proof. intros s. unfold Fast.read_feedback. apply silent_read_feedback_loop. Qed.

Lemma ran_nil s s' : same_out s s' -> ran [] s s'.
Proof.
  intros [A B]. unfold ran. rewrite A, B, app_nil_r. cbn. repeat split; lia.
Qed.

Lemma ran_trans cs1 cs2 s1 s2 s3 :
  ran cs1 s1 s2 -> ran cs2 s2 s3 -> ran (cs1 ++ cs2) s1 s3.
Proof.
  intros (A1 & A2 & A3 & A4 & A5) (B1 & B2 & B3 & B4 & B5). unfold ran.
  rewrite B1, A1, <- app_assoc, forallb_app, A2, B2, length_app.
  repeat split; lia.
Qed.

(** A control frame accepted by the bus is a control frame of this motor. *)
Lemma send_control_command_sends_control pos vel kp kd torque params w :
  tx_log (snd (send_control_command Fast.MOTOR_ID pos vel kp kd torque params w)) = tx_log w \/
  exists msg,
    fst (send_control_command Fast.MOTOR_ID pos vel kp kd torque params w) = Ok tt /\
    tx_log (snd (send_control_command Fast.MOTOR_ID pos vel kp kd torque params w))
    = tx_log w ++ [msg] /\ is_control msg = true.
Proof.
  pose proof (send_control_command_cases Fast.MOTOR_ID pos vel kp kd torque params w) as H.
  cbv zeta in H. destruct H as [_ H].
  destruct (send_control_command Fast.MOTOR_ID pos vel kp kd torque params w)
    as [[[]|e] w'] eqn:E; cbn [fst snd] in *; [|left; exact H].
  right. destruct H as (msg & t & Hlog & _ & Eid & Hlen & _).
  pose proof (land_small t 16 ltac:(lia)) as Ht.
  change (Z.ones 16) with 0xFFFF in Ht. change (2 ^ 16) with 65536 in Ht.
  destruct (id_fields_of_sum msg MUX_CONTROL (Z.land t 0xFFFF) Fast.MOTOR_ID Eid)
    as (F1 & _ & F3); try lia; try (unfold MUX_CONTROL, Fast.MOTOR_ID; lia).
  exists msg. split; [reflexivity|]. split; [exact Hlog|].
  unfold is_control. rewrite F1, F3, Hlen. reflexivity.
Qed.

(** ** The trace of the control loop *)

Lemma runs_silent {A : Type} (c : M Fast.State A) : silent c -> runs c.
Proof. intros H s. exists []. apply ran_nil, H. Qed.

Lemma runs_bind {A B : Type} (c : M Fast.State A) (k : A -> M Fast.State B) :
  runs c -> (forall a, runs (k a)) -> runs (bind c k).
Proof.
  intros Hc Hk s. unfold bind. destruct (Hc s) as [cs1 H1].
  destruct (c s) as [[a|e] s1]; cbn [snd] in *; [|exists cs1; exact H1].
  destruct (Hk a s1) as [cs2 H2]. exists (cs1 ++ cs2). eapply ran_trans; eassumption.
Qed.

(** Sending a control frame and recording the sample go together: the
    sample is recorded exactly when the frame was accepted. *)
Lemma runs_send_record {B : Type} pos vel kp kd torque params t x (k : unit -> M Fast.State B) :
  (forall u, runs (k u)) ->
  runs (Fast.lift (send_control_command Fast.MOTOR_ID pos vel kp kd torque params) ;;
        (u <- Fast.record t x ;; k u)).
Proof.
  intros Hk s. unfold bind at 1. unfold Fast.lift.
  destruct (send_control_command_sends_control pos vel kp kd torque params (Fast.world s))
    as [H|(msg & Hok & Hlog & Hc)].
  - destruct (send_control_command Fast.MOTOR_ID pos vel kp kd torque params (Fast.world s))
      as [[[]|e] w'] eqn:E; cbn [fst snd] in *.
    + (* accepted without a new frame in the log: impossible *)
      exfalso.
      pose proof (send_control_command_cases Fast.MOTOR_ID pos vel kp kd torque params
                    (Fast.world s)) as K.
      cbv zeta in K. rewrite E in K. cbn [fst snd] in K.
      destruct K as [_ (msg & _ & Hlog & _)]. rewrite H in Hlog.
      apply (f_equal (@List.length Message)) in Hlog. rewrite length_app in Hlog.
      cbn in Hlog. lia.
    + exists []. apply ran_nil. split; [exact H|reflexivity].
  - destruct (send_control_command Fast.MOTOR_ID pos vel kp kd torque params (Fast.world s))
      as [[[]|e] w'] eqn:E; cbn [fst snd] in *; [|discriminate].
    unfold bind, Fast.record, modify.
    match goal with |- exists cs, ran cs s (snd (k tt ?s1)) =>
      destruct (Hk tt s1) as [cs2 H2]; exists ([msg] ++ cs2);
      apply (ran_trans [msg] cs2 s s1); [|exact H2] end.
    unfold ran. cbn [Fast.world Fast.history Fast.h_time Fast.h_target Fast.h_actual forallb].
    rewrite Hlog, Hc, !length_app. cbn. repeat split; reflexivity.
Qed.

Lemma runs_tick py_sin py_cos params start_time :
  runs (Fast.tick py_sin py_cos params start_time).
Proof.
  unfold Fast.tick.
  apply runs_bind; [apply runs_silent, silent_lift, tx_log_time_time|]. intros loop_start.
  apply runs_bind; [apply runs_silent, silent_read_feedback|]. intros _.
  apply runs_send_record. intros _.
  apply runs_bind; [apply runs_silent, silent_of_result|]. intros _.
  apply runs_bind; [apply runs_silent, silent_lift, tx_log_time_time|]. intros now.
  destruct (0 <? _)%float; apply runs_silent; [|apply silent_ret].
  apply silent_lift. apply tx_log_time_sleep.
Qed.

Lemma while_true_ran body : runs body ->
  forall fuel s e s', Fast.while_true fuel body s = Some (e, s') -> exists cs, ran cs s s'.
Proof.
  intros Hb. induction fuel as [|fuel IH]; intros s e s' H; [discriminate|].
  cbn [Fast.while_true] in H. destruct (Hb s) as [cs1 H1].
  destruct (body s) as [[[]|e1] s1]; cbn [snd] in H1.
  - destruct (IH _ _ _ H) as [cs2 H2]. exists (cs1 ++ cs2). eapply ran_trans; eassumption.
  - injection H as _ <-. exists cs1. exact H1.
Qed.

(** The frames of one run of the main program and its recorded samples. *)
Lemma main_trace py_sin py_cos fuel w r s' :
  Fast.main py_sin py_cos fuel w = Some (r, s') ->
  exists pre cs tail,
    tx_log (Fast.world s') = tx_log w ++ pre ++ cs ++ tail /\
    (pre = [command_frame MUX_ENABLE Fast.MOTOR_ID] \/ pre = [] /\ cs = []) /\
    forallb is_control cs = true /\
    (tail = [] \/ tail = [command_frame MUX_DISABLE Fast.MOTOR_ID]) /\
    List.length (Fast.h_time (Fast.history s')) = List.length cs /\
    List.length (Fast.h_target (Fast.history s')) = List.length cs /\
    List.length (Fast.h_actual (Fast.history s')) = List.length cs.
Proof.
  unfold Fast.main. cbn [dict_get MOTOR_ID_TO_TYPE_MAP Fast.MOTOR_ID Z.eqb Pos.eqb].
  cbn [dict_get MOTOR_TYPE_PARAMS String.eqb Ascii.eqb Bool.eqb].
  intros H.
  assert (T : exists e s1 pre cs,
             Fast.try_block py_sin py_cos O2 fuel (Fast.init w) = Some (e, s1) /\
             tx_log (Fast.world s1) = tx_log w ++ pre ++ cs /\
             (pre = [command_frame MUX_ENABLE Fast.MOTOR_ID] \/ pre = [] /\ cs = []) /\
             forallb is_control cs = true /\
             List.length (Fast.h_time (Fast.history s1)) = List.length cs /\
             List.length (Fast.h_target (Fast.history s1)) = List.length cs /\
             List.length (Fast.h_actual (Fast.history s1)) = List.length cs).
  { destruct (Fast.try_block py_sin py_cos O2 fuel (Fast.init w)) as [[e s1]|] eqn:E;
      [|discriminate].
    exists e, s1. unfold Fast.try_block in E. unfold bind at 1 in E. unfold Fast.lift at 1 in E.
    unfold bus_send in E. cbn [Fast.init Fast.world] in E.
    destruct (tx_script w) as [|[e0|] ts] eqn:Ets.
    - (* enable accepted *)
      match type of E with context [bind _ _ ?s0] =>
        assert (S0 : silent (Fast.lift (time_sleep 1) ;; Fast.lift time_time));
        [apply silent_bind; [apply silent_lift, tx_log_time_sleep|];
         intros _; apply silent_lift, tx_log_time_time|];
        specialize (S0 s0);
        destruct ((Fast.lift (time_sleep 1) ;; Fast.lift time_time) s0) as [[t|e1] s2]
      end; cbn [snd] in S0; destruct S0 as [A B];
        cbn [Fast.world Fast.history tx_log set_tx] in A, B.
      + destruct (while_true_ran _ (runs_tick py_sin py_cos O2 t) _ _ _ _ E)
          as (cs & C1 & C2 & C3 & C4 & C5).
        exists [command_frame MUX_ENABLE Fast.MOTOR_ID], cs.
        rewrite B in C3, C4, C5. cbn [Fast.h_time Fast.h_target Fast.h_actual List.length] in *.
        split; [reflexivity|]. rewrite C1, A, <- app_assoc. auto 10.
      + injection E as <- <-.
        exists [command_frame MUX_ENABLE Fast.MOTOR_ID], [].
        rewrite A, B, app_nil_r. cbn. auto 10.
    - injection E as <- <-. exists [], []. cbn. rewrite app_nil_r. auto 10.
    - match type of E with context [bind _ _ ?s0] =>
        assert (S0 : silent (Fast.lift (time_sleep 1) ;; Fast.lift time_time));
        [apply silent_bind; [apply silent_lift, tx_log_time_sleep|];
         intros _; apply silent_lift, tx_log_time_time|];
        specialize (S0 s0);
        destruct ((Fast.lift (time_sleep 1) ;; Fast.lift time_time) s0) as [[t|e1] s2]
      end; cbn [snd] in S0; destruct S0 as [A B];
        cbn [Fast.world Fast.history tx_log set_tx] in A, B.
      + destruct (while_true_ran _ (runs_tick py_sin py_cos O2 t) _ _ _ _ E)
          as (cs & C1 & C2 & C3 & C4 & C5).
        exists [command_frame MUX_ENABLE Fast.MOTOR_ID], cs.
        rewrite B in C3, C4, C5. cbn [Fast.h_time Fast.h_target Fast.h_actual List.length] in *.
        split; [reflexivity|]. rewrite C1, A, <- app_assoc. auto 10.
      + injection E as <- <-.
        exists [command_frame MUX_ENABLE Fast.MOTOR_ID], [].
        rewrite A, B, app_nil_r. cbn. auto 10. }
  destruct T as (e & s1 & pre & cs & E & Hlog & Hpre & Hcs & L1 & L2 & L3).
  rewrite E in H. injection H as H. unfold try_finally in H.
  assert (B : exists r0, (if Fast.handled e then ret tt else raise e) s1 = (r0, s1)).
  { destruct (Fast.handled e); eexists; reflexivity. }
  destruct B as (r0 & B). rewrite B in H.
  assert (Hh : Fast.history (snd (Fast.finally_block s1)) = Fast.history s1).
  { unfold Fast.finally_block, bind, Fast.lift.
    destruct (bus_send _ (Fast.world s1)) as [[[]|e1] w1]; [|reflexivity].
    cbn [Fast.world]. destruct (time_sleep 0.5 w1) as [[[]|e2] w2]; [|reflexivity].
    cbn [Fast.world]. destruct (bus_shutdown w2) as [[[]|e3] w3]; reflexivity. }
  pose proof (finally_block_cases s1) as F.
  exists pre, cs.
  destruct (Fast.finally_block s1) as [[[]|e2] s2]; cbn [snd] in Hh; injection H as _ <-;
    rewrite Hh.
  - destruct F as [F _]. exists [command_frame MUX_DISABLE Fast.MOTOR_ID].
    rewrite F, Hlog, <- !app_assoc. auto 10.
  - destruct F as [_ [F|F]].
    + exists []. rewrite F, Hlog, app_nil_r. auto 10.
    + exists [command_frame MUX_DISABLE Fast.MOTOR_ID].
      rewrite F, Hlog, <- !app_assoc. auto 10.
Qed.

(** X7.  [read_feedback] drains the queue and nothing else: it returns
    normally unless the receive that ends the drain fails, and then that
    failure leaves [read_feedback] (the bare [except] does not cover
    [bus.recv]); it consumes the frames queued ahead of the first empty
    receive and that receive, with one call of [bus.recv(timeout=0)] for
    each; it sends nothing and records no sample. *)
Theorem read_feedback_drains (params : Params) (s : Fast.State) :
  let rx := rx_script (Fast.world s) in
  let r := Fast.read_feedback params s in
  fst r = drain_outcome rx /\
  rx_script (Fast.world (snd r)) = drain rx /\
  recv_log (Fast.world (snd r))
  = recv_log (Fast.world s) ++ repeat 0%Q (S (leading_frames rx)) /\
  tx_log (Fast.world (snd r)) = tx_log (Fast.world s) /\
  Fast.history (snd r) = Fast.history s.
Proof.
  cbv zeta. destruct (silent_read_feedback params s) as [A B].
  rewrite read_feedback_spec in *. cbn [fst snd with_rx Fast.world rx_script recv_log] in *.
  auto.
Qed.


(** X10.  The frames of a run of [fast.py] come in one order.  On every exit
    of the main program the frames the bus accepted during the run are: the
    enable frame, then control frames addressed to [MOTOR_ID] and nothing
    else, then at most one disable frame.  No control frame goes out before
    the enable frame was accepted, and nothing follows the disable frame. *)
Theorem main_frame_order
  (py_sin py_cos : float -> float) (fuel : nat) (w : World) (r : result unit)
  (s' : Fast.State) :
  Fast.main py_sin py_cos fuel w = Some (r, s') ->
  exists pre cs tail,
    tx_log (Fast.world s') = tx_log w ++ pre ++ cs ++ tail /\
    (pre = [command_frame MUX_ENABLE Fast.MOTOR_ID] \/ pre = [] /\ cs = []) /\
    forallb is_control cs = true /\
    (tail = [] \/ tail = [command_frame MUX_DISABLE Fast.MOTOR_ID]).
Proof.
  intros H. destruct (main_trace _ _ _ _ _ _ H) as (pre & cs & tail & A & B & C & D & _).
  exists pre, cs, tail. auto.
Qed.

Lemma main_frame_order_witness :
  exists r s' pre cs tail,
    Fast.main (fun x => x) (fun x => x) 5 bus_lost_after_two = Some (r, s') /\
    tx_log (Fast.world s') = tx_log bus_lost_after_two ++ pre ++ cs ++ tail /\
    (pre = [command_frame MUX_ENABLE Fast.MOTOR_ID] \/ pre = [] /\ cs = []) /\
    forallb is_control cs = true /\
    (tail = [] \/ tail = [command_frame MUX_DISABLE Fast.MOTOR_ID]).
Proof.
  destruct (Fast.main (fun x => x) (fun x => x) 5 bus_lost_after_two) as [[r s']|] eqn:E;
    [|vm_compute in E; discriminate].
  destruct (main_frame_order (fun x => x) (fun x => x) 5 bus_lost_after_two r s' E)
    as (pre & cs & tail & H).
  exists r, s', pre, cs, tail. split; [reflexivity|exact H].
Defined.



(** ** ParamChannel: any number of retries *)

Lemma write_from_ok attempt k motor_id param_name value retries w v cs out :
  channel w (Ok v :: cs) out ->
  exists w2,
    channel w2 cs out /\
    FindAngles.safe_write_param_from attempt (S k) motor_id param_name value retries w
    = (Ok tt, w2).
Proof.
  intros Hch.
  destruct (flush_healthy w _ _ Hch) as (w1 & Ef & (H1 & Hc1 & Ho1)).
  exists (set_client w1 cs). split; [repeat split; assumption|].
  cbn [FindAngles.safe_write_param_from]. unfold try_except, bind.
  rewrite Ef. unfold client_write_param, client_call, bind. rewrite Hc1. reflexivity.
Qed.

Lemma read_from_success motor_id param_name retries es :
  forall attempt k w v cs out,
    channel w (map Raise es ++ Ok v :: cs) out -> forallb is_Exception es = true ->
    (List.length es < k)%nat ->
    exists w',
      FindAngles.safe_read_param_from attempt k motor_id param_name retries w
      = (Ok (Some v), w') /\
      channel w' cs (out ++ error_lines OpRead attempt motor_id param_name es).
Proof.
  induction es as [|e es IH]; intros attempt k w v cs out Hch He Hk;
    (destruct k as [|k]; [cbn [List.length] in Hk; lia|]).
  - destruct (read_from_ok attempt k motor_id param_name retries w v cs out Hch)
      as (w2 & C & E).
    exists w2. cbn [error_lines]. rewrite app_nil_r. auto.
  - cbn [forallb] in He. apply andb_true_iff in He. destruct He as [He1 He2].
    destruct (read_from_fail attempt k motor_id param_name retries w e _ out Hch He1)
      as (w2 & C & E).
    cbn [List.length] in Hk.
    destruct (IH (S attempt) k w2 v cs _ C He2 ltac:(lia)) as (w' & E' & C').
    exists w'. rewrite E, E'. split; [reflexivity|].
    cbn [error_lines]. rewrite <- app_assoc in C'. exact C'.
Qed.

Lemma read_from_exhausted motor_id param_name retries es :
  forall attempt w cs out,
    channel w (map Raise es ++ cs) out -> forallb is_Exception es = true ->
    exists w',
      FindAngles.safe_read_param_from attempt (List.length es) motor_id param_name retries w
      = (Ok None, w') /\
      channel w' cs (out ++ error_lines OpRead attempt motor_id param_name es
                         ++ [FailedLine OpRead motor_id param_name retries]).
Proof.
  induction es as [|e es IH]; intros attempt w cs out Hch He.
  - cbn [List.length FindAngles.safe_read_param_from error_lines app].
    unfold bind, print, modify, ret. eexists. split; [reflexivity|].
    destruct Hch as (H1 & H2 & H3). repeat split; cbn; try assumption.
    rewrite H3. reflexivity.
  - cbn [forallb] in He. apply andb_true_iff in He. destruct He as [He1 He2].
    cbn [List.length].
    destruct (read_from_fail attempt (List.length es) motor_id param_name retries w e _ out
                Hch He1) as (w2 & C & E).
    destruct (IH (S attempt) w2 cs _ C He2) as (w' & E' & C').
    exists w'. rewrite E, E'. split; [reflexivity|].
    cbn [error_lines]. rewrite <- app_assoc in C'. exact C'.
Qed.

Lemma write_from_success motor_id param_name value retries es :
  forall attempt k w v cs out,
    channel w (map Raise es ++ Ok v :: cs) out -> forallb is_Exception es = true ->
    (List.length es < k)%nat ->
    exists w',
      FindAngles.safe_write_param_from attempt k motor_id param_name value retries w
      = (Ok tt, w') /\
      channel w' cs (out ++ error_lines OpWrite attempt motor_id param_name es).
Proof.
  induction es as [|e es IH]; intros attempt k w v cs out Hch He Hk;
    (destruct k as [|k]; [cbn [List.length] in Hk; lia|]).
  - destruct (write_from_ok attempt k motor_id param_name value retries w v cs out Hch)
      as (w2 & C & E).
    exists w2. cbn [error_lines]. rewrite app_nil_r. auto.
  - cbn [forallb] in He. apply andb_true_iff in He. destruct He as [He1 He2].
    destruct (write_from_fail attempt k motor_id param_name value retries w e _ out Hch He1)
      as (w2 & C & E).
    cbn [List.length] in Hk.
    destruct (IH (S attempt) k w2 v cs _ C He2 ltac:(lia)) as (w' & E' & C').
    exists w'. rewrite E, E'. split; [reflexivity|].
    cbn [error_lines]. rewrite <- app_assoc in C'. exact C'.
Qed.

Lemma write_from_exhausted motor_id param_name value retries es :
  forall attempt w cs out,
    channel w (map Raise es ++ cs) out -> forallb is_Exception es = true ->
    exists w',
      FindAngles.safe_write_param_from attempt (List.length es) motor_id param_name value
        retries w = (Ok tt, w') /\
      channel w' cs (out ++ error_lines OpWrite attempt motor_id param_name es
                         ++ [FailedLine OpWrite motor_id param_name retries]).
Proof.
  induction es as [|e es IH]; intros attempt w cs out Hch He.
  - cbn [List.length FindAngles.safe_write_param_from error_lines app].
    unfold print, modify. eexists. split; [reflexivity|].
    destruct Hch as (H1 & H2 & H3). repeat split; cbn; try assumption.
    rewrite H3. reflexivity.
  - cbn [forallb] in He. apply andb_true_iff in He. destruct He as [He1 He2].
    cbn [List.length].
    destruct (write_from_fail attempt (List.length es) motor_id param_name value retries w e _
                out Hch He1) as (w2 & C & E).
    destruct (IH (S attempt) w2 cs _ C He2) as (w' & E' & C').
    exists w'. rewrite E, E'. split; [reflexivity|].
    cbn [error_lines]. rewrite <- app_assoc in C'. exact C'.
Qed.

(** X12.  [safe_read_param] for any number of retries, on a healthy bus
    with a primitive that raises instances of [Exception]: it returns the
    first answer the primitive gives within [retries] calls, after printing
    one line per failed call, numbered from 1, and calls the primitive no
    more; when the first [retries] calls all fail it returns [None] after
    [retries] lines and the closing line, having called the primitive
    exactly [retries] times (with [retries = 0]: not at all). *)
Theorem safe_read_param_first_answer
  (motor_id : Z) (param_name : string) (retries : nat) (w : World) (es : list exn)
  (rest : list (result float)) :
  rx_faultless w = true -> forallb is_Exception es = true ->
  client_script w = map Raise es ++ rest ->
  (forall v cs, rest = Ok v :: cs -> (List.length es < retries)%nat ->
   exists w',
     FindAngles.safe_read_param motor_id param_name retries w = (Ok (Some v), w') /\
     client_script w' = cs /\
     stdout w' = stdout w ++ error_lines OpRead 0 motor_id param_name es) /\
  (List.length es = retries ->
   exists w',
     FindAngles.safe_read_param motor_id param_name retries w = (Ok None, w') /\
     client_script w' = rest /\
     stdout w' = stdout w ++ error_lines OpRead 0 motor_id param_name es
                          ++ [FailedLine OpRead motor_id param_name retries]).
Proof.
  intros Hrx He Hc. unfold FindAngles.safe_read_param. split.
  - intros v cs -> Hk.
    destruct (read_from_success motor_id param_name retries es 0 retries w v cs (stdout w)
                (conj Hrx (conj Hc eq_refl)) He Hk) as (w' & E & (_ & C2 & C3)).
    exists w'. auto.
  - intros <-.
    destruct (read_from_exhausted motor_id param_name (List.length es) es 0 w rest (stdout w)
                (conj Hrx (conj Hc eq_refl)) He) as (w' & E & (_ & C2 & C3)).
    exists w'. auto.
Qed.

Lemma safe_read_param_first_answer_witness :
  exists w',
    FindAngles.safe_read_param 1 "mechpos" 5 flaky_world = (Ok (Some 3.5%float), w') /\
    client_script w' = [] /\
    stdout w' = [ErrorLine OpRead 1 1 "mechpos" ClientError;
                 ErrorLine OpRead 2 1 "mechpos" ClientError].
Proof.
  destruct (safe_read_param_first_answer 1 "mechpos" 5 flaky_world
              [ClientError; ClientError] [Ok 3.5%float] eq_refl eq_refl eq_refl) as [H _].
  apply (H 3.5%float [] eq_refl). cbn. lia.
Defined.

(** X13.  [safe_write_param] for any number of retries, under the same
    conditions: it stops at the first call of the primitive that succeeds,
    after one line per failed call; when the first [retries] calls all
    fail it prints the closing line and returns normally all the same: the
    caller cannot tell a write that failed from one that succeeded. *)
Theorem safe_write_param_first_success
  (motor_id : Z) (param_name : string) (value : float) (retries : nat) (w : World)
  (es : list exn) (rest : list (result float)) :
  rx_faultless w = true -> forallb is_Exception es = true ->
  client_script w = map Raise es ++ rest ->
  (forall v cs, rest = Ok v :: cs -> (List.length es < retries)%nat ->
   exists w',
     FindAngles.safe_write_param motor_id param_name value retries w = (Ok tt, w') /\
     client_script w' = cs /\
     stdout w' = stdout w ++ error_lines OpWrite 0 motor_id param_name es) /\
  (List.length es = retries ->
   exists w',
     FindAngles.safe_write_param motor_id param_name value retries w = (Ok tt, w') /\
     client_script w' = rest /\
     stdout w' = stdout w ++ error_lines OpWrite 0 motor_id param_name es
                          ++ [FailedLine OpWrite motor_id param_name retries]).
Proof.
  intros Hrx He Hc. unfold FindAngles.safe_write_param. split.
  - intros v cs -> Hk.
    destruct (write_from_success motor_id param_name value retries es 0 retries w v cs
                (stdout w) (conj Hrx (conj Hc eq_refl)) He Hk) as (w' & E & (_ & C2 & C3)).
    exists w'. auto.
  - intros <-.
    destruct (write_from_exhausted motor_id param_name value (List.length es) es 0 w rest
                (stdout w) (conj Hrx (conj Hc eq_refl)) He) as (w' & E & (_ & C2 & C3)).
    exists w'. auto.
Qed.

Lemma safe_write_param_first_success_witness :
  exists w',
    FindAngles.safe_write_param 1 "run_mode" 0.0 3 silent_world = (Ok tt, w') /\
    client_script w' = [] /\
    stdout w' = [ErrorLine OpWrite 1 1 "run_mode" ClientError;
                 ErrorLine OpWrite 2 1 "run_mode" ClientError;
                 ErrorLine OpWrite 3 1 "run_mode" ClientError;
                 FailedLine OpWrite 1 "run_mode" 3].
Proof.
  destruct (safe_write_param_first_success 1 "run_mode" 0.0 3 silent_world
              [ClientError; ClientError; ClientError] [] eq_refl eq_refl eq_refl) as [_ H].
  apply (H eq_refl).
Defined.

(** ** The range tracker *)

(** X14.  The range tracker of [findangles.py].  Whatever the successive
    pairs of readings of a motor, polls that failed ([None]) and NaN included:
    the recorded minimum and maximum are never NaN; every reading that is a
    number and was taken with a velocity lies between them, and then the
    minimum is at most the maximum; as long as no such reading came, the
    range is still [(inf, -inf)], which the final report leaves out. *)
Theorem track_all_bounds (readings : list (option float * option float)) :
  let r := FindAngles.track_all readings in
  is_nan (fst r) = false /\ is_nan (snd r) = false /\
  (forall rad v, In (Some rad, Some v) readings -> is_nan rad = false ->
   (fst r <=? rad)%float = true /\ (rad <=? snd r)%float = true /\
   (fst r <=? snd r)%float = true) /\
  ((forall rad v, In (Some rad, Some v) readings -> is_nan rad = true) ->
   r = FindAngles.no_range).
Proof.
  cbv zeta. unfold FindAngles.track_all.
  destruct (track_fold readings FindAngles.no_range eq_refl eq_refl)
    as (N1 & N2 & _ & _ & H & E).
  cbv zeta in *.
  split; [exact N1|]. split; [exact N2|]. split; [|exact E].
  intros rad v Hin Hn. destruct (H rad v Hin Hn) as [H1 H2].
  assert (Nr : is_nan rad = false) by exact Hn.
  split; [apply leb_of_ordR; assumption|].
  split; [apply leb_of_ordR; assumption|].
  apply leb_of_ordR; try assumption. lra.
Qed.

Lemma track_all_bounds_witness :
  FindAngles.track_all
    [(Some 1.0%float, Some 0.0%float); (Some nan, Some 0.0%float);
     (None, Some 2.0%float); (Some (-2.5)%float, None); (Some (-0.5)%float, Some 0.1%float)]
  = ((-0.5)%float, 1.0%float) /\
  ((-0.5)%float <=? 1.0)%float = true.
Proof.
  split; [reflexivity|].
  destruct (track_all_bounds
              [(Some 1.0%float, Some 0.0%float); (Some nan, Some 0.0%float);
               (None, Some 2.0%float); (Some (-2.5)%float, None);
               (Some (-0.5)%float, Some 0.1%float)]) as (_ & _ & H & _).
  exact (proj2 (proj2 (H 1.0%float 0.0%float (or_introl eq_refl) eq_refl))).
Defined.

(** ** The main program of [mit.py] *)

Lemma sent_nil w : sent [] w w.
Proof. split; [rewrite app_nil_r|]; reflexivity. Qed.

Lemma sent_trans l1 l2 w1 w2 w3 : sent l1 w1 w2 -> sent l2 w2 w3 -> sent (l1 ++ l2) w1 w3.
Proof. intros [A1 A2] [B1 B2]. split; [rewrite B1, A1, app_assoc|]; congruence. Qed.

Lemma bus_send_sent m w :
  (fst (bus_send m w) = Ok tt /\ sent [m] w (snd (bus_send m w))) \/
  ((exists e, fst (bus_send m w) = Raise e) /\ sent [] w (snd (bus_send m w))).
Proof.
  unfold bus_send, sent. destruct (tx_script w) as [|[e|] ts]; cbn [fst snd tx_log bus_open set_tx].
  - left. auto.
  - right. rewrite app_nil_r. eauto.
  - left. auto.
Qed.

Lemma time_sleep_sent d w : sent [] w (snd (time_sleep d w)).
Proof.
  unfold time_sleep, sent. rewrite app_nil_r.
  destruct (sleep_script w) as [|[e|] ss]; split; reflexivity.
Qed.

(** The one command of [mit.py] always encodes, to the same frame. *)
Lemma mit_control_command w :
  Mit.send_control_command Mit.MOTOR_ID Mit.TARGET_POSITION_RAD Mit.TARGET_VELOCITY_RAD_S
    Mit.KP_GAIN Mit.KD_GAIN Mit.TARGET_TORQUE_NM O2 w
  = bus_send mit_control_frame w.
Proof.
  unfold Mit.send_control_command, bind, of_result.
  replace (Mit.scale_value_to_u16 Mit.TARGET_POSITION_RAD (P_MIN O2) (P_MAX O2))
    with (@Ok Z 32767) by (vm_compute; reflexivity).
  replace (Mit.scale_value_to_u16 Mit.TARGET_VELOCITY_RAD_S (V_MIN O2) (V_MAX O2))
    with (@Ok Z 32767) by (vm_compute; reflexivity).
  replace (Mit.scale_value_to_u16 Mit.KP_GAIN (KP_MIN O2) (KP_MAX O2))
    with (@Ok Z 7864) by (vm_compute; reflexivity).
  replace (Mit.scale_value_to_u16 Mit.KD_GAIN (KD_MIN O2) (KD_MAX O2))
    with (@Ok Z 52428) by (vm_compute; reflexivity).
  replace (Mit.scale_value_to_u16 Mit.TARGET_TORQUE_NM (T_MIN O2) (T_MAX O2))
    with (@Ok Z 32767) by (vm_compute; reflexivity).
  reflexivity.
Qed.

Lemma mit_try_block_sent w :
  exists e c : bool,
    sent ((if e then [command_frame MUX_ENABLE Mit.MOTOR_ID] else [])
          ++ (if c then [mit_control_frame] else [])) w (snd (Mit.try_block O2 w)) /\
    (c = true -> e = true).
Proof.
  unfold Mit.try_block, bind.
  destruct (bus_send_sent (command_frame MUX_ENABLE Mit.MOTOR_ID) w) as [[F S]|[[x F] S]];
    destruct (bus_send (command_frame MUX_ENABLE Mit.MOTOR_ID) w) as [[[]|e0] w1];
    cbn [fst snd] in *; try discriminate.
  2:{ exists false, false. split; [exact S|discriminate]. }
  pose proof (time_sleep_sent 1 w1) as S1.
  destruct (time_sleep 1 w1) as [[[]|e1] w2]; cbn [snd] in S1.
  2:{ exists true, false. split; [|reflexivity].
      apply (sent_trans _ _ _ _ _ S S1). }
  rewrite mit_control_command.
  destruct (bus_send_sent mit_control_frame w2) as [[F2 S2]|[[x2 F2] S2]];
    destruct (bus_send mit_control_frame w2) as [[[]|e2] w3];
    cbn [fst snd] in *; try discriminate.
  2:{ exists true, false. split; [|reflexivity].
      apply (sent_trans _ _ _ _ _ S (sent_trans _ _ _ _ _ S1 S2)). }
  pose proof (time_sleep_sent 30 w3) as S3.
  exists true, true. split; [|reflexivity].
  apply (sent_trans [_] [_] _ _ _ (sent_trans _ _ _ _ _ S S1)).
  replace [mit_control_frame] with ([mit_control_frame] ++ []) by reflexivity.
  apply (sent_trans _ _ _ _ _ S2).
  destruct (time_sleep 30 w3) as [[[]|e3] w4]; exact S3.
Qed.

(** X15.  The frames of a run of [mit.py].  Whatever the bus refuses
    and whenever the operator interrupts, the main program sends at most
    three frames, in this order: the enable frame of motor 20, the one
    control frame (position, velocity and torque at mid-scale, gains 60 of
    500 and 4 of 5), and the disable frame.  The control frame goes out only
    if the enable frame was accepted; the bus is shut down exactly when the
    disable frame was accepted, and an exit without exception has sent
    it. *)
Theorem mit_main_frames (w : World) :
  exists e c d : bool,
    tx_log (snd (Mit.main w))
    = tx_log w ++ (if e then [command_frame MUX_ENABLE Mit.MOTOR_ID] else [])
               ++ (if c then [mit_control_frame] else [])
               ++ (if d then [command_frame MUX_DISABLE Mit.MOTOR_ID] else []) /\
    (c = true -> e = true) /\
    bus_open (snd (Mit.main w)) = (if d then false else bus_open w) /\
    (fst (Mit.main w) = Ok tt -> d = true).
Proof.
  assert (E : Mit.main w
              = try_finally (try_except is_Exception (Mit.try_block O2) (fun _ => ret tt))
                            Mit.finally_block w) by reflexivity.
  rewrite E. clear E.
  destruct (mit_try_block_sent w) as (e & c & [S1 S2] & Hce).
  exists e, c.
  unfold try_finally.
  assert (B : snd (try_except is_Exception (Mit.try_block O2) (fun _ => ret tt) w)
              = snd (Mit.try_block O2 w)).
  { unfold try_except. destruct (Mit.try_block O2 w) as [[[]|x] w1]; [reflexivity|].
    destruct (is_Exception x); reflexivity. }
  destruct (try_except is_Exception (Mit.try_block O2) (fun _ => ret tt) w) as [r w1].
  cbn [snd] in B. subst w1.
  set (w1 := snd (Mit.try_block O2 w)) in *.
  unfold Mit.finally_block, bind.
  destruct (bus_send_sent (command_frame MUX_DISABLE Mit.MOTOR_ID) w1) as [[F [T1 T2]]|[[x F] [T1 T2]]];
    destruct (bus_send (command_frame MUX_DISABLE Mit.MOTOR_ID) w1) as [[[]|e0] w2];
    cbn [fst snd] in *; try discriminate.
  - exists true. unfold bus_shutdown, modify. cbn [fst snd tx_log bus_open set_closed].
    rewrite T1, S1, <- !app_assoc. auto.
  - exists false. cbn [fst snd]. rewrite T1, T2, S1, S2, !app_nil_r. 
    split; [reflexivity|]. split; [exact Hce|]. split; [reflexivity|discriminate].
Qed.
